(** * paper_patterns: the PMC fetch pipeline, embedded and verified

    A shallow embedding of the parts of the repository that the design
    document makes promises about:

    - [src/parsers/xml_parser.py]          (module [XmlParser])
    - [src/api/ncbi_client.py]             (module [Retry], [safe_call])
    - [src/collectors/paper_collector.py]  (module [Retry], [safe_api_call];
                                            module [XmlParser], [get_pmc_full_text])
    - [src/collectors/pmc_downloader.py]   (module [Downloader])
    - [src/collectors/checkpoint_manager.py] and
      [scripts/download_full_texts.py]     (module [Checkpoint])

    Python dicts are [gmap]s, lists are lists, [None] is [None], an
    exception is a constructor of the result type, and printing, sleeping
    and file writes are recorded in an explicit trace or file-system map. *)

From Stdlib Require Import ZArith List Ascii String Lia.
From stdpp Require Import sorting countable.
From stdpp Require Import base option list strings gmap pretty.

Local Open Scope string_scope.
Local Open Scope list_scope.

(** ** Python strings

    A Python [str] is held as its UTF-8 encoding, one [ascii] per byte,
    which is also how a string literal of this file is read. The
    functions below are the [str] methods and operators the code uses.
    Concatenation, comparison, prefix and substring tests act on the
    encoding as they act on the text; [strip] has to know which byte
    sequences are white space. *)

Module PyStr.

Definition nl : string := String (ascii_of_nat 10) EmptyString.

(** [sep.join(parts)] *)
Fixpoint join (sep : string) (parts : list string) : string :=
  match parts with
  | [] => ""
  | [s] => s
  | s :: rest => s +:+ sep +:+ join sep rest
  end.

(** [s * n] for a string [s] *)
Fixpoint repeat_str (s : string) (n : nat) : string :=
  match n with
  | O => ""
  | S n' => s +:+ repeat_str s n'
  end.

(** White space as [str.strip] and [str.isspace] see it
    ([Py_UNICODE_ISSPACE]), by the length of the code point's encoding.
    One byte: U+0009 to U+000D, U+001C to U+001F and the blank. *)
Definition isspace1 (a : ascii) : bool :=
  let n := nat_of_ascii a in
  ((9 <=? n)%nat && (n <=? 13)%nat) || ((28 <=? n)%nat && (n <=? 32)%nat).

(** Two bytes: U+0085 (C2 85) and the no-break space U+00A0 (C2 A0). *)
Definition isspace2 (a b : ascii) : bool :=
  let x := nat_of_ascii a in
  let y := nat_of_ascii b in
  (x =? 194)%nat && ((y =? 133)%nat || (y =? 160)%nat).

(** Three bytes: U+1680 (E1 9A 80), U+2000 to U+200A (E2 80 80 to
    E2 80 8A), U+2028 and U+2029 (E2 80 A8, E2 80 A9), U+202F
    (E2 80 AF), U+205F (E2 81 9F) and U+3000 (E3 80 80). No white space
    lies outside the basic plane. *)
Definition isspace3 (a b c : ascii) : bool :=
  let x := nat_of_ascii a in
  let y := nat_of_ascii b in
  let z := nat_of_ascii c in
  ((x =? 225)%nat && (y =? 154)%nat && (z =? 128)%nat) ||
  ((x =? 226)%nat && (y =? 128)%nat &&
   (((128 <=? z)%nat && (z <=? 138)%nat) ||
    (z =? 168)%nat || (z =? 169)%nat || (z =? 175)%nat)) ||
  ((x =? 226)%nat && (y =? 129)%nat && (z =? 159)%nat) ||
  ((x =? 227)%nat && (y =? 128)%nat && (z =? 128)%nat).

(** [s.lstrip()]: white-space code points are dropped from the front
    until one that is none comes first. *)
Fixpoint lstrip (s : string) : string :=
  match s with
  | EmptyString => EmptyString
  | String a s1 =>
      if isspace1 a then lstrip s1
      else
        match s1 with
        | String b s2 =>
            if isspace2 a b then lstrip s2
            else
              match s2 with
              | String c s3 => if isspace3 a b c then lstrip s3 else s
              | EmptyString => s
              end
        | EmptyString => s
        end
  end.

(** The text consists of white-space code points only (as
    [s.isspace()], but true of the empty text). *)
Fixpoint blank (s : string) : bool :=
  match s with
  | EmptyString => true
  | String a s1 =>
      if isspace1 a then blank s1
      else
        match s1 with
        | String b s2 =>
            if isspace2 a b then blank s2
            else
              match s2 with
              | String c s3 => if isspace3 a b c then blank s3 else false
              | EmptyString => false
              end
        | EmptyString => false
        end
  end.

(** [s.rstrip()]: the text up to the point from which only white space
    follows. No byte inside the encoding of a code point starts the
    encoding of a white-space code point, so the cut falls between two
    code points. *)
Fixpoint rstrip (s : string) : string :=
  match s with
  | EmptyString => EmptyString
  | String a s' => if blank s then EmptyString else String a (rstrip s')
  end.

(** [s.strip()] *)
Definition strip (s : string) : string := rstrip (lstrip s).

(** [s.startswith(p)] *)
Fixpoint startswith (p s : string) : bool :=
  match p, s with
  | EmptyString, _ => true
  | String a p', String b s' => if decide (a = b) then startswith p' s' else false
  | String _ _, EmptyString => false
  end.

(** [p in s] for strings *)
Fixpoint contains (p s : string) : bool :=
  startswith p s ||
  match s with
  | EmptyString => false
  | String _ s' => contains p s'
  end.

(** [str(x)] where [x] may be [None] *)
Definition str_opt (x : option string) : string :=
  match x with
  | Some s => s
  | None => "None"
  end.

(** truthiness of an optional string: [None] and [''] are false *)
Definition truthy (x : option string) : bool :=
  match x with
  | Some (String _ _) => true
  | _ => false
  end.

(** truthiness of a string *)
Definition nonempty (s : string) : bool :=
  match s with
  | EmptyString => false
  | String _ _ => true
  end.

(** The pieces of a text one after the other, used to state what a
    loop of [text += piece] builds. *)
Definition concat_str (parts : list string) : string :=
  fold_right String.append "" parts.

(** [s.count(c)] for an ASCII character [c] *)
Fixpoint count_char (c : ascii) (s : string) : nat :=
  match s with
  | EmptyString => 0
  | String a s' => (if decide (a = c) then 1 else 0) + count_char c s'
  end.

End PyStr.

(** ** xml.etree.ElementTree *)

Module ET.

#[local] Set Warnings "-register-all".

Inductive Element : Type :=
  Elem (tag : string) (attrib : gmap string string)
       (text tail : option string) (children : list Element).

Definition tag (e : Element) : string := let (t, _, _, _, _) := e in t.
Definition attrib (e : Element) : gmap string string := let (_, a, _, _, _) := e in a.
Definition text (e : Element) : option string := let (_, _, t, _, _) := e in t.
Definition tail (e : Element) : option string := let (_, _, _, t, _) := e in t.
Definition children (e : Element) : list Element := let (_, _, _, _, c) := e in c.

(** A generator that yields [t] only [if t:] *)
Definition yield_if (t : option string) : list string :=
  match t with
  | Some (String a s) => [String a s]
  | _ => []
  end.

(** [Element.itertext()]: the element's text, then for every child its
    own inner text followed by its tail, in document order. *)
Fixpoint itertext (e : Element) : list string :=
  yield_if (text e) ++
  flat_map (fun c => itertext c ++ yield_if (tail c)) (children e).

(** [Element.iter()]: the element and all its descendants, pre-order. *)
Fixpoint iter (e : Element) : list Element :=
  e :: flat_map iter (children e).

Definition has_tag (t : string) (e : Element) : bool :=
  bool_decide (tag e = t).

(** [e.findall('./t')] *)
Definition findall_child (t : string) (e : Element) : list Element :=
  List.filter (has_tag t) (children e).

(** [e.find('./t')] *)
Definition find_child (t : string) (e : Element) : option Element :=
  head (findall_child t e).

(** [e.findall('.//t')]: descendants only, the element itself is skipped. *)
Definition findall_desc (t : string) (e : Element) : list Element :=
  List.filter (has_tag t) (flat_map iter (children e)).

(** [e.find('.//t')] *)
Definition find_desc (t : string) (e : Element) : option Element :=
  head (findall_desc t e).

(** [e.find('.//t[@k="v"]')] *)
Definition find_desc_attr (t k v : string) (e : Element) : option Element :=
  head (List.filter (fun d => bool_decide (attrib d !! k = Some v))
                    (findall_desc t e)).

(** [e.find('.//t/u')] *)
Definition find_desc_child (t u : string) (e : Element) : option Element :=
  head (flat_map (findall_child u) (findall_desc t e)).

End ET.

(** ** src/parsers/xml_parser.py *)

Module XmlParser.
Import PyStr ET.

(** [extract_metadata], statement by statement; the dict is built by
    successive item assignments. A value is [None] when it is the [.text]
    of an element without text. *)
Definition extract_metadata (article : Element) (pmcid : string)
  : gmap string (option string) :=
  let metadata : gmap string (option string) := ∅ in
  let metadata :=
    <["Article Type" := Some (default "Not specified" (attrib article !! "article-type"))]>
      metadata in
  let doi_elem := find_desc_attr "article-id" "pub-id-type" "doi" article in
  let metadata :=
    <["DOI" := match doi_elem with
               | Some d => text d
               | None => Some "DOI not available"
               end]> metadata in
  let pmid_elem := find_desc_attr "article-id" "pub-id-type" "pmid" article in
  let metadata :=
    match pmid_elem with
    | Some p =>
        <["PubMed Link" :=
            Some ("https://pubmed.ncbi.nlm.nih.gov/" +:+ str_opt (text p) +:+ "/")]>
          metadata
    | None => <["PubMed Link" := Some "Not available"]> metadata
    end in
  let metadata :=
    <["PMC Link" :=
        Some ("https://www.ncbi.nlm.nih.gov/pmc/articles/PMC" +:+ pmcid +:+ "/")]>
      metadata in
  let journal_elem := find_desc "journal-title" article in
  let metadata :=
    match journal_elem with
    | Some j => <["Journal" := text j]> metadata
    | None => metadata
    end in
  let title_elem := find_desc "article-title" article in
  let metadata :=
    match title_elem with
    | Some t => <["Title" := Some (join "" (itertext t))]> metadata
    | None => metadata
    end in
  let year_elem := find_desc_child "pub-date" "year" article in
  let metadata :=
    match year_elem with
    | Some y => <["Year Published" := text y]> metadata
    | None => metadata
    end in
  metadata.

(** The text one paragraph contributes:
    [''.join(paragraph.itertext()).strip() + '\n\n'] *)
Definition paragraph_text (paragraph : Element) : string :=
  strip (join "" (itertext paragraph)) +:+ nl +:+ nl.

(** [extract_sections]: [text] is the accumulator the Python code extends
    with [+=], first by the title line, then in the loop over the direct
    paragraphs, then in the loop over the direct subsections. The last
    loop, [for subsection in parent.findall('./sec')], runs over the
    children and skips those that are not [sec], so that the recursive
    call is on a child of [parent]; [extract_sections_eq] below shows it
    is the loop over [findall_child "sec" parent]. *)
Fixpoint extract_sections (parent : Element) (level : nat) : string :=
  let text := "" in
  let title_elem := find_child "title" parent in
  let text :=
    match title_elem with
    | Some t =>
        let title_text := strip (join "" (itertext t)) in
        text +:+ (repeat_str " #" level +:+ " " +:+ title_text +:+ nl)
    | None => text
    end in
  let text :=
    fold_left (fun text paragraph => text +:+ paragraph_text paragraph)
              (findall_child "p" parent) text in
  let text :=
    fold_left (fun text child =>
                 if has_tag "sec" child
                 then text +:+ extract_sections child (S level)
                 else text)
              (children parent) text in
  text.

(** [extract_body] *)
Definition extract_body (article : Element) : string :=
  match find_desc "body" article with
  | None => ""
  | Some body_elem =>
      let text := "" in
      let text :=
        fold_left (fun text section => text +:+ extract_sections section 1)
                  (findall_child "sec" body_elem) text in
      let text :=
        fold_left (fun text paragraph => text +:+ paragraph_text paragraph)
                  (findall_child "p" body_elem) text in
      text
  end.

(** [enumerate(xs, start)] *)
Fixpoint enumerate {A : Type} (start : nat) (xs : list A) : list (nat * A) :=
  match xs with
  | [] => []
  | x :: xs' => (start, x) :: enumerate (S start) xs'
  end.

(** [extract_article_root] *)
Definition extract_article_root (root : Element) : option Element :=
  if bool_decide (tag root = "article") then Some root
  else
    match find_desc "article" root with
    | Some article => Some article
    | None =>
        match find_desc "pmc-articleset" root with
        | Some pmc_set => find_desc "article" pmc_set
        | None => None
        end
    end.

(** [extract_abstract] *)
Definition extract_abstract (article : Element) : string :=
  match find_desc "abstract" article with
  | Some abstract_elem =>
      let abstract_text := join " " (itertext abstract_elem) in
      "ABSTRACT:" +:+ nl +:+ abstract_text +:+ nl +:+ nl
  | None => ""
  end.

(** [extract_tables] *)
Definition extract_tables (article : Element) : string :=
  let tables := findall_desc "table-wrap" article in
  match tables with
  | [] => ""
  | _ =>
      fold_left
        (fun text '(idx, table) =>
           let text :=
             match find_desc "caption" table with
             | Some caption_elem =>
                 text +:+ ("Table " +:+ pretty idx +:+ ": " +:+
                           join " " (itertext caption_elem) +:+ nl)
             | None => text
             end in
           match find_desc "table" table with
           | Some table_elem => text +:+ join " " (itertext table_elem) +:+ nl +:+ nl
           | None => text
           end)
        (enumerate 1 tables) ("TABLES:" +:+ nl)
  end.

(** [extract_figures] *)
Definition extract_figures (article : Element) : string :=
  let figures := findall_desc "fig" article in
  match figures with
  | [] => ""
  | _ =>
      fold_left
        (fun text '(idx, figure) =>
           match find_desc "caption" figure with
           | Some caption_elem =>
               text +:+ ("Figure " +:+ pretty idx +:+ ": " +:+
                         join " " (itertext caption_elem) +:+ nl +:+ nl)
           | None => text
           end)
        (enumerate 1 figures) ("FIGURES:" +:+ nl)
  end.

(** [extract_references]; the path is ['.//ref-list//ref']. *)
Definition extract_references (article : Element) : string :=
  let refs := flat_map (findall_desc "ref") (findall_desc "ref-list" article) in
  match refs with
  | [] => ""
  | _ =>
      fold_left
        (fun text '(idx, ref) =>
           let ref_text := join " " (itertext ref) in
           text +:+ (pretty idx +:+ ". " +:+ ref_text +:+ nl))
        (enumerate 1 refs) ("REFERENCES:" +:+ nl)
  end.

(** A document: [{'metadata': ..., 'page_content': ...}] *)
Record Document : Type := mkDocument {
  metadata : gmap string (option string);
  page_content : string
}.

(** [parse_pmc_xml]. The argument [parsed] is what [ET.fromstring] makes
    of the payload: [None] when it raises, the root element otherwise. *)
Definition parse_pmc_xml (parsed : option Element) (pmcid : string)
  : option Document :=
  match parsed with
  | None => None
  | Some root =>
      match extract_article_root root with
      | None => None
      | Some article =>
          let page_content := "" in
          let page_content := page_content +:+ extract_abstract article in
          let page_content := page_content +:+ extract_body article in
          let page_content := page_content +:+ extract_tables article in
          let page_content := page_content +:+ extract_figures article in
          let page_content := page_content +:+ extract_references article in
          Some {| metadata := extract_metadata article pmcid;
                  page_content := page_content |}
      end
  end.

(** *** src/collectors/paper_collector.py, [get_pmc_full_text]

    The nested helper [extract_section] and the part of
    [get_pmc_full_text] that follows the lookup of the article element:
    it fills [result['full_text']], a dict from section name to text. *)
Definition extract_section (parent : Element) : option string * string :=
  let section_name :=
    match find_child "title" parent with
    | Some sect_title => Some (strip (join "" (itertext sect_title)))
    | None => None
    end in
  let text :=
    fold_left (fun text p => text +:+ paragraph_text p)
              (findall_child "p" parent) "" in
  (section_name, text).

Definition full_text_sections (body : Element) : gmap string string :=
  fold_left
    (fun full_text top_sec =>
       let '(section_name, section_text) := extract_section top_sec in
       let full_text :=
         if truthy section_name && nonempty section_text
         then <[str_opt section_name := section_text]> full_text
         else full_text in
       fold_left
         (fun full_text subsec =>
            let '(subsection_name, subsection_text) := extract_section subsec in
            if truthy subsection_name && nonempty subsection_text
            then <[str_opt section_name +:+ " - " +:+ str_opt subsection_name
                   := subsection_text]> full_text
            else full_text)
         (findall_child "sec" top_sec) full_text)
    (findall_child "sec" body) ∅.

Definition get_pmc_full_text (article_tag : Element) : gmap string string :=
  let body := find_desc "body" article_tag in
  let full_text : gmap string string :=
    match body with
    | Some body => full_text_sections body
    | None => ∅
    end in
  match body with
  | Some body =>
      if bool_decide (full_text = ∅) then
        let all_paragraphs :=
          fold_left (fun all_paragraphs p => all_paragraphs +:+ paragraph_text p)
                    (findall_desc "p" body) "" in
        if nonempty all_paragraphs
        then <["Main Text" := all_paragraphs]> full_text
        else full_text
      else full_text
  | None => full_text
  end.

End XmlParser.

(** ** Retrying calls: src/api/ncbi_client.py and paper_collector.py *)

Module Retry.
Import PyStr.

(** What one invocation of the wrapped function does. *)
Inductive outcome (A : Type) : Type :=
  | Returns (a : A)
  | Raises (e : string).
Arguments Returns {A} a.
Arguments Raises {A} e.

(** What the wrapper does that can be observed from outside. [Call k] is
    the [try] block of attempt [k]: the pacing wait and the invocation
    of the wrapped function. In [safe_call] both happen inside the rate
    limiter, in [safe_api_call] under [with semaphore]; the wait depends
    on the wall clock, is shorter than the minimum interval between two
    requests, and is not followed separately. [Log] is a printed or
    logged line, [Sleep] a [time.sleep] of an exception handler: the
    back-off before the next attempt. *)
Inductive event : Type :=
  | Call (attempt : nat)
  | Log (line : string)
  | Sleep (seconds : nat).

Global Instance event_eq_dec : EqDecision event.
Proof. solve_decision. Defined.

(** The wrapped function: its name ([func.__name__]) and the outcome of
    its k-th invocation. *)
Record wrapped (A : Type) : Type := mkWrapped {
  func_name : string;
  invoke : nat -> outcome A
}.
Arguments func_name {A} w.
Arguments invoke {A} w k.

(** [str(e)] for the exception the k-th invocation raises. *)
Definition exn_text {A : Type} (func : wrapped A) (k : nat) : string :=
  match invoke func k with
  | Raises e => e
  | Returns _ => ""
  end.

(** *** NCBIClient.safe_call *)

Record NCBIClient : Type := mkClient {
  retry_attempts : nat;
  retry_delay : nat
}.

(** [config/settings.py]: [RETRY_ATTEMPTS = 3], [RETRY_DELAY = 2] *)
Definition NCBIConfig_RETRY_ATTEMPTS : nat := 3.
Definition NCBIConfig_RETRY_DELAY : nat := 2.

(** [NCBIClient.__init__] *)
Definition NCBIClient_init : NCBIClient :=
  {| retry_attempts := NCBIConfig_RETRY_ATTEMPTS;
     retry_delay := NCBIConfig_RETRY_DELAY |}.

Definition retrying_line (self : NCBIClient) (name : string) (attempt : nat)
  (e : string) : string :=
  "Retrying " +:+ name +:+ " (attempt " +:+ pretty (attempt + 1) +:+ "/" +:+
  pretty (retry_attempts self) +:+ "): " +:+ e.

Definition failed_line (self : NCBIClient) (name : string) (e : string) : string :=
  "Failed " +:+ name +:+ " after " +:+ pretty (retry_attempts self) +:+
  " attempts: " +:+ e.

(** The body of [for attempt in range(self.retry_attempts)], run over
    the attempts that are left. The first component tells the two ways
    of returning apart: [Some a] is [return self.rate_limiter(...)] with
    the value [a] of the invocation, [None] is the [return None] of the
    last handler, or the end of the loop. A wrapped function that
    returns Python's [None] itself hands the caller the same value on
    both ways ([received]). *)
Fixpoint safe_call_loop {A : Type} (self : NCBIClient) (func : wrapped A)
  (attempts : list nat) : option A * list event :=
  match attempts with
  | [] => (None, [])
  | attempt :: rest =>
      match invoke func attempt with
      | Returns a => (Some a, [Call attempt])
      | Raises e =>
          if (attempt <? retry_attempts self - 1)%nat then
            let '(result, trace) := safe_call_loop self func rest in
            (result,
             Call attempt :: Log (retrying_line self (func_name func) attempt e)
               :: Sleep (retry_delay self) :: trace)
          else
            (None, [Call attempt; Log (failed_line self (func_name func) e)])
      end
  end.

Definition safe_call {A : Type} (self : NCBIClient) (func : wrapped A)
  : option A * list event :=
  safe_call_loop self func (seq 0 (retry_attempts self)).

(** The events of attempt [k] when it fails and is retried. *)
Definition retry_round {A : Type} (self : NCBIClient) (func : wrapped A)
  (k : nat) : list event :=
  [Call k; Log (retrying_line self (func_name func) k (exn_text func k));
   Sleep (retry_delay self)].

(** *** paper_collector.safe_api_call *)

Definition tries : nat := 3.

Definition rate_limited (e : string) : bool :=
  contains "429" e || contains "Too Many Requests" e.

Definition rate_limit_line (wait_time : nat) : string :=
  "Rate limit hit, waiting " +:+ pretty wait_time +:+ "s before retry...".

Definition retrying_api_line (name e : string) : string :=
  "Retrying " +:+ name +:+ " (Error: " +:+ e +:+ ")".

Definition failed_api_line (name e : string) : string :=
  "Failed " +:+ name +:+ " after " +:+ pretty tries +:+ " attempts (Error: " +:+
  e +:+ ")".

(** The body of [for attempt in range(tries)]; the result and the
    events are read as for [safe_call_loop]. *)
Fixpoint safe_api_call_loop {A : Type} (func : wrapped A) (attempts : list nat)
  : option A * list event :=
  match attempts with
  | [] => (None, [])
  | attempt :: rest =>
      match invoke func attempt with
      | Returns a => (Some a, [Call attempt])
      | Raises e =>
          if (attempt <? tries - 1)%nat then
            let '(result, trace) := safe_api_call_loop func rest in
            if rate_limited e then
              let wait_time := 5 * (attempt + 1) in
              (result,
               Call attempt :: Log (rate_limit_line wait_time)
                 :: Sleep wait_time :: trace)
            else
              (result,
               Call attempt :: Log (retrying_api_line (func_name func) e)
                 :: Sleep 2 :: trace)
          else
            (None, [Call attempt; Log (failed_api_line (func_name func) e)])
      end
  end.

Definition safe_api_call {A : Type} (func : wrapped A) : option A * list event :=
  safe_api_call_loop func (seq 0 tries).

(** What the caller receives from a wrapper around a function whose
    own value may be Python's [None]. *)
Definition received {A : Type} (result : option (option A)) : option A :=
  match result with
  | Some value => value
  | None => None
  end.

(** Observations on a trace. *)
Definition is_call (ev : event) : bool :=
  match ev with Call _ => true | _ => false end.

Definition is_log (ev : event) : bool :=
  match ev with Log _ => true | _ => false end.

End Retry.

(** ** src/collectors/pmc_downloader.py *)

Module Downloader.
Import PyStr ET XmlParser.

(** One entry of [records['PubmedArticle']] as the downloader reads it.
    [art_pmid] is [str(article['MedlineCitation']['PMID'])] and
    [art_ids] the [str] of every item of
    [article['PubmedData']['ArticleIdList']]; [None] means that the
    subscript raises. *)
Record Article : Type := mkArticle {
  art_pmid : option string;
  art_ids : option (list string)
}.

(** The remote service as seen through the retrying client:
    [fetch_and_parse joined_ids] is what
    [client.fetch_and_parse(db='pubmed', id=joined_ids)] gives back
    ([None], or the list under ['PubmedArticle']); [fetch_pmc id] is what
    [client.fetch(db='pmc', id=id, ...)] followed by [handle.read()]
    gives back: [None] when there is no handle or reading fails, else
    what [ET.fromstring] makes of the payload. *)
Record Remote : Type := mkRemote {
  fetch_and_parse : string -> option (list Article);
  fetch_pmc : string -> option (option Element)
}.

(** [pmcid.replace("PMC", "")] *)
Fixpoint remove_PMC (s : string) : string :=
  match s with
  | String "P" (String "M" (String "C" rest)) => remove_PMC rest
  | String a s' => String a (remove_PMC s')
  | EmptyString => EmptyString
  end.

(** [download_article] *)
Definition download_article (client : Remote) (pmcid : string) : option Document :=
  let pmcid_stripped := if startswith "PMC" pmcid then remove_PMC pmcid else pmcid in
  match fetch_pmc client pmcid_stripped with
  | None => None
  | Some xml_content => parse_pmc_xml xml_content pmcid_stripped
  end.

(** [document['metadata']['PMCID'] = pmcid] *)
Definition set_PMCID (pmcid : string) (document : Document) : Document :=
  {| metadata := <["PMCID" := Some pmcid]> (metadata document);
     page_content := page_content document |}.

(** The three collections a batch produces, in the order of the returned
    tuple: [(failed_pmids, multiple_pmcids_map, retrieved_documents)]. *)
Record BatchResult : Type := mkBatch {
  failed_pmids : list string;
  multiple_pmcids_map : gmap string (list string);
  retrieved_documents : gmap string Document
}.

(** The body of [for article in articles]. An exception raised before
    [pmid] is bound is only printed; one raised after it appends [pmid]
    to the failures when [pmid] is truthy. *)
Definition process_article (client : Remote) (st : BatchResult) (article : Article)
  : BatchResult :=
  match art_pmid article with
  | None => st
  | Some pmid =>
      match art_ids article with
      | None =>
          if nonempty pmid
          then {| failed_pmids := failed_pmids st ++ [pmid];
                  multiple_pmcids_map := multiple_pmcids_map st;
                  retrieved_documents := retrieved_documents st |}
          else st
      | Some article_ids =>
          let pmcids := List.filter (startswith "PMC") article_ids in
          match pmcids with
          | [] =>
              {| failed_pmids := failed_pmids st ++ [pmid];
                 multiple_pmcids_map := multiple_pmcids_map st;
                 retrieved_documents := retrieved_documents st |}
          | first :: _ =>
              let multiple :=
                if (1 <? length pmcids)%nat
                then <[pmid := pmcids]> (multiple_pmcids_map st)
                else multiple_pmcids_map st in
              match download_article client first with
              | Some document =>
                  {| failed_pmids := failed_pmids st;
                     multiple_pmcids_map := multiple;
                     retrieved_documents :=
                       <[pmid := set_PMCID first document]> (retrieved_documents st) |}
              | None =>
                  {| failed_pmids := failed_pmids st ++ [pmid];
                     multiple_pmcids_map := multiple;
                     retrieved_documents := retrieved_documents st |}
              end
          end
      end
  end.

(** The identifiers the records of a response carry. *)
Definition pmids_of (articles : list Article) : list string :=
  omap art_pmid articles.

(** The candidate secondary identifiers of a record:
    [[str(i) for i in article_ids if str(i).startswith('PMC')]] *)
Definition pmcids_of (article : Article) : list string :=
  match art_ids article with
  | Some article_ids => List.filter (startswith "PMC") article_ids
  | None => []
  end.

Definition empty_batch : BatchResult :=
  {| failed_pmids := []; multiple_pmcids_map := ∅; retrieved_documents := ∅ |}.

(** [fetch_pmcids_from_pmids] *)
Definition fetch_pmcids_from_pmids (client : Remote) (pmid_batch : list string)
  : BatchResult :=
  let joined_ids := join "," pmid_batch in
  match fetch_and_parse client joined_ids with
  | None =>
      {| failed_pmids := pmid_batch;
         multiple_pmcids_map := ∅;
         retrieved_documents := ∅ |}
  | Some articles => fold_left (process_article client) articles empty_batch
  end.

(** How a Python call ends. *)
Inductive py_result (A : Type) : Type :=
  | Returned (a : A)
  | RaisedException (e : string)
  | RaisedKeyboardInterrupt.
Arguments Returned {A} a.
Arguments RaisedException {A} e.
Arguments RaisedKeyboardInterrupt {A}.

(** [range(0, stop, step)] for [stop >= 0]; a zero step raises. *)
Definition range_step (stop step : Z) : option (list Z) :=
  if decide (step = 0)%Z then None
  else if decide (step < 0)%Z then Some []
  else Some (map (fun q => (Z.of_nat q * step)%Z)
                 (seq 0 (Z.to_nat ((stop + step - 1) / step)))).

(** [xs[i:j]] for [0 <= i] *)
Definition slice {A : Type} (xs : list A) (i j : Z) : list A :=
  take (Z.to_nat j - Z.to_nat i) (drop (Z.to_nat i) xs).

(** [[id_list[i:i + batch_size] for i in range(0, len(id_list), batch_size)]] *)
Definition make_batches (id_list : list string) (batch_size : Z)
  : option (list (list string)) :=
  match range_step (Z.of_nat (length id_list)) batch_size with
  | None => None
  | Some starts => Some (map (fun i => slice id_list i (i + batch_size)) starts)
  end.

Section parallel.
(** The state the progress callback acts on (for the script: the
    output directory and the terminal). *)
Context {Env : Type}.

(** What [future.result()] gives for a batch: the batch's tuple, or
    [None] when the worker raised. *)
Variable worker : list string -> option BatchResult.

(** The progress callback; [None] when it raises. *)
Variable progress_callback :
  option (nat -> nat -> gmap string Document -> list string ->
          gmap string (list string) -> Env -> option Env).

(** The body of the loop over [enumerate(as_completed(futures))]:
    the batch's collections are merged into the running totals, then
    the callback runs; an exception from either is caught and the
    loop goes on (the line printed for it is not part of the state
    followed here). [totals] holds the running [failed_pmids],
    [multiple_pmcids] and [retrieved_documents]. *)
Definition merge_batch (total : nat) (st : BatchResult * Env) (i : nat)
  (batch : list string) : BatchResult * Env :=
  let '(totals, env) := st in
  match worker batch with
  | None => (totals, env)
  | Some res =>
      let failed := failed_pmids totals ++ failed_pmids res in
      let multiple := multiple_pmcids_map res ∪ multiple_pmcids_map totals in
      let documents := retrieved_documents res ∪ retrieved_documents totals in
      let totals' :=
        {| failed_pmids := failed;
           multiple_pmcids_map := multiple;
           retrieved_documents := documents |} in
      match progress_callback with
      | None => (totals', env)
      | Some callback =>
          match callback i total documents failed multiple env with
          | Some env' => (totals', env')
          | None => (totals', env)
          end
      end
  end.

Fixpoint drain (total : nat) (i : nat) (completed : list (list string))
  (st : BatchResult * Env) : BatchResult * Env :=
  match completed with
  | [] => st
  | batch :: rest => drain total (S i) rest (merge_batch total st i batch)
  end.

(** [download_batch_parallel]. [order] lists the batches' positions in
    the order in which their futures complete; [interrupt] is [Some n]
    when the operator's interrupt reaches the coordinating thread
    after [n] completed futures have been handled. The result is the
    returned tuple [(retrieved_documents, failed_pmids,
    multiple_pmcids)] (here as a [BatchResult]) or the exception that
    leaves the function, next to the callback's state. *)
Definition download_batch_parallel (id_list : list string)
  (batch_size num_threads : Z) (order : list nat) (interrupt : option nat)
  (env : Env) : py_result BatchResult * Env :=
  match make_batches id_list batch_size with
  | None => (RaisedException "range() arg 3 must not be zero", env)
  | Some batches =>
      if decide (num_threads <= 0)%Z
      then (RaisedException "max_workers must be greater than 0", env)
      else
        let completed := omap (fun k => batches !! k) order in
        let total := length batches in
        match interrupt with
        | Some n =>
            let '(_, env') := drain total 0 (take n completed) (empty_batch, env) in
            (RaisedKeyboardInterrupt, env')
        | None =>
            let '(totals, env') := drain total 0 completed (empty_batch, env) in
            (Returned totals, env')
        end
  end.
End parallel.

End Downloader.

(** ** src/collectors/checkpoint_manager.py and scripts/download_full_texts.py *)

Module Checkpoint.
Import PyStr XmlParser Downloader.

(** The objects that get pickled. *)
Inductive PyObj : Type :=
  | ObjDocuments (documents : gmap string Document)
  | ObjList (failed : list string)
  | ObjMultiple (multiple : gmap string (list string)).

(** The output directory [save_dir] (file name to content) and the
    lines printed so far. *)
Record Disk : Type := mkDisk {
  files : gmap string (list Byte.byte);
  stdout : list string
}.

(** [with open(filepath, 'wb') as f: f.write(data)] *)
Definition write_file (filename : string) (data : list Byte.byte) (d : Disk) : Disk :=
  {| files := <[filename := data]> (files d); stdout := stdout d |}.

Definition print (line : string) (d : Disk) : Disk :=
  {| files := files d; stdout := stdout d ++ [line] |}.

(** [f'{name}_checkpoint_{batch_index}.pkl'] *)
Definition checkpoint_filename (name : string) (batch_index : Z) : string :=
  name +:+ "_checkpoint_" +:+ pretty batch_index +:+ ".pkl".

(** Command-line arguments the download phase reads. *)
Record Args : Type := mkArgs {
  batch_size : Z;
  threads : Z;
  checkpoint_interval : Z
}.

Section manager.
(** [pickle.dumps]: the bytes [pickle.dump(data, f)] writes. *)
Variable pickle_dumps : PyObj -> list Byte.byte.

(** [CheckpointManager.save_checkpoint] *)
Definition save_checkpoint (batch_index num_batches : Z)
  (documents : gmap string Document) (failed : list string)
  (multiple : gmap string (list string)) (d : Disk) : Disk :=
  let checkpoint_files :=
    [("documents", ObjDocuments documents);
     ("failed_pmids", ObjList failed);
     ("multiple_pmcids", ObjMultiple multiple)] in
  let d :=
    fold_left
      (fun d '(name, data) =>
         write_file (checkpoint_filename name batch_index) (pickle_dumps data) d)
      checkpoint_files d in
  print ("[Checkpoint] Saved at batch " +:+ pretty (batch_index + 1)%Z +:+ "/" +:+
         pretty num_batches +:+ " (" +:+ pretty (size documents) +:+
         " papers retrieved)") d.

(** [CheckpointManager.save_final_results] *)
Definition save_final_results (documents : gmap string Document)
  (failed : list string) (multiple : gmap string (list string)) (d : Disk)
  : Disk :=
  let d := print (nl +:+ "Saving final results...") d in
  let final_files :=
    [("documents_final.pkl", ObjDocuments documents);
     ("failed_pmids_final.pkl", ObjList failed);
     ("multiple_pmcids_final.pkl", ObjMultiple multiple)] in
  let d :=
    fold_left
      (fun d '(filename, data) => write_file filename (pickle_dumps data) d)
      final_files d in
  print "Final results saved successfully." d.

(** The closure [progress_callback] of [main]. The test is
    [batch_idx == 0 or (batch_idx + 1) % args.checkpoint_interval == 0
     or (batch_idx + 1) == num_batches], evaluated left to right; the
    modulo raises when the interval is zero. *)
Definition progress_callback (args : Args) (batch_idx num_batches : nat)
  (documents : gmap string Document) (failed : list string)
  (multiple : gmap string (list string)) (d : Disk) : option Disk :=
  let save :=
    save_checkpoint (Z.of_nat batch_idx) (Z.of_nat num_batches)
                    documents failed multiple d in
  if bool_decide (batch_idx = 0%nat) then Some save
  else if bool_decide (checkpoint_interval args = 0%Z) then None
  else if bool_decide (((Z.of_nat batch_idx + 1) `mod` checkpoint_interval args)%Z = 0%Z)
  then Some save
  else if bool_decide ((batch_idx + 1)%nat = num_batches) then Some save
  else Some d.

(** [main], from the point where the search has returned [id_list].
    [client] is the remote service behind the downloader, [order] and
    [interrupt] are as in [download_batch_parallel], [clock_line] is
    the summary line that reports the elapsed wall-clock time. The
    result is the value [main] returns, which [sys.exit] turns into
    the exit code, next to the disk. *)
Definition main (client : Remote) (args : Args) (id_list : list string)
  (order : list nat) (interrupt : option nat) (clock_line : string)
  (d : Disk) : Z * Disk :=
  match id_list with
  | [] => (0%Z, print "No papers found matching the query." d)
  | _ =>
      let d :=
        print (nl +:+ "Starting download with " +:+ pretty (threads args) +:+
               " threads, batch size " +:+ pretty (batch_size args) +:+ "...") d in
      match download_batch_parallel
              (fun batch => Some (fetch_pmcids_from_pmids client batch))
              (Some (progress_callback args))
              id_list (batch_size args) (threads args) order interrupt d with
      | (RaisedKeyboardInterrupt, d) =>
          (1%Z, print (nl +:+ "Process interrupted by user. Saving progress...") d)
      | (RaisedException e, d) =>
          (1%Z, print (nl +:+ "Error during download: " +:+ e) d)
      | (Returned totals, d) =>
          let documents := retrieved_documents totals in
          let failed := failed_pmids totals in
          let multiple := multiple_pmcids_map totals in
          let d := print (nl +:+ repeat_str "=" 80) d in
          let d := print "Download Summary" d in
          let d := print (repeat_str "=" 80) d in
          let d := print clock_line d in
          let d := print ("Total papers successfully retrieved: " +:+
                          pretty (size documents)) d in
          let d := print ("Total papers that failed: " +:+
                          pretty (length failed)) d in
          let d := print ("Papers with multiple PMC IDs: " +:+
                          pretty (size multiple)) d in
          let d := print (repeat_str "=" 80) d in
          (0%Z, save_final_results documents failed multiple d)
      end
  end.
End manager.

(** The file names the final-results save path writes. *)
Definition final_filenames : list string :=
  ["documents_final.pkl"; "failed_pmids_final.pkl"; "multiple_pmcids_final.pkl"].

(** The file names [save_checkpoint] uses for index [batch_index]. *)
Definition checkpoint_filenames (batch_index : Z) : list string :=
  map (fun name => checkpoint_filename name batch_index)
      ["documents"; "failed_pmids"; "multiple_pmcids"].

End Checkpoint.

(** ** More Python: [int(s)], [str.split], [pathlib] names, slices *)

Module PyMore.
Import PyStr.

(** [s[n:]] for a text whose first [n] code points are ASCII characters,
    as it is after a test for an ASCII prefix of that length. *)
Fixpoint str_drop (n : nat) (s : string) : string :=
  match n, s with
  | O, _ => s
  | S n', String _ s' => str_drop n' s'
  | S _, EmptyString => EmptyString
  end.

(** [s.replace(a, b)] for ASCII characters [a] and [b] *)
Fixpoint replace_char (a b : ascii) (s : string) : string :=
  match s with
  | EmptyString => EmptyString
  | String c s' => String (if decide (c = a) then b else c) (replace_char a b s')
  end.

(** [s.endswith(suffix)] *)
Fixpoint endswith (suffix s : string) : bool :=
  bool_decide (s = suffix) ||
  match s with
  | EmptyString => false
  | String _ s' => endswith suffix s'
  end.

(** [s.split(sep)[-1]] for an ASCII character [sep]: what follows the
    last separator, or all of [s] when there is none. *)
Fixpoint last_segment (sep : ascii) (s : string) : string :=
  match s with
  | EmptyString => EmptyString
  | String _ s' => if (count_char sep s =? 0)%nat then s else last_segment sep s'
  end.

(** [name.rpartition('.')] without the dot, [None] when [name] has no dot. *)
Fixpoint split_last_dot (name : string) : option (string * string) :=
  match name with
  | EmptyString => None
  | String a name' =>
      match split_last_dot name' with
      | Some (p, q) => Some (String a p, q)
      | None => if decide (a = "."%char) then Some (EmptyString, name') else None
      end
  end.

(** [PurePath.stem]: with [i = name.rfind('.')], the name up to [i] when
    [0 < i < len(name) - 1], the whole name otherwise. *)
Definition stem (name : string) : string :=
  match split_last_dot name with
  | Some (p, q) => if nonempty p && nonempty q then p else name
  | None => name
  end.

(** A byte below 128 that is no white space. *)
Definition solid (a : ascii) : bool :=
  negb (isspace1 a) && (nat_of_ascii a <? 128)%nat.

Definition is_digit (a : ascii) : bool :=
  let n := nat_of_ascii a in (48 <=? n)%nat && (n <=? 57)%nat.

Definition digit_value (a : ascii) : Z := (Z.of_nat (nat_of_ascii a) - 48)%Z.

(** The digits of a decimal literal after its first digit; a single
    underscore may sit between two digits. *)
Fixpoint parse_digits (acc : Z) (s : string) : option Z :=
  match s with
  | EmptyString => Some acc
  | String a s' =>
      if is_digit a then parse_digits (10 * acc + digit_value a)%Z s'
      else if decide (a = "_"%char) then
        match s' with
        | String b s'' =>
            if is_digit b then parse_digits (10 * acc + digit_value b)%Z s'' else None
        | EmptyString => None
        end
      else None
  end.

Definition parse_unsigned (s : string) : option Z :=
  match s with
  | String a s' => if is_digit a then parse_digits (digit_value a) s' else None
  | EmptyString => None
  end.

(** [int(s)]: surrounding white space is dropped, one sign is allowed,
    then come decimal digits, written with the ASCII digits. [None]
    stands for [ValueError]. Two things [int] does are not modelled:
    it also reads the decimal digits of other scripts, and it refuses
    literals beyond the interpreter's limit on the number of digits.
    Neither occurs in a name [save_checkpoint] writes. *)
Definition py_int (s : string) : option Z :=
  match strip s with
  | String "-" rest => Z.opp <$> parse_unsigned rest
  | String "+" rest => parse_unsigned rest
  | t => parse_unsigned t
  end.

(** [fnmatch] of a name against a pattern [prefix*suffix] without other
    wildcards. *)
Definition glob_match (prefix suffix name : string) : bool :=
  startswith prefix name && endswith suffix (str_drop (String.length prefix) name).

(** [sum(xs)] *)
Definition sum_nat (xs : list nat) : nat := fold_right Nat.add 0 xs.

(** All characters of a text satisfy a test. *)
Definition all_chars (p : ascii -> bool) (s : string) : Prop :=
  forall a, List.In a (list_ascii_of_string s) -> p a = true.

(** The number a string of decimal digits denotes. *)
Fixpoint digits_value (s : string) : Z :=
  match s with
  | EmptyString => 0
  | String a s' => (digit_value a * 10 ^ Z.of_nat (String.length s') + digits_value s')%Z
  end.

End PyMore.

(** ** checkpoint_manager.py: reading checkpoints back *)

Module CheckpointLoad.
Import PyStr PyMore XmlParser Downloader Checkpoint.

Section loading.
(** [pickle.loads]: the object a file's bytes unpickle to, [None] when
    unpickling raises. *)
Variable pickle_loads : list Byte.byte -> option PyObj.

(** [if file.exists(): with open(file, 'rb') as f: x = pickle.load(f)]:
    the variable keeps its initial value when the file does not exist;
    [None] when [pickle.load] raises. *)
Definition load_if_exists (d : Disk) (filename : string) (initial : PyObj)
  : option PyObj :=
  match files d !! filename with
  | Some data => pickle_loads data
  | None => Some initial
  end.

(** [CheckpointManager.load_checkpoint]; [None] when an exception
    leaves the method. *)
Definition load_checkpoint (batch_index : Z) (d : Disk)
  : option (PyObj * PyObj * PyObj) :=
  let documents_file := checkpoint_filename "documents" batch_index in
  let failed_file := checkpoint_filename "failed_pmids" batch_index in
  let multiple_file := checkpoint_filename "multiple_pmcids" batch_index in
  let documents := ObjDocuments ∅ in
  let failed := ObjList [] in
  let multiple := ObjMultiple ∅ in
  match load_if_exists d documents_file documents with
  | None => None
  | Some documents =>
      match load_if_exists d failed_file failed with
      | None => None
      | Some failed =>
          match load_if_exists d multiple_file multiple with
          | None => None
          | Some multiple => Some (documents, failed, multiple)
          end
      end
  end.
End loading.

(** [self.save_dir.glob('documents_checkpoint_*.pkl')], in the order in
    which the directory lists its entries. *)
Definition glob_documents_checkpoints (d : Disk) : list string :=
  List.filter (glob_match "documents_checkpoint_" ".pkl")
              (map fst (map_to_list (files d))).

(** [CheckpointManager.list_checkpoints]: the last [_]-separated piece
    of each file's stem is read as an integer, names for which that
    raises [ValueError] are skipped, and the indices are sorted. *)
Definition list_checkpoints (d : Disk) : list Z :=
  let indices :=
    omap (fun filepath => py_int (last_segment "_" (stem filepath)))
         (glob_documents_checkpoints d) in
  merge_sort Z.le indices.

End CheckpointLoad.

(** ** paper_collector.py: identifiers and file names *)

Module Collector.
Import PyStr PyMore.

(** [normalize_doi] *)
Definition normalize_doi (doi : string) : string :=
  if startswith "https://doi.org/" doi then str_drop 16 doi
  else if startswith "http://doi.org/" doi then str_drop 15 doi
  else if startswith "doi.org/" doi then str_drop 8 doi
  else doi.

Definition PAPERS_DIR : string := "./data/paper_data/papers".

(** [os.path.join(a, b)] on POSIX for a directory [a] that does not end
    in a slash: an absolute [b] replaces [a]. *)
Definition os_path_join (a b : string) : string :=
  if startswith "/" b then b else a +:+ "/" +:+ b.

(** The file name [save_paper_data] derives from a DOI:
    [paper_data['doi'].replace('/', '_').replace('\\', '_')] *)
Definition safe_filename (doi : string) : string :=
  replace_char "\" "_" (replace_char "/" "_" doi).

(** The path [save_paper_data] writes to. *)
Definition paper_file_path (doi : string) : string :=
  os_path_join PAPERS_DIR (safe_filename doi +:+ ".json").

End Collector.

(** ** Observations on retry traces *)

Module RetryObs.
Import Retry PyMore.

(** The seconds of back-off: the [time.sleep] calls of the exception
    handlers. The pacing wait before an invocation belongs to its
    [Call] and is not counted. *)
Definition sleeps (trace : list event) : list nat :=
  omap (fun ev => match ev with Sleep s => Some s | _ => None end) trace.

Definition total_sleep (trace : list event) : nat := sum_nat (sleeps trace).

Definition calls (trace : list event) : nat := length (List.filter is_call trace).

(** The final failure line of [safe_call] was printed. *)
Definition gave_up (self : NCBIClient) {A : Type} (func : wrapped A)
  (trace : list event) : Prop :=
  exists e, Log (failed_line self (func_name func) e) ∈ trace.

(** The final failure line of [safe_api_call] was logged. *)
Definition api_gave_up {A : Type} (func : wrapped A) (trace : list event) : Prop :=
  exists e, Log (failed_api_line (func_name func) e) ∈ trace.

(** The events of attempt [k] of [safe_api_call] when it fails and is
    retried. *)
Definition api_retry_round {A : Type} (func : wrapped A) (k : nat) : list event :=
  if rate_limited (exn_text func k)
  then [Call k; Log (rate_limit_line (5 * (k + 1))); Sleep (5 * (k + 1))]
  else [Call k; Log (retrying_api_line (func_name func) (exn_text func k)); Sleep 2].

End RetryObs.

(** ** Concrete inputs used in examples *)

Module Fixtures.
Import PyStr ET XmlParser Downloader Checkpoint.

Definition leaf (t : string) (txt : string) : Element :=
  Elem t ∅ (Some txt) None [].

(** [<article/>] *)
Definition bare_article : Element := Elem "article" ∅ None None [].

(** [<article><body><boxed-text><p>x</p></boxed-text></body></article>] *)
Definition boxed_article : Element :=
  Elem "article" ∅ None None
    [Elem "body" ∅ None None
       [Elem "boxed-text" ∅ None None [leaf "p" "x"]]].

(** [<article><body><p>a</p><boxed-text><p>x</p></boxed-text></body></article>] *)
Definition flat_article : Element :=
  Elem "article" ∅ None None
    [Elem "body" ∅ None None
       [leaf "p" "a"; Elem "boxed-text" ∅ None None [leaf "p" "x"]]].

(** [<sec><title>Intro</title><p> Hello </p>
         <sec><title>Sub</title><p>World</p></sec><p>Bye</p></sec>] *)
Definition nested_section : Element :=
  Elem "sec" ∅ None None
    [leaf "title" "Intro"; leaf "p" " Hello ";
     Elem "sec" ∅ None None [leaf "title" "Sub"; leaf "p" "World"];
     leaf "p" "Bye"].

(** An article with every metadata node present. *)
Definition full_article : Element :=
  Elem "article" {[ "article-type" := "research-article" ]} None None
    [Elem "front" ∅ None None
       [leaf "journal-title" "J";
        Elem "article-id" {[ "pub-id-type" := "pmid" ]} (Some "42") None [];
        Elem "article-id" {[ "pub-id-type" := "doi" ]} (Some "10.1/x") None [];
        Elem "article-title" ∅ (Some "A ") None [leaf "i" "b"];
        Elem "pub-date" ∅ None None [leaf "year" "2020"]];
     Elem "body" ∅ None None [nested_section]].

(** A remote call that always times out. *)
Definition always_timeout : Retry.wrapped nat :=
  {| Retry.func_name := "efetch";
     Retry.invoke := fun _ => Retry.Raises "timed out" |}.

(** A remote call that is rejected twice with HTTP 429 and then answers. *)
Definition twice_429 : Retry.wrapped nat :=
  {| Retry.func_name := "get";
     Retry.invoke := fun k =>
       match k with
       | 0 => Retry.Raises "HTTP Error 429: Too Many Requests"
       | 1 => Retry.Raises "429 Client Error"
       | _ => Retry.Returns 200
       end |}.

(** The service answers a request for PMIDs 1 and 2 with the record of
    PMID 1 only; PMC article 10 is [full_article]. *)
Definition one_of_two : Remote :=
  {| fetch_and_parse := fun _ =>
       Some [{| art_pmid := Some "1"; art_ids := Some ["10.1/x"; "PMC10"] |}];
     fetch_pmc := fun id =>
       if bool_decide (id = "10") then Some (Some full_article) else None |}.

(** The service answers with two records for PMID 1, the first without
    a PMC identifier. *)
Definition twin_records : Remote :=
  {| fetch_and_parse := fun _ =>
       Some [{| art_pmid := Some "1"; art_ids := Some [] |};
             {| art_pmid := Some "1"; art_ids := Some ["PMC10"] |}];
     fetch_pmc := fun id =>
       if bool_decide (id = "10") then Some (Some full_article) else None |}.

(** PMID 123 resolves to PMC1 and PMC2; PMC article 1 is [full_article]
    when the PMC database answers, and nothing is delivered otherwise. *)
Definition ambiguous (pmc_answers : bool) : Remote :=
  {| fetch_and_parse := fun _ =>
       Some [{| art_pmid := Some "123"; art_ids := Some ["PMC1"; "PMC2"] |}];
     fetch_pmc := fun id =>
       if pmc_answers && bool_decide (id = "1")
       then Some (Some full_article) else None |}.

(** PMID 1 maps to a parseable article, PMID 2 to no PMC identifier. *)
Definition end_to_end : Remote :=
  {| fetch_and_parse := fun joined_ids =>
       Some (List.filter
               (fun a => contains (default "" (art_pmid a)) joined_ids)
               [{| art_pmid := Some "1"; art_ids := Some ["PMC10"] |};
                {| art_pmid := Some "2"; art_ids := Some ["10.1/y"] |}]);
     fetch_pmc := fun id =>
       if bool_decide (id = "10") then Some (Some full_article) else None |}.

(** The combined call fails. *)
Definition offline : Remote :=
  {| fetch_and_parse := fun _ => None; fetch_pmc := fun _ => None |}.

(** A stand-in for [pickle.dumps] that only tells the three kinds of
    object apart and records how many entries they hold. *)
Definition toy_pickle (obj : PyObj) : list Byte.byte :=
  match obj with
  | ObjDocuments documents => Byte.x00 :: repeat Byte.x2a (size documents)
  | ObjList failed => Byte.x01 :: repeat Byte.x2a (length failed)
  | ObjMultiple multiple => Byte.x02 :: repeat Byte.x2a (size multiple)
  end.

Definition empty_disk : Disk := {| files := ∅; stdout := [] |}.

(** [--batch-size 1 --threads 2 --checkpoint-interval 10] *)
Definition small_run : Args :=
  {| batch_size := 1; threads := 2; checkpoint_interval := 10 |}.

(** [<pmc-articleset>] around [full_article]. *)
Definition article_set : Element :=
  Elem "pmc-articleset" ∅ None None [full_article].

(** [<ERROR>no such id</ERROR>]: a payload that parses but holds no article. *)
Definition error_payload : Element := leaf "ERROR" "no such id".

(** An article with an abstract, two sections, a top-level paragraph
    that comes first in the document, a table, a figure and two
    references. *)
Definition rich_article : Element :=
  Elem "article" ∅ None None
    [Elem "front" ∅ None None [leaf "abstract" "Short."];
     Elem "body" ∅ None None
       [leaf "p" "Lead.";
        Elem "sec" ∅ None None [leaf "title" "Methods"; leaf "p" "We did."];
        Elem "sec" ∅ None None
          [leaf "title" "Results";
           Elem "sec" ∅ None None [leaf "title" "Details"; leaf "p" "Fine."]];
        Elem "table-wrap" ∅ None None
          [leaf "caption" "Counts"; Elem "table" ∅ None None [leaf "td" "7"]];
        Elem "fig" ∅ None None [leaf "caption" "Plot"]];
     Elem "back" ∅ None None
       [Elem "ref-list" ∅ None None
          [leaf "ref" "Alpha 2001"; leaf "ref" "Beta 2002"]]].

#[global] Instance Document_eq_dec : EqDecision Document.
Proof. solve_decision. Defined.

#[global] Instance PyObj_eq_dec : EqDecision PyObj.
Proof. solve_decision. Defined.

#[global] Instance Document_countable : Countable Document :=
  inj_countable' (fun doc => (metadata doc, page_content doc))
                 (fun p => mkDocument p.1 p.2)
                 (fun doc => match doc with mkDocument _ _ => eq_refl end).

#[global] Instance PyObj_countable : Countable PyObj :=
  inj_countable'
    (fun obj => match obj with
                | ObjDocuments documents => inl documents
                | ObjList failed => inr (inl failed)
                | ObjMultiple multiple => inr (inr multiple)
                end)
    (fun c => match c with
              | inl documents => ObjDocuments documents
              | inr (inl failed) => ObjList failed
              | inr (inr multiple) => ObjMultiple multiple
              end)
    (fun obj => match obj with
                | ObjDocuments _ | ObjList _ | ObjMultiple _ => eq_refl
                end).

(** The binary digits of a positive number, lowest first, one per byte. *)
Fixpoint pos_bytes (p : positive) : list Byte.byte :=
  match p with
  | xH => []
  | xO p' => Byte.x00 :: pos_bytes p'
  | xI p' => Byte.x01 :: pos_bytes p'
  end.

Fixpoint bytes_pos (data : list Byte.byte) : option positive :=
  match data with
  | [] => Some xH
  | Byte.x00 :: data' => xO <$> bytes_pos data'
  | Byte.x01 :: data' => xI <$> bytes_pos data'
  | _ :: _ => None
  end.

(** A stand-in for [pickle.dumps] and [pickle.loads] that loses nothing:
    an object is written as the digits of its code. *)
Definition code_pickle (obj : PyObj) : list Byte.byte := pos_bytes (encode obj).

Definition code_unpickle (data : list Byte.byte) : option PyObj :=
  bytes_pos data ≫= decode.

(** [pickle.loads] on a directory whose files are all damaged. *)
Definition broken_unpickle (data : list Byte.byte) : option PyObj := None.

(** [--batch-size 1 --threads 2 --checkpoint-interval 0] *)
Definition no_interval : Args :=
  {| batch_size := 1; threads := 2; checkpoint_interval := 0 |}.

(** [--batch-size 0 --threads 2 --checkpoint-interval 10] *)
Definition zero_batch : Args :=
  {| batch_size := 0; threads := 2; checkpoint_interval := 10 |}.

(** [--batch-size -1 --threads 2 --checkpoint-interval 10] *)
Definition negative_batch : Args :=
  {| batch_size := -1; threads := 2; checkpoint_interval := 10 |}.

(** A remote call whose answer is Python's [None]. *)
Definition answers_none : Retry.wrapped (option nat) :=
  {| Retry.func_name := "efetch";
     Retry.invoke := fun _ => Retry.Returns None |}.

(** The no-break space U+00A0, the thin space U+2009, the next-line
    control U+0085 and the letter U+00E0, whose second byte is that of
    the no-break space. *)
Definition nbsp : string := String "194" (String "160" "").
Definition thin_space : string := String "226" (String "128" (String "137" "")).
Definition next_line : string := String "194" (String "133" "").
Definition a_grave : string := String "195" (String "160" "").

(** [<sec><title>&#160;T&#160;</title><p>&#160;Hello&#8201;</p></sec>] *)
Definition padded_section : Element :=
  Elem "sec" ∅ None None
    [leaf "title" (nbsp +:+ "T" +:+ nbsp);
     leaf "p" (nbsp +:+ "Hello" +:+ thin_space)].

(** [<article><body><p>&#160;x</p></body></article>] *)
Definition padded_article : Element :=
  Elem "article" ∅ None None
    [Elem "body" ∅ None None [leaf "p" (nbsp +:+ "x")]].

End Fixtures.

(** * Properties *)

(** ** Strings *)

Module StrFacts.
Import PyStr Fixtures.

Lemma append_cons (a : ascii) (s t : string) :
  String a s +:+ t = String a (s +:+ t).
Proof. reflexivity. Qed.

Lemma append_nil_l (s : string) : "" +:+ s = s.
Proof. reflexivity. Qed.

Lemma append_nil_r (s : string) : s +:+ "" = s.
Proof. induction s as [|a s IH]; [done|]. by rewrite append_cons, IH. Qed.

Lemma append_assoc (s t u : string) : (s +:+ t) +:+ u = s +:+ (t +:+ u).
Proof. induction s as [|a s IH]; [done|]. by rewrite !append_cons, IH. Qed.

(** A loop [for x in xs: text += f(x)] appends the pieces in order. *)
Lemma fold_left_append {A : Type} (f : A -> string) (xs : list A) (text : string) :
  fold_left (fun text x => text +:+ f x) xs text = text +:+ concat_str (map f xs).
Proof.
  revert text. induction xs as [|x xs IH]; intros text; simpl.
  - by rewrite append_nil_r.
  - by rewrite IH, append_assoc.
Qed.

(** The same loop with a guard [if p(x)] is the loop over the filtered list. *)
Lemma fold_left_guard {A B : Type} (p : A -> bool) (g : B -> A -> B)
  (xs : list A) (b : B) :
  fold_left (fun b x => if p x then g b x else b) xs b =
  fold_left g (List.filter p xs) b.
Proof.
  revert b. induction xs as [|x xs IH]; intros b; simpl; [done|].
  destruct (p x); simpl; apply IH.
Qed.

Lemma count_char_append (c : ascii) (s t : string) :
  count_char c (s +:+ t) = count_char c s + count_char c t.
Proof.
  induction s as [|a s IH]; [done|].
  rewrite append_cons. simpl. rewrite IH. lia.
Qed.

(** [strip] removes white space of every encoded length from both ends
    and nothing from inside. *)
Example strip_unicode_space :
  strip (nbsp +:+ " " +:+ thin_space +:+ "a b" +:+ next_line +:+ nl) = "a b".
Proof. reflexivity. Qed.

(** A letter whose encoding ends in the byte that ends the no-break
    space is kept, at either end. *)
Example strip_keeps_letters :
  strip (a_grave +:+ " ") = a_grave /\ strip (" x" +:+ a_grave) = "x" +:+ a_grave.
Proof. split; reflexivity. Qed.

End StrFacts.

(** ** The XML article parser *)

Module XmlParserSpec.
Import PyStr ET XmlParser StrFacts Fixtures.

(** The loop over the subsections in [extract_sections] is the loop over
    [parent.findall('./sec')], as in the source. *)
Lemma extract_sections_eq (parent : Element) (level : nat) :
  extract_sections parent level =
  let text := "" in
  let text :=
    match find_child "title" parent with
    | Some t =>
        text +:+ (repeat_str " #" level +:+ " " +:+ strip (join "" (itertext t)) +:+ nl)
    | None => text
    end in
  let text :=
    fold_left (fun text paragraph => text +:+ paragraph_text paragraph)
              (findall_child "p" parent) text in
  let text :=
    fold_left (fun text subsection => text +:+ extract_sections subsection (S level))
              (findall_child "sec" parent) text in
  text.
Proof.
  destruct parent as [t a tx tl cs]. cbv zeta. unfold findall_child.
  rewrite <- (fold_left_guard (has_tag "sec")
                (fun text s => text +:+ extract_sections s (S level))).
  reflexivity.
Qed.

Lemma count_marker (level : nat) :
  count_char "#" (repeat_str " #" level) = level.
Proof.
  induction level as [|n IH]; [done|].
  simpl repeat_str. rewrite count_char_append, IH. reflexivity.
Qed.

(** C8. The text [extract_sections] emits for a section at nesting depth
    [level] is, in this order: the title line (only when the section has
    a title child; the marker [" #"] repeated [level] times, so one [#]
    at depth 1, two at depth 2, then a blank and the stripped title
    text and a line break), then for each direct paragraph child its
    concatenated, stripped text followed by a blank line, then the text
    extracted recursively, one level deeper, from each direct subsection
    in document order. *)
Theorem extract_sections_order (parent : Element) (level : nat) :
  extract_sections parent level =
    match find_child "title" parent with
    | Some title =>
        repeat_str " #" level +:+ " " +:+ strip (join "" (itertext title)) +:+ nl
    | None => ""
    end
    +:+ concat_str (map (fun p => strip (join "" (itertext p)) +:+ nl +:+ nl)
                        (findall_child "p" parent))
    +:+ concat_str (map (fun s => extract_sections s (S level))
                        (findall_child "sec" parent))
  /\ count_char "#" (repeat_str " #" level) = level
  /\ repeat_str " #" 1 = " #"
  /\ repeat_str " #" 2 = " # #".
Proof.
  split; [|split; [apply count_marker|split; reflexivity]].
  rewrite extract_sections_eq. cbv zeta.
  rewrite (fold_left_append (fun s => extract_sections s (S level))).
  rewrite (fold_left_append paragraph_text).
  rewrite append_assoc. unfold paragraph_text.
  destruct (find_child "title" parent); reflexivity.
Qed.

Example extract_sections_nested :
  extract_sections nested_section 1 =
  " # Intro" +:+ nl +:+ "Hello" +:+ nl +:+ nl +:+ "Bye" +:+ nl +:+ nl +:+
  " # # Sub" +:+ nl +:+ "World" +:+ nl +:+ nl.
Proof. vm_compute. reflexivity. Qed.

(** Lookups pass through an assignment that is made only when a node
    was found. *)
Lemma lookup_set_if_found {A B : Type} (o : option A) (f : A -> B)
  (k k' : string) (m : gmap string B) :
  k ≠ k' ->
  match o with Some x => <[k := f x]> m | None => m end !! k' = m !! k'.
Proof. intros Hne. destruct o; [by rewrite lookup_insert_ne|done]. Qed.

Lemma dom_set_if_found {A B : Type} (o : option A) (f : A -> B)
  (k : string) (m : gmap string B) :
  m !! k = None ->
  k ∈ dom (match o with Some x => <[k := f x]> m | None => m end) <-> is_Some o.
Proof.
  intros Hm. rewrite elem_of_dom. destruct o as [x|].
  - rewrite lookup_insert_eq. split; eauto.
  - rewrite Hm. split; intros [? ?]; done.
Qed.

(** The four entries that are assigned unconditionally. *)
Lemma metadata_unconditional (article : Element) (pmcid : string) :
  let m := extract_metadata article pmcid in
  is_Some (m !! "Article Type") /\ is_Some (m !! "DOI") /\
  is_Some (m !! "PubMed Link") /\
  m !! "PMC Link" =
    Some (Some ("https://www.ncbi.nlm.nih.gov/pmc/articles/PMC" +:+ pmcid +:+ "/")).
Proof.
  cbv zeta. unfold extract_metadata. cbv zeta.
  rewrite !lookup_set_if_found by done.
  destruct (find_desc_attr "article-id" "pub-id-type" "pmid" article);
    simplify_map_eq; eauto 10.
Qed.

(** White space beyond ASCII at the edges of a title or a paragraph is
    stripped as well. *)
Example extract_sections_padded :
  extract_sections padded_section 1 = " # T" +:+ nl +:+ "Hello" +:+ nl +:+ nl.
Proof. reflexivity. Qed.

(** C10. Whatever the article element and the identifier are, the
    mapping [extract_metadata] returns has the keys ['Article Type'],
    ['DOI'], ['PubMed Link'] and ['PMC Link'], and the value under
    ['PMC Link'] is the URL template
    [https://www.ncbi.nlm.nih.gov/pmc/articles/PMC{pmcid}/] filled with
    the given identifier. *)
Theorem extract_metadata_fixed_keys (article : Element) (pmcid : string) :
  let m := extract_metadata article pmcid in
  "Article Type" ∈ dom m /\ "DOI" ∈ dom m /\ "PubMed Link" ∈ dom m /\
  "PMC Link" ∈ dom m /\
  m !! "PMC Link" =
    Some (Some ("https://www.ncbi.nlm.nih.gov/pmc/articles/PMC" +:+ pmcid +:+ "/")).
Proof.
  cbv zeta. rewrite !elem_of_dom.
  destruct (metadata_unconditional article pmcid) as (Ht & Hd & Hp & Hc).
  rewrite Hc. eauto 10.
Qed.

Example extract_metadata_full :
  let m := extract_metadata full_article "77" in
  m !! "Article Type" = Some (Some "research-article") /\
  m !! "DOI" = Some (Some "10.1/x") /\
  m !! "PubMed Link" = Some (Some "https://pubmed.ncbi.nlm.nih.gov/42/") /\
  m !! "PMC Link" = Some (Some "https://www.ncbi.nlm.nih.gov/pmc/articles/PMC77/") /\
  m !! "Journal" = Some (Some "J") /\
  m !! "Title" = Some (Some "A b") /\
  m !! "Year Published" = Some (Some "2020") /\
  size m = 7.
Proof. vm_compute. repeat split; reflexivity. Qed.

(** C2, as the design document states it, fails: for the empty article
    [<article/>] the keys ['Journal'], ['Title'] and ['Year Published']
    are missing from the mapping. *)
Lemma extract_metadata_missing_keys :
  let m := extract_metadata bare_article "1" in
  ("Journal" ∉ dom m) /\ ("Title" ∉ dom m) /\ ("Year Published" ∉ dom m).
Proof. cbv zeta. rewrite !not_elem_of_dom. vm_compute. auto. Qed.

(** C2, amended. [extract_metadata] always has an entry for the article
    type, the DOI, the PubMed link and the PMC link, and the first three
    hold the placeholder ["Not specified"], ["DOI not available"],
    ["Not available"] when the attribute or node is absent. The keys
    ['Journal'], ['Title'] and ['Year Published'] are present exactly
    when their node is found in the XML; when it is absent the key is
    missing. *)
Theorem extract_metadata_fields (article : Element) (pmcid : string) :
  let m := extract_metadata article pmcid in
  ("Article Type" ∈ dom m /\ "DOI" ∈ dom m /\ "PubMed Link" ∈ dom m /\
   "PMC Link" ∈ dom m) /\
  (attrib article !! "article-type" = None ->
   m !! "Article Type" = Some (Some "Not specified")) /\
  (find_desc_attr "article-id" "pub-id-type" "doi" article = None ->
   m !! "DOI" = Some (Some "DOI not available")) /\
  (find_desc_attr "article-id" "pub-id-type" "pmid" article = None ->
   m !! "PubMed Link" = Some (Some "Not available")) /\
  ("Journal" ∈ dom m <-> is_Some (find_desc "journal-title" article)) /\
  ("Title" ∈ dom m <-> is_Some (find_desc "article-title" article)) /\
  ("Year Published" ∈ dom m <-> is_Some (find_desc_child "pub-date" "year" article)).
Proof.
  cbv zeta. split; [|split; [|split; [|split; [|split; [|split]]]]].
  - destruct (metadata_unconditional article pmcid) as (Ht & Hd & Hp & Hc).
    rewrite !elem_of_dom, Hc. eauto 10.
  - intros Hattr. unfold extract_metadata. cbv zeta.
    rewrite !lookup_set_if_found by done. rewrite Hattr.
    destruct (find_desc_attr "article-id" "pub-id-type" "pmid" article);
      by simplify_map_eq.
  - intros Hdoi. unfold extract_metadata. cbv zeta.
    rewrite !lookup_set_if_found by done. rewrite Hdoi.
    destruct (find_desc_attr "article-id" "pub-id-type" "pmid" article);
      by simplify_map_eq.
  - intros Hpmid. unfold extract_metadata. cbv zeta.
    rewrite !lookup_set_if_found by done. rewrite Hpmid.
    by simplify_map_eq.
  - unfold extract_metadata. cbv zeta.
    rewrite !elem_of_dom, !lookup_set_if_found by done. rewrite <- elem_of_dom.
    apply dom_set_if_found.
    destruct (find_desc_attr "article-id" "pub-id-type" "pmid" article);
      by simplify_map_eq.
  - unfold extract_metadata. cbv zeta.
    rewrite !elem_of_dom, !lookup_set_if_found by done. rewrite <- elem_of_dom.
    apply (dom_set_if_found _ (fun t => Some (join "" (itertext t)))).
    rewrite lookup_set_if_found by done.
    destruct (find_desc_attr "article-id" "pub-id-type" "pmid" article);
      by simplify_map_eq.
  - unfold extract_metadata. cbv zeta.
    apply dom_set_if_found.
    rewrite !lookup_set_if_found by done.
    destruct (find_desc_attr "article-id" "pub-id-type" "pmid" article);
      by simplify_map_eq.
Qed.

(** The amended C2 at [<article/>]: every placeholder is in place. *)
Lemma extract_metadata_fields_witness :
  let m := extract_metadata bare_article "1" in
  m !! "Article Type" = Some (Some "Not specified") /\
  m !! "DOI" = Some (Some "DOI not available") /\
  m !! "PubMed Link" = Some (Some "Not available").
Proof.
  destruct (extract_metadata_fields bare_article "1") as (_ & Ht & Hd & Hp & _).
  split; [apply Ht; reflexivity|split; [apply Hd; reflexivity|apply Hp; reflexivity]].
Defined.

(** C3, as the design document states it, fails for [extract_body]: the
    body of [<article><body><boxed-text><p>x</p></boxed-text></body></article>]
    holds no section, the paragraphs anywhere inside it give the text
    [x] and a blank line, and [extract_body] returns the empty text. *)
Lemma extract_body_skips_nested_paragraphs :
  let body := Elem "body" ∅ None None [Elem "boxed-text" ∅ None None [leaf "p" "x"]] in
  find_desc "body" boxed_article = Some body /\
  findall_desc "sec" body = [] /\
  concat_str (map paragraph_text (findall_desc "p" body)) = "x" +:+ nl +:+ nl /\
  extract_body boxed_article = "" /\
  extract_body boxed_article ≠ concat_str (map paragraph_text (findall_desc "p" body)).
Proof. vm_compute. repeat split; done. Qed.

(** C3, amended. For an article whose body has no section child,
    [extract_body] returns the text of the body's direct paragraph
    children only, each stripped and followed by a blank line, without
    any label; paragraphs nested deeper are left out. The fallback over
    every paragraph anywhere inside the body is what [get_pmc_full_text]
    of the per-DOI collector does: it stores that text under the
    section name ['Main Text'], provided the text is not empty. *)
Theorem extract_body_without_sections (article body : Element) :
  find_desc "body" article = Some body ->
  findall_child "sec" body = [] ->
  extract_body article = concat_str (map paragraph_text (findall_child "p" body)) /\
  get_pmc_full_text article =
    (let all_paragraphs := concat_str (map paragraph_text (findall_desc "p" body)) in
     if nonempty all_paragraphs then {[ "Main Text" := all_paragraphs ]} else ∅).
Proof.
  intros Hbody Hsec. split.
  - unfold extract_body. rewrite Hbody. cbv zeta. rewrite Hsec. simpl fold_left.
    by rewrite fold_left_append.
  - unfold get_pmc_full_text. rewrite Hbody. cbv zeta.
    unfold full_text_sections. rewrite Hsec. simpl fold_left.
    rewrite bool_decide_eq_true_2 by done.
    rewrite fold_left_append, append_nil_l.
    destruct (nonempty _); [by rewrite insert_empty|done].
Qed.

(** The amended C3 at a body with one direct and one nested paragraph. *)
Lemma extract_body_without_sections_witness :
  extract_body flat_article = "a" +:+ nl +:+ nl /\
  get_pmc_full_text flat_article =
    {[ "Main Text" := "a" +:+ nl +:+ nl +:+ "x" +:+ nl +:+ nl ]}.
Proof.
  exact (extract_body_without_sections flat_article
           (Elem "body" ∅ None None
              [leaf "p" "a"; Elem "boxed-text" ∅ None None [leaf "p" "x"]])
           eq_refl eq_refl).
Defined.

(** The same for a direct paragraph of the body. *)
Example extract_body_padded : extract_body padded_article = "x" +:+ nl +:+ nl.
Proof. reflexivity. Qed.

End XmlParserSpec.

(** ** The retrying clients *)

Module RetrySpec.
Import PyStr Retry Fixtures.

Section safe_call.
Context {A : Type} (self : NCBIClient) (func : wrapped A).

Lemma safe_call_loop_retries (m i : nat) (rest : list nat) :
  (forall j, i <= j < i + m -> exists e, invoke func j = Raises e) ->
  i + m <= retry_attempts self - 1 ->
  safe_call_loop self func (seq i m ++ rest) =
  (fst (safe_call_loop self func rest),
   flat_map (retry_round self func) (seq i m) ++
   snd (safe_call_loop self func rest)).
Proof.
  revert i. induction m as [|m IH]; intros i Hfail Hle.
  - simpl. by destruct (safe_call_loop self func rest).
  - simpl. destruct (Hfail i ltac:(lia)) as [e He].
    unfold exn_text. rewrite He.
    destruct (Nat.ltb_spec i (retry_attempts self - 1)) as [_|?]; [|lia].
    rewrite (IH (S i)); [simpl; reflexivity| |lia].
    intros j Hj. apply Hfail. lia.
Qed.

Lemma calls_of_rounds (i m : nat) :
  List.filter is_call (flat_map (retry_round self func) (seq i m)) =
  map Call (seq i m).
Proof.
  revert i. induction m as [|m IH]; intros i; simpl; [done|]. by rewrite IH.
Qed.

Lemma rounds_without_logs (i m : nat) :
  List.filter (fun ev => negb (is_log ev))
              (flat_map (retry_round self func) (seq i m)) =
  flat_map (fun k => [Call k; Sleep (retry_delay self)]) (seq i m).
Proof.
  revert i. induction m as [|m IH]; intros i; simpl; [done|]. by rewrite IH.
Qed.
End safe_call.

(** C6. When every one of the [retry_attempts] invocations raises,
    [safe_call] tries exactly [retry_attempts] times, sleeps
    [retry_delay] seconds between any two consecutive tries (and at no
    other moment), logs the final failure after the last try and returns
    [None]; when the invocation of attempt [k] is the first that does
    not raise, its result is returned, after [k] retried failures and
    without any failure line. *)
Theorem safe_call_retries {A : Type} (self : NCBIClient) (func : wrapped A) :
  let n := retry_attempts self in
  (0 < n ->
   (forall k, k < n -> exists e, invoke func k = Raises e) ->
   safe_call self func =
     (None,
      flat_map (retry_round self func) (seq 0 (n - 1)) ++
      [Call (n - 1); Log (failed_line self (func_name func) (exn_text func (n - 1)))]) /\
   List.filter is_call (snd (safe_call self func)) = map Call (seq 0 n) /\
   List.filter (fun ev => negb (is_log ev)) (snd (safe_call self func)) =
     flat_map (fun k => [Call k; Sleep (retry_delay self)]) (seq 0 (n - 1)) ++
     [Call (n - 1)]) /\
  (forall k a,
     k < n ->
     (forall j, j < k -> exists e, invoke func j = Raises e) ->
     invoke func k = Returns a ->
     safe_call self func =
       (Some a, flat_map (retry_round self func) (seq 0 k) ++ [Call k])).
Proof.
  cbv zeta. split.
  - intros Hpos Hfail.
    assert (Hseq : seq 0 (retry_attempts self) =
                   seq 0 (retry_attempts self - 1) ++ [retry_attempts self - 1]).
    { destruct (retry_attempts self) as [|m]; [lia|].
      replace (S m - 1) with m by lia. by rewrite seq_S. }
    assert (Hrun : safe_call self func =
      (None,
       flat_map (retry_round self func) (seq 0 (retry_attempts self - 1)) ++
       [Call (retry_attempts self - 1);
        Log (failed_line self (func_name func)
               (exn_text func (retry_attempts self - 1)))])).
    { unfold safe_call. rewrite Hseq.
      rewrite safe_call_loop_retries; [|intros; apply Hfail; lia|lia].
      simpl. destruct (Hfail (retry_attempts self - 1) ltac:(lia)) as [e He].
      unfold exn_text. rewrite He, Nat.ltb_irrefl. reflexivity. }
    split; [exact Hrun|]. rewrite Hrun. simpl snd.
    rewrite !List.filter_app, calls_of_rounds, rounds_without_logs.
    rewrite Hseq, map_app. done.
  - intros k a Hk Hfail Hok. unfold safe_call.
    replace (retry_attempts self) with (k + S (retry_attempts self - S k)) at 1 by lia.
    rewrite seq_app. simpl seq.
    rewrite safe_call_loop_retries; [|intros; apply Hfail; lia|lia].
    simpl. rewrite Hok. reflexivity.
Qed.

(** C6 at the configured client (three attempts, two seconds) for a
    call that always times out, and for a call that answers on its
    third attempt. *)
Lemma safe_call_retries_witness :
  safe_call NCBIClient_init always_timeout =
    (None,
     [Call 0; Log "Retrying efetch (attempt 1/3): timed out"; Sleep 2;
      Call 1; Log "Retrying efetch (attempt 2/3): timed out"; Sleep 2;
      Call 2; Log "Failed efetch after 3 attempts: timed out"]) /\
  fst (safe_call NCBIClient_init twice_429) = Some 200.
Proof.
  split.
  - refine (proj1 (proj1 (safe_call_retries NCBIClient_init always_timeout) _ _)).
    + cbv. lia.
    + intros k _. eexists. reflexivity.
  - refine (f_equal fst
              (proj2 (safe_call_retries NCBIClient_init twice_429) 2 200 _ _ _)).
    + cbv. lia.
    + intros [|[|j]] Hj; [eexists; reflexivity..|lia].
    + reflexivity.
Defined.

Lemma safe_api_call_loop_retry {A : Type} (func : wrapped A) (k : nat)
  (rest : list nat) (e : string) :
  invoke func k = Raises e ->
  k < tries - 1 ->
  safe_api_call_loop func (k :: rest) =
  (fst (safe_api_call_loop func rest),
   (if rate_limited e
    then [Call k; Log (rate_limit_line (5 * (k + 1))); Sleep (5 * (k + 1))]
    else [Call k; Log (retrying_api_line (func_name func) e); Sleep 2]) ++
   snd (safe_api_call_loop func rest)).
Proof.
  intros He Hk. cbn [safe_api_call_loop]. rewrite He.
  destruct (Nat.ltb_spec k (tries - 1)) as [_|?]; [|lia].
  destruct (safe_api_call_loop func rest) as [r t].
  by destruct (rate_limited e).
Qed.

(** C7. In [safe_api_call], a failure of attempt [k] that is retried
    ([k] is 0 or 1) and whose text contains ["429"] or
    ["Too Many Requests"] is followed by the rate-limit line and a sleep
    of [5 * (k + 1)] seconds, in place of the fixed two seconds; a call
    that fails twice in this way and answers on the third attempt
    sleeps 5 and then 10 seconds, returns the answer, and no final
    failure line is logged. *)
Theorem safe_api_call_backoff {A : Type} (func : wrapped A) :
  (forall k e,
     k < tries - 1 ->
     (forall j, j < k -> exists e', invoke func j = Raises e') ->
     invoke func k = Raises e ->
     rate_limited e = true ->
     exists pre post,
       snd (safe_api_call func) =
         pre ++ [Call k; Log (rate_limit_line (5 * (k + 1))); Sleep (5 * (k + 1))]
             ++ post /\
       List.filter is_call pre = map Call (seq 0 k)) /\
  (forall e0 e1 a,
     invoke func 0 = Raises e0 -> rate_limited e0 = true ->
     invoke func 1 = Raises e1 -> rate_limited e1 = true ->
     invoke func 2 = Returns a ->
     safe_api_call func =
       (Some a,
        [Call 0; Log (rate_limit_line 5); Sleep 5;
         Call 1; Log (rate_limit_line 10); Sleep 10;
         Call 2]) /\
     forall e, Log (failed_api_line (func_name func) e) ∉ snd (safe_api_call func)).
Proof.
  split.
  - intros k e Hk Hfail Hraise Hrate.
    unfold safe_api_call. change (seq 0 tries) with [0; 1; 2].
    destruct k as [|[|k]]; [| |unfold tries in Hk; lia].
    + rewrite (safe_api_call_loop_retry func 0 _ e Hraise Hk), Hrate.
      exists [], (snd (safe_api_call_loop func [1; 2])). split; reflexivity.
    + destruct (Hfail 0 ltac:(lia)) as [e0 He0].
      rewrite (safe_api_call_loop_retry func 0 _ e0 He0 ltac:(unfold tries; lia)).
      rewrite (safe_api_call_loop_retry func 1 _ e Hraise Hk), Hrate.
      eexists _, (snd (safe_api_call_loop func [2])). split; [reflexivity|].
      by destruct (rate_limited e0).
  - intros e0 e1 a H0 Hr0 H1 Hr1 H2.
    assert (Hrun : safe_api_call func =
      (Some a,
       [Call 0; Log (rate_limit_line 5); Sleep 5;
        Call 1; Log (rate_limit_line 10); Sleep 10; Call 2])).
    { unfold safe_api_call. simpl. by rewrite H0, Hr0, H1, Hr1, H2. }
    split; [exact Hrun|]. intros e. rewrite Hrun. simpl snd.
    rewrite !elem_of_cons, elem_of_nil.
    intros [H|[H|[H|[H|[H|[H|[H|[]]]]]]]]; discriminate H.
Qed.

(** C7 at a call rejected twice with a 429 text before it answers. *)
Lemma safe_api_call_backoff_witness :
  safe_api_call twice_429 =
    (Some 200,
     [Call 0; Log "Rate limit hit, waiting 5s before retry..."; Sleep 5;
      Call 1; Log "Rate limit hit, waiting 10s before retry..."; Sleep 10;
      Call 2]) /\
  exists pre post,
    snd (safe_api_call twice_429) =
      pre ++ [Call 1; Log (rate_limit_line 10); Sleep 10] ++ post /\
    List.filter is_call pre = [Call 0].
Proof.
  split.
  - exact (proj1 (proj2 (safe_api_call_backoff twice_429) _ _ 200
                    eq_refl eq_refl eq_refl eq_refl eq_refl)).
  - refine (proj1 (safe_api_call_backoff twice_429) 1 _ _ _ eq_refl eq_refl).
    + unfold tries. lia.
    + intros [|j] Hj; [eexists; reflexivity|lia].
Defined.

End RetrySpec.

(** ** The batch fetcher *)

Module DownloaderSpec.
Import PyStr ET XmlParser Downloader Fixtures.

#[local] Set Warnings "-clear-no-such-hyp".

Ltac process_cases client a :=
  unfold process_article, pmcids_of;
  let p := fresh "pmid" in
  let ids := fresh "ids" in
  let first := fresh "first" in
  let rest := fresh "rest" in
  let doc := fresh "doc" in
  destruct (art_pmid a) as [p|] eqn:?;
    [destruct (art_ids a) as [ids|] eqn:?;
       [destruct (List.filter (startswith "PMC") ids) as [|first rest] eqn:?;
          [|destruct (download_article client first) as [doc|] eqn:?]
       |destruct (nonempty p) eqn:?]
    |]; cbn [failed_pmids multiple_pmcids_map retrieved_documents].

Section one_article.
Variable client : Remote.
Implicit Types (st : BatchResult) (a : Article) (p : string).

Lemma nonempty_false p : nonempty p = false -> p = "".
Proof. by destruct p. Qed.

(** A step only ever adds the identifier of the record it handles. *)
Lemma failed_step st a p :
  p ∈ failed_pmids (process_article client st a) ->
  p ∈ failed_pmids st \/ art_pmid a = Some p.
Proof. process_cases client a; set_solver. Qed.

Lemma docs_step st a p :
  p ∈ dom (retrieved_documents (process_article client st a)) ->
  p ∈ dom (retrieved_documents st) \/ art_pmid a = Some p.
Proof. process_cases client a; set_solver. Qed.

Lemma failed_mono st a p :
  p ∈ failed_pmids st -> p ∈ failed_pmids (process_article client st a).
Proof. process_cases client a; set_solver. Qed.

Lemma docs_mono st a p :
  p ∈ dom (retrieved_documents st) ->
  p ∈ dom (retrieved_documents (process_article client st a)).
Proof. process_cases client a; set_solver. Qed.

(** The record's identifier lands in one of the two collections. *)
Lemma step_covers st a p :
  art_pmid a = Some p -> p ≠ "" ->
  p ∈ failed_pmids (process_article client st a) \/
  p ∈ dom (retrieved_documents (process_article client st a)).
Proof.
  intros Hp Hne. process_cases client a; simplify_eq; try set_solver.
  exfalso. eauto using nonempty_false.
Qed.

(** ... and in one only, if it was in neither before. *)
Lemma step_exclusive st a p :
  art_pmid a = Some p ->
  p ∉ failed_pmids st -> p ∉ dom (retrieved_documents st) ->
  ~ (p ∈ failed_pmids (process_article client st a) /\
     p ∈ dom (retrieved_documents (process_article client st a))).
Proof. intros Hp. process_cases client a; simplify_eq; set_solver. Qed.

(** Other identifiers are not touched. *)
Lemma step_frame st a p :
  art_pmid a ≠ Some p ->
  (p ∈ failed_pmids (process_article client st a) <-> p ∈ failed_pmids st) /\
  retrieved_documents (process_article client st a) !! p =
    retrieved_documents st !! p /\
  multiple_pmcids_map (process_article client st a) !! p =
    multiple_pmcids_map st !! p.
Proof.
  intros Hp. process_cases client a;
    try (assert (pmid ≠ p) by congruence);
    try destruct (1 <? _)%nat;
    rewrite ?lookup_insert_ne by done; set_solver.
Qed.



Lemma docs_step_value st a k d :
  retrieved_documents (process_article client st a) !! k = Some d ->
  retrieved_documents st !! k = Some d \/
  (art_pmid a = Some k /\
   exists first rest doc,
     pmcids_of a = first :: rest /\
     download_article client first = Some doc /\
     d = set_PMCID first doc).
Proof.
  process_cases client a; try tauto.
  destruct (decide (pmid = k)) as [->|];
    [rewrite lookup_insert_eq|rewrite lookup_insert_ne by done; tauto].
  intros [= <-]. right. eauto 10.
Qed.

End one_article.

Section one_batch.
Variable client : Remote.
Implicit Types (st : BatchResult) (a : Article) (p : string).

Local Abbreviation run := (fold_left (process_article client)).

Lemma pmids_of_cons a articles :
  pmids_of (a :: articles) =
  match art_pmid a with
  | Some p => p :: pmids_of articles
  | None => pmids_of articles
  end.
Proof. reflexivity. Qed.

Lemma run_mono articles st p :
  (p ∈ failed_pmids st -> p ∈ failed_pmids (run articles st)) /\
  (p ∈ dom (retrieved_documents st) ->
   p ∈ dom (retrieved_documents (run articles st))).
Proof.
  revert st. induction articles as [|a articles IH]; intros st; cbn [fold_left]; [done|].
  destruct (IH (process_article client st a)) as [IHf IHd].
  split; eauto using failed_mono, docs_mono.
Qed.

Lemma run_origin articles st p :
  p ∈ failed_pmids (run articles st) \/
  p ∈ dom (retrieved_documents (run articles st)) ->
  p ∈ failed_pmids st \/ p ∈ dom (retrieved_documents st) \/
  p ∈ pmids_of articles.
Proof.
  revert st. induction articles as [|a articles IH]; intros st; cbn [fold_left]; [tauto|].
  intros H. apply IH in H. rewrite pmids_of_cons.
  destruct H as [H|[H|H]].
  - apply failed_step in H as [H| ->]; [tauto|]. right; right. by left.
  - apply docs_step in H as [H| ->]; [tauto|]. right; right. by left.
  - right; right. destruct (art_pmid a); [by right|done].
Qed.

Lemma run_covers articles st p :
  p ∈ pmids_of articles -> p ≠ "" ->
  p ∈ failed_pmids (run articles st) \/
  p ∈ dom (retrieved_documents (run articles st)).
Proof.
  revert st. induction articles as [|a articles IH]; intros st Hin Hne; cbn [fold_left].
  - by apply elem_of_nil in Hin.
  - rewrite pmids_of_cons in Hin.
    destruct (art_pmid a) as [q|] eqn:Hq; [|by apply IH].
    apply elem_of_cons in Hin as [->|Hin]; [|by apply IH].
    destruct (run_mono articles (process_article client st a) q) as [Hf Hd].
    destruct (step_covers client st a q Hq Hne); auto.
Qed.


Lemma run_exclusive articles st :
  NoDup (pmids_of articles) ->
  (forall p, p ∈ pmids_of articles ->
             (p ∉ failed_pmids st) /\ (p ∉ dom (retrieved_documents st))) ->
  (forall p, ~ (p ∈ failed_pmids st /\ p ∈ dom (retrieved_documents st))) ->
  forall p, ~ (p ∈ failed_pmids (run articles st) /\
               p ∈ dom (retrieved_documents (run articles st))).
Proof.
  revert st. induction articles as [|a articles IH]; intros st Hnd Hfresh Hdisj;
    cbn [fold_left]; [done|].
  rewrite pmids_of_cons in Hnd, Hfresh.
  destruct (art_pmid a) as [q|] eqn:Hq.
  - apply NoDup_cons in Hnd as [Hq' Hnd].
    destruct (Hfresh q ltac:(by left)) as [Hqf Hqd].
    apply IH; [done| |].
    + intros p Hp. assert (art_pmid a ≠ Some p) as Hne by set_solver.
      destruct (step_frame client st a p Hne) as (Hf & Hd & _).
      rewrite Hf, elem_of_dom, Hd, <- elem_of_dom. apply Hfresh. by right.
    + intros p. destruct (decide (q = p)) as [<-|Hne].
      * by apply step_exclusive.
      * assert (art_pmid a ≠ Some p) as Hne' by congruence.
        destruct (step_frame client st a p Hne') as (Hf & Hd & _).
        rewrite Hf, elem_of_dom, Hd, <- elem_of_dom. apply Hdisj.
  - apply IH; [done| |].
    + unfold process_article. by rewrite Hq.
    + unfold process_article. by rewrite Hq.
Qed.



Lemma run_docs_value articles st k d :
  retrieved_documents (run articles st) !! k = Some d ->
  retrieved_documents st !! k = Some d \/
  exists a first rest doc,
    a ∈ articles /\ art_pmid a = Some k /\ pmcids_of a = first :: rest /\
    download_article client first = Some doc /\ d = set_PMCID first doc.
Proof.
  revert st. induction articles as [|a articles IH]; intros st; cbn [fold_left]; [tauto|].
  intros H. apply IH in H as [H|(b & f & r & doc & Hb & H)].
  - apply docs_step_value in H as [H|(Hk & f & r & doc & H)]; [tauto|].
    right. exists a, f, r, doc. split; [by left|done].
  - right. exists b, f, r, doc. split; [by right|done].
Qed.
End one_batch.


Section batches.
(** The batches are consecutive slices of the identifier list. *)
Lemma concat_chunks {A : Type} (b : nat) (l : list A) (cnt : nat) :
  concat (map (fun q => take b (drop (q * b) l)) (seq 0 cnt)) = take (cnt * b) l.
Proof.
  induction cnt as [|cnt IH]; [done|].
  rewrite seq_S, map_app, concat_app, IH. simpl.
  rewrite app_nil_r, take_take_drop. f_equal. lia.
Qed.

Lemma make_batches_concat (id_list : list string) (batch_size : Z) :
  (0 < batch_size)%Z ->
  exists batches,
    make_batches id_list batch_size = Some batches /\
    concat batches = id_list.
Proof.
  intros Hpos. unfold make_batches, range_step.
  destruct (decide (batch_size = 0)%Z); [lia|].
  destruct (decide (batch_size < 0)%Z); [lia|].
  eexists. split; [reflexivity|].
  rewrite map_map.
  set (cnt := Z.to_nat ((Z.of_nat (length id_list) + batch_size - 1) / batch_size)).
  rewrite (map_ext _ (fun q => take (Z.to_nat batch_size)
                                    (drop (q * Z.to_nat batch_size) id_list))).
  - rewrite concat_chunks. apply take_ge.
    pose proof (Z.mul_succ_div_gt
                  (Z.of_nat (length id_list) + batch_size - 1) batch_size Hpos).
    assert (0 <= (Z.of_nat (length id_list) + batch_size - 1) / batch_size)%Z
      by (apply Z.div_pos; lia).
    subst cnt. nia.
  - intros q. unfold slice. f_equal; [nia|f_equal; nia].
Qed.
End batches.

Section parallel.
Context {Env : Type}.
Variable worker : list string -> option BatchResult.
Variable progress_callback :
  option (nat -> nat -> gmap string Document -> list string ->
          gmap string (list string) -> Env -> option Env).

(** The coordinator's totals after a run of completed batches: the
    failures are appended in completion order, the documents are those
    of the totals so far and of every batch whose worker returned. *)
Lemma drain_totals (total i : nat) (completed : list (list string))
  (totals : BatchResult) (env : Env) :
  let totals' := fst (drain worker progress_callback total i completed (totals, env)) in
  (forall p, p ∈ failed_pmids totals' <->
     p ∈ failed_pmids totals \/
     exists b res, b ∈ completed /\ worker b = Some res /\ p ∈ failed_pmids res) /\
  (forall p, p ∈ dom (retrieved_documents totals') <->
     p ∈ dom (retrieved_documents totals) \/
     exists b res, b ∈ completed /\ worker b = Some res /\
                   p ∈ dom (retrieved_documents res)).
Proof.
  cbv zeta. revert i totals env.
  induction completed as [|batch rest IH]; intros i totals env; cbn [drain].
  - split; intros p; (split; [tauto|]); intros [H|(b & res & Hb & _)]; [done| |done|];
      by apply elem_of_nil in Hb.
  - unfold merge_batch. destruct (worker batch) as [res|] eqn:Hw.
    + set (merged :=
             {| failed_pmids := failed_pmids totals ++ failed_pmids res;
                multiple_pmcids_map :=
                  multiple_pmcids_map res ∪ multiple_pmcids_map totals;
                retrieved_documents :=
                  retrieved_documents res ∪ retrieved_documents totals |}).
      match goal with
      | |- context [drain _ _ _ _ _ ?st] =>
          assert (exists env', st = (merged, env')) as [env' ->]
      end.
      { destruct progress_callback as [cb|]; [|eauto].
        destruct (cb _ _ _ _ _ _); eauto. }
      destruct (IH (S i) merged env') as [IHf IHd]. subst merged.
      split; intros p; [rewrite IHf|rewrite IHd];
        cbn [failed_pmids retrieved_documents];
        rewrite ?elem_of_app, ?dom_union_L, ?elem_of_union.
      * split.
        -- intros [[H|H]|(b & r & Hb & H)]; [tauto| |].
           ++ right. exists batch, res. split; [by left|done].
           ++ right. exists b, r. split; [by right|done].
        -- intros [H|(b & r & Hb & Hwb & H)]; [tauto|].
           apply elem_of_cons in Hb as [->|Hb]; [|right; eauto].
           rewrite Hw in Hwb. injection Hwb as <-. tauto.
      * split.
        -- intros [[H|H]|(b & r & Hb & H)]; [|tauto|].
           ++ right. exists batch, res. split; [by left|done].
           ++ right. exists b, r. split; [by right|done].
        -- intros [H|(b & r & Hb & Hwb & H)]; [tauto|].
           apply elem_of_cons in Hb as [->|Hb]; [|right; eauto].
           rewrite Hw in Hwb. injection Hwb as <-. tauto.
    + destruct (IH (S i) totals env) as [IHf IHd].
      split; intros p; [rewrite IHf|rewrite IHd].
      * split; intros [H|(b & r & Hb & Hwb & H)]; [tauto| |tauto|].
        -- right. exists b, r. split; [by right|done].
        -- apply elem_of_cons in Hb as [->|Hb]; [congruence|right; eauto].
      * split; intros [H|(b & r & Hb & Hwb & H)]; [tauto| |tauto|].
        -- right. exists b, r. split; [by right|done].
        -- apply elem_of_cons in Hb as [->|Hb]; [congruence|right; eauto].
Qed.

Lemma completed_all (batches : list (list string)) (order : list nat) :
  order ≡ₚ seq 0 (length batches) ->
  omap (fun k => batches !! k) order ≡ₚ batches.
Proof.
  intros ->. clear. induction batches as [|b batches IH] using rev_ind; [done|].
  rewrite length_app, Nat.add_1_r, seq_S, omap_app. simpl.
  rewrite lookup_app_r, Nat.sub_diag by done. simpl.
  rewrite <- IH at 2. apply Permutation_app_tail.
  erewrite list_omap_ext; [reflexivity|].
  apply Forall2_same_length_lookup_2; [done|].
  intros i x y Hx Hy. assert (x = y) as <- by congruence.
  apply lookup_seq in Hx as [-> Hlt]. by rewrite lookup_app_l.
Qed.
End parallel.


(** C1, as the design document states it, fails. When the service
    answers a request for PMIDs 1 and 2 with the record of PMID 1 only,
    PMID 2 is neither a key of the documents nor among the failures,
    after the batch and after the whole parallel download; and when a
    response carries two records for one PMID, that PMID can be in both
    collections. *)
Lemma outcome_collections_counterexample :
  (let res := fetch_pmcids_from_pmids one_of_two ["1"; "2"] in
   "2" ∈ ["1"; "2"] /\
   ("2" ∉ failed_pmids res) /\ ("2" ∉ dom (retrieved_documents res))) /\
  (exists totals,
     download_batch_parallel
       (fun b => Some (fetch_pmcids_from_pmids one_of_two b)) None
       ["1"; "2"] 2 1 [0] None tt = (Returned totals, tt) /\
     ("2" ∉ failed_pmids totals) /\ ("2" ∉ dom (retrieved_documents totals))) /\
  (let res := fetch_pmcids_from_pmids twin_records ["1"] in
   "1" ∈ failed_pmids res /\ "1" ∈ dom (retrieved_documents res)).
Proof.
  split; [|split].
  - cbv zeta. rewrite not_elem_of_dom. split; [set_solver|].
    split; [|by vm_compute].
    assert (failed_pmids (fetch_pmcids_from_pmids one_of_two ["1"; "2"]) = [])
      as -> by (by vm_compute).
    apply not_elem_of_nil.
  - eexists. split; [vm_compute; reflexivity|].
    rewrite not_elem_of_dom. split; [apply not_elem_of_nil|by vm_compute].
  - cbv zeta. rewrite elem_of_dom. split.
    + assert (failed_pmids (fetch_pmcids_from_pmids twin_records ["1"]) = ["1"])
        as -> by (by vm_compute).
      set_solver.
    + vm_compute. eauto.
Qed.

(** C1, amended. After [fetch_pmcids_from_pmids] on a batch: if the
    combined call fails, every identifier of the batch is among the
    failures and there is no document; otherwise the two collections
    hold identifiers of the returned records only, every non-empty
    identifier of a returned record is a key of the documents or among
    the failures, and it is not in both when no two returned records
    carry the same identifier. After [download_batch_parallel] on a list
    (positive batch size and thread count, every future completing), the
    batches are consecutive slices that make up the list, and the
    returned failures and document keys are exactly those of the
    batches taken together. Nothing is promised for an identifier of
    the input for which the service returns no record. *)
Theorem outcome_collections (client : Remote) :
  (forall pmid_batch,
     let res := fetch_pmcids_from_pmids client pmid_batch in
     match fetch_and_parse client (join "," pmid_batch) with
     | None => failed_pmids res = pmid_batch /\ retrieved_documents res = ∅
     | Some articles =>
         (forall p, p ∈ failed_pmids res \/ p ∈ dom (retrieved_documents res) ->
                    p ∈ pmids_of articles) /\
         (forall p, p ∈ pmids_of articles -> p ≠ "" ->
                    p ∈ failed_pmids res \/ p ∈ dom (retrieved_documents res)) /\
         (NoDup (pmids_of articles) ->
          forall p,
            ~ (p ∈ failed_pmids res /\ p ∈ dom (retrieved_documents res)))
     end) /\
  (forall (Env : Type) callback id_list batch_size num_threads order (env : Env),
     (0 < batch_size)%Z -> (0 < num_threads)%Z ->
     exists batches,
       make_batches id_list batch_size = Some batches /\
       concat batches = id_list /\
       (order ≡ₚ seq 0 (length batches) ->
        exists totals env',
          download_batch_parallel
            (fun b => Some (fetch_pmcids_from_pmids client b)) callback
            id_list batch_size num_threads order None env
          = (Returned totals, env') /\
          (forall p,
             p ∈ failed_pmids totals <->
             exists b, b ∈ batches /\
                       p ∈ failed_pmids (fetch_pmcids_from_pmids client b)) /\
          (forall p,
             p ∈ dom (retrieved_documents totals) <->
             exists b, b ∈ batches /\
                       p ∈ dom (retrieved_documents
                                  (fetch_pmcids_from_pmids client b))))).
Proof.
  split.
  - intros pmid_batch. cbv zeta. unfold fetch_pmcids_from_pmids.
    destruct (fetch_and_parse client (join "," pmid_batch)) as [articles|]; [|done].
    split; [|split].
    + intros p Hp. apply run_origin in Hp as [Hp|[Hp|Hp]]; [| |done].
      * by apply elem_of_nil in Hp.
      * cbn [empty_batch retrieved_documents] in Hp. by rewrite dom_empty_L in Hp.
    + intros p. apply run_covers.
    + intros Hnd. apply run_exclusive; [done| |].
      * intros p _. cbn [empty_batch retrieved_documents failed_pmids].
        rewrite dom_empty_L. set_solver.
      * intros p [Hp _]. by apply elem_of_nil in Hp.
  - intros Env callback id_list batch_size num_threads order env Hbs Hnt.
    destruct (make_batches_concat id_list batch_size Hbs) as (batches & Hm & Hc).
    exists batches. split; [done|]. split; [done|]. intros Hord.
    unfold download_batch_parallel. rewrite Hm.
    destruct (decide (num_threads <= 0)%Z); [lia|].
    set (worker := fun b => Some (fetch_pmcids_from_pmids client b)).
    set (completed := omap (fun k => batches !! k) order).
    pose proof (drain_totals worker callback (length batches) 0 completed
                  empty_batch env) as Hd. cbv zeta in Hd.
    destruct (drain worker callback (length batches) 0 completed (empty_batch, env))
      as [totals env'].
    exists totals, env'. split; [done|].
    destruct Hd as [Hf Hdoc]. cbn [fst] in Hf, Hdoc.
    assert (Hperm : completed ≡ₚ batches) by (by apply completed_all).
    split; intros p; [rewrite Hf|rewrite Hdoc]; subst worker.
    + split.
      * intros [H|(b & res & Hb & [= <-] & H)]; [by apply elem_of_nil in H|].
        exists b. by rewrite <- Hperm.
      * intros (b & Hb & H). right.
        exists b, (fetch_pmcids_from_pmids client b). by rewrite Hperm.
    + split.
      * intros [H|(b & res & Hb & [= <-] & H)];
          [cbn [empty_batch retrieved_documents] in H; by rewrite dom_empty_L in H|].
        exists b. by rewrite <- Hperm.
      * intros (b & Hb & H). right.
        exists b, (fetch_pmcids_from_pmids client b). by rewrite Hperm.
Qed.


(** The amended C1 at the end-to-end scenario of the design document:
    PMID 1 resolves to a parseable article, PMID 2 has no PMC
    identifier; two batches of one identifier, completing in reverse
    order. *)
Lemma outcome_collections_witness :
  (let res := fetch_pmcids_from_pmids end_to_end ["1"; "2"] in
   ("2" ∈ failed_pmids res \/ "2" ∈ dom (retrieved_documents res)) /\
   ~ ("2" ∈ failed_pmids res /\ "2" ∈ dom (retrieved_documents res)) /\
   "2" ∈ pmids_of [{| art_pmid := Some "1"; art_ids := Some ["PMC10"] |};
                   {| art_pmid := Some "2"; art_ids := Some ["10.1/y"] |}]) /\
  (exists totals env',
     download_batch_parallel
       (fun b => Some (fetch_pmcids_from_pmids end_to_end b)) None
       ["1"; "2"] 1 2 [1; 0] None tt = (Returned totals, env') /\
     (forall p,
        p ∈ failed_pmids totals <->
        exists b, b ∈ [["1"]; ["2"]] /\
                  p ∈ failed_pmids (fetch_pmcids_from_pmids end_to_end b))).
Proof.
  destruct (outcome_collections end_to_end) as [Hbatch Hall]. split.
  - specialize (Hbatch ["1"; "2"]). cbv zeta in Hbatch.
    change (fetch_and_parse end_to_end (join "," ["1"; "2"]))
      with (Some [{| art_pmid := Some "1"; art_ids := Some ["PMC10"] |};
                  {| art_pmid := Some "2"; art_ids := Some ["10.1/y"] |}]) in Hbatch.
    destruct Hbatch as (Horigin & Hcov & Hex). split; [|split].
    + apply Hcov; [|done]. vm_compute. right. left.
    + apply Hex. vm_compute. repeat constructor; set_solver.
    + apply Horigin. left.
      assert (failed_pmids (fetch_pmcids_from_pmids end_to_end ["1"; "2"]) = ["2"])
        as -> by (vm_compute; reflexivity).
      left.
  - destruct (Hall unit None ["1"; "2"] 1%Z 2%Z [1; 0] tt) as (batches & Hm & _ & H);
      [lia|lia|].
    vm_compute in Hm. injection Hm as <-.
    destruct H as (totals & env' & Hrun & Hf & _); [apply perm_swap|].
    exists totals, env'. split; [exact Hrun|exact Hf].
Defined.

Example end_to_end_scenario :
  let res := fetch_pmcids_from_pmids end_to_end ["1"; "2"] in
  failed_pmids res = ["2"] /\
  multiple_pmcids_map res = ∅ /\
  retrieved_documents res =
    {[ "1" := set_PMCID "PMC10" {| metadata := extract_metadata full_article "10";
                                   page_content :=
                                     extract_body full_article |} ]}.
Proof. vm_compute. repeat split; reflexivity. Qed.

Example total_batch_failure :
  fetch_pmcids_from_pmids offline ["1"; "2"] =
  {| failed_pmids := ["1"; "2"]; multiple_pmcids_map := ∅;
     retrieved_documents := ∅ |}.
Proof. reflexivity. Qed.




Example ambiguous_fixture :
  retrieved_documents (fetch_pmcids_from_pmids (ambiguous true) ["123"]) !! "123" =
  Some {| metadata := <["PMCID" := Some "PMC1"]> (extract_metadata full_article "1");
          page_content := extract_body full_article |}.
Proof. vm_compute. reflexivity. Qed.

End DownloaderSpec.

(** ** Checkpoints and the download script *)

Module CheckpointSpec.
Import PyStr XmlParser Downloader Checkpoint StrFacts Fixtures.

#[local] Set Warnings "-clear-no-such-hyp".

Lemma length_append (s t : string) :
  String.length (s +:+ t) = String.length s + String.length t.
Proof. induction s as [|a s IH]; [done|]. rewrite append_cons. simpl. by rewrite IH. Qed.

Lemma append_inj_r (s t u : string) : s +:+ u = t +:+ u -> s = t.
Proof.
  revert t. induction s as [|a s IH]; intros [|b t] H.
  - done.
  - apply (f_equal String.length) in H.
    rewrite append_nil_l, append_cons in H. simpl in H.
    rewrite length_append in H. lia.
  - apply (f_equal String.length) in H.
    rewrite append_nil_l, append_cons in H. simpl in H.
    rewrite length_append in H. lia.
  - rewrite !append_cons in H. injection H as -> H. f_equal. by apply IH.
Qed.

(** Two checkpoint file names are equal only for the same collection
    and the same index. *)
Lemma checkpoint_filename_inj (n1 n2 : string) (j k : Z) :
  n1 ∈ ["documents"; "failed_pmids"; "multiple_pmcids"] ->
  n2 ∈ ["documents"; "failed_pmids"; "multiple_pmcids"] ->
  checkpoint_filename n1 j = checkpoint_filename n2 k ->
  n1 = n2 /\ j = k.
Proof.
  intros H1 H2. unfold checkpoint_filename.
  repeat (apply elem_of_cons in H1 as [->|H1]); [| | |by apply elem_of_nil in H1];
    (repeat (apply elem_of_cons in H2 as [->|H2]); [| | |by apply elem_of_nil in H2]);
    cbv [String.append]; fold String.append; intros H; try discriminate H;
    (split; [done|]); simplify_eq;
    match goal with
    | H : _ +:+ ".pkl" = _ +:+ ".pkl" |- _ =>
        apply append_inj_r in H; by apply (inj pretty) in H
    end.
Qed.

Lemma final_not_checkpoint (f : string) (k : Z) :
  f ∈ final_filenames -> f ∉ checkpoint_filenames k.
Proof.
  unfold final_filenames, checkpoint_filenames, checkpoint_filename.
  intros Hf Hk. cbn [map] in Hk.
  repeat (apply elem_of_cons in Hf as [->|Hf]); [| | |by apply elem_of_nil in Hf];
    (repeat (apply elem_of_cons in Hk as [Hk|Hk]); [| | |by apply elem_of_nil in Hk]);
    revert Hk; cbv [String.append]; fold String.append; discriminate.
Qed.

Section manager.
Variable pickle_dumps : PyObj -> list Byte.byte.

(** [save_checkpoint] touches the three files named after its index
    and no other. *)
Lemma save_checkpoint_files (k n : Z) documents failed multiple (d : Disk) :
  files (save_checkpoint pickle_dumps k n documents failed multiple d) =
  <[checkpoint_filename "multiple_pmcids" k := pickle_dumps (ObjMultiple multiple)]>
    (<[checkpoint_filename "failed_pmids" k := pickle_dumps (ObjList failed)]>
       (<[checkpoint_filename "documents" k := pickle_dumps (ObjDocuments documents)]>
          (files d))).
Proof. reflexivity. Qed.

Lemma save_checkpoint_frame (k n : Z) documents failed multiple (d : Disk) f :
  f ∉ checkpoint_filenames k ->
  files (save_checkpoint pickle_dumps k n documents failed multiple d) !! f =
  files d !! f.
Proof.
  intros Hf. rewrite save_checkpoint_files.
  unfold checkpoint_filenames in Hf. cbn [map] in Hf.
  rewrite !lookup_insert_ne; [done|set_solver..].
Qed.

Lemma save_checkpoint_written (k n : Z) documents failed multiple (d : Disk) :
  let d' := save_checkpoint pickle_dumps k n documents failed multiple d in
  files d' !! checkpoint_filename "documents" k =
    Some (pickle_dumps (ObjDocuments documents)) /\
  files d' !! checkpoint_filename "failed_pmids" k =
    Some (pickle_dumps (ObjList failed)) /\
  files d' !! checkpoint_filename "multiple_pmcids" k =
    Some (pickle_dumps (ObjMultiple multiple)).
Proof.
  cbv zeta. rewrite save_checkpoint_files.
  assert (Hne : forall n1 n2,
            n1 ∈ ["documents"; "failed_pmids"; "multiple_pmcids"] ->
            n2 ∈ ["documents"; "failed_pmids"; "multiple_pmcids"] ->
            n1 ≠ n2 -> checkpoint_filename n1 k ≠ checkpoint_filename n2 k).
  { intros n1 n2 H1 H2 Hn H. by destruct (checkpoint_filename_inj _ _ _ _ H1 H2 H). }
  repeat split.
  - rewrite !lookup_insert_ne by (apply Hne; [set_solver..|done]).
    by rewrite lookup_insert_eq.
  - rewrite !lookup_insert_ne by (apply Hne; [set_solver..|done]).
    by rewrite lookup_insert_eq.
  - by rewrite lookup_insert_eq.
Qed.

Lemma other_index_not_written (j k : Z) f :
  j ≠ k -> f ∈ checkpoint_filenames j -> f ∉ checkpoint_filenames k.
Proof.
  intros Hjk Hj Hk. unfold checkpoint_filenames in Hj, Hk.
  apply list_elem_of_fmap in Hj as (n1 & -> & H1).
  apply list_elem_of_fmap in Hk as (n2 & Heq & H2).
  by destruct (checkpoint_filename_inj _ _ _ _ H1 H2 Heq).
Qed.
End manager.

(** C9. For two different batch indices [j] and [k], a call of
    [save_checkpoint] at index [k] writes no file but the three whose
    names carry [k], and the three files the earlier call at index [j]
    wrote still hold, byte for byte, what that call wrote. *)
Theorem save_checkpoint_keeps_earlier (pickle_dumps : PyObj -> list Byte.byte)
  (j k nj nk : Z) (documents_j documents_k : gmap string Document)
  (failed_j failed_k : list string) (multiple_j multiple_k : gmap string (list string))
  (d : Disk) :
  j ≠ k ->
  let d1 := save_checkpoint pickle_dumps j nj documents_j failed_j multiple_j d in
  let d2 := save_checkpoint pickle_dumps k nk documents_k failed_k multiple_k d1 in
  (forall f, f ∉ checkpoint_filenames k -> files d2 !! f = files d1 !! f) /\
  (forall f, f ∈ checkpoint_filenames j -> files d2 !! f = files d1 !! f) /\
  files d2 !! checkpoint_filename "documents" j =
    Some (pickle_dumps (ObjDocuments documents_j)) /\
  files d2 !! checkpoint_filename "failed_pmids" j =
    Some (pickle_dumps (ObjList failed_j)) /\
  files d2 !! checkpoint_filename "multiple_pmcids" j =
    Some (pickle_dumps (ObjMultiple multiple_j)).
Proof.
  intros Hjk. cbv zeta.
  assert (Hframe : forall f, f ∈ checkpoint_filenames j ->
            files (save_checkpoint pickle_dumps k nk documents_k failed_k multiple_k
                     (save_checkpoint pickle_dumps j nj documents_j failed_j
                        multiple_j d)) !! f =
            files (save_checkpoint pickle_dumps j nj documents_j failed_j
                     multiple_j d) !! f).
  { intros f Hf. apply save_checkpoint_frame.
    by apply (other_index_not_written j k). }
  split; [intros f Hf; by apply save_checkpoint_frame|].
  split; [exact Hframe|].
  destruct (save_checkpoint_written pickle_dumps j nj documents_j failed_j
              multiple_j d) as (H1 & H2 & H3).
  cbv zeta in H1, H2, H3.
  rewrite !Hframe by (unfold checkpoint_filenames; cbn [map]; set_solver).
  done.
Qed.

(** C9 at checkpoint 0 followed by checkpoint 1 with one more document. *)
Lemma save_checkpoint_keeps_earlier_witness :
  let doc := {| metadata := ∅; page_content := "text" |} in
  let d1 := save_checkpoint toy_pickle 0 2 {[ "1" := doc ]} ["3"] ∅ empty_disk in
  let d2 := save_checkpoint toy_pickle 1 2 {[ "1" := doc; "2" := doc ]} ["3"] ∅ d1 in
  files d2 !! "documents_checkpoint_0.pkl" = files d1 !! "documents_checkpoint_0.pkl" /\
  files d2 !! "documents_checkpoint_0.pkl" = Some [Byte.x00; Byte.x2a] /\
  files d2 !! "documents_final.pkl" = files d1 !! "documents_final.pkl".
Proof.
  cbv zeta.
  destruct (save_checkpoint_keeps_earlier toy_pickle 0 1 2 2
              {[ "1" := {| metadata := ∅; page_content := "text" |} ]}
              {[ "1" := {| metadata := ∅; page_content := "text" |};
                 "2" := {| metadata := ∅; page_content := "text" |} ]}
              ["3"] ["3"] ∅ ∅ empty_disk ltac:(lia)) as (Hk & Hj & Hdoc & _).
  split; [|split].
  - apply Hj. vm_compute. left.
  - exact Hdoc.
  - apply Hk. apply final_not_checkpoint. vm_compute. left.
Defined.

Section script.
Variable pickle_dumps : PyObj -> list Byte.byte.

(** The progress callback leaves the final-result files alone. *)
Lemma progress_callback_final (args : Args) i total documents failed multiple
  (d d' : Disk) f :
  f ∈ final_filenames ->
  progress_callback pickle_dumps args i total documents failed multiple d = Some d' ->
  files d' !! f = files d !! f.
Proof.
  intros Hf. unfold progress_callback.
  repeat case_bool_decide; intros [= <-]; try done;
    by apply save_checkpoint_frame, final_not_checkpoint.
Qed.

Lemma drain_final (args : Args) (worker : list string -> option BatchResult)
  total i completed totals (d : Disk) f :
  f ∈ final_filenames ->
  files (snd (drain worker (Some (progress_callback pickle_dumps args))
                total i completed (totals, d))) !! f = files d !! f.
Proof.
  intros Hf. revert i totals d.
  induction completed as [|batch rest IH]; intros i totals d; cbn [drain]; [done|].
  unfold merge_batch. destruct (worker batch) as [res|]; [|apply IH].
  destruct (progress_callback _ _ _ _ _ _ _ _) as [d'|] eqn:Hcb; [|apply IH].
  rewrite IH. by eapply progress_callback_final.
Qed.
End script.

(** C5, what the code does. When the interrupt arrives during the
    download phase of a run on a non-empty identifier list, [main]
    returns 1, and the three final-result files are exactly as they
    were before [main] started: [save_final_results] is not called,
    whatever had been accumulated. *)
Theorem main_interrupted (pickle_dumps : PyObj -> list Byte.byte)
  (client : Remote) (args : Args) (id_list : list string) (order : list nat)
  (n : nat) (clock_line : string) (d : Disk) :
  id_list ≠ [] ->
  let result := main pickle_dumps client args id_list order (Some n) clock_line d in
  fst result = 1%Z /\
  (forall f, f ∈ final_filenames -> files (snd result) !! f = files d !! f).
Proof.
  intros Hne. cbv zeta. unfold main.
  destruct id_list as [|id0 ids]; [done|].
  unfold download_batch_parallel.
  destruct (make_batches (id0 :: ids) (batch_size args)) as [batches|]; [|by split].
  destruct (decide (threads args <= 0)%Z); [by split|].
  match goal with
  | |- context [drain ?w ?cb ?t 0 ?c (empty_batch, ?d0)] =>
      pose proof (fun f Hf => drain_final pickle_dumps args w t 0 c empty_batch d0 f Hf)
        as Hfinal;
      destruct (drain w cb t 0 c (empty_batch, d0)) as [totals d']
  end.
  cbn [fst snd files print] in *. split; [done|].
  intros f Hf. by rewrite (Hfinal f Hf).
Qed.

(** The run of the end-to-end scenario, with one identifier per batch,
    interrupted after the first completed batch: exit code 1, checkpoint
    0 is on disk, no final-result file is; the same run left alone
    exits with 0 and writes the final results. *)
Lemma main_interrupted_witness :
  let stopped :=
    main toy_pickle end_to_end small_run ["1"; "2"] [0; 1] (Some 1) "" empty_disk in
  let finished :=
    main toy_pickle end_to_end small_run ["1"; "2"] [0; 1] None "" empty_disk in
  fst stopped = 1%Z /\
  files (snd stopped) !! "documents_final.pkl" = None /\
  files (snd stopped) !! "documents_checkpoint_0.pkl" = Some [Byte.x00; Byte.x2a] /\
  fst finished = 0%Z /\
  files (snd finished) !! "documents_final.pkl" = Some [Byte.x00; Byte.x2a] /\
  files (snd finished) !! "failed_pmids_final.pkl" = Some [Byte.x01; Byte.x2a].
Proof.
  cbv zeta.
  destruct (main_interrupted toy_pickle end_to_end small_run ["1"; "2"] [0; 1] 1 ""
              empty_disk ltac:(done)) as [Hcode Hfiles].
  split; [exact Hcode|]. split.
  - rewrite Hfiles; [reflexivity|]. vm_compute. left.
  - vm_compute. repeat split; reflexivity.
Defined.

End CheckpointSpec.

(** ** The XML article parser: the remaining functions *)

Module XmlParserMore.
Import PyStr ET XmlParser StrFacts Fixtures.

#[local] Set Warnings "-clear-no-such-hyp".

(** Induction over an element with the property known for its children. *)
Lemma Element_children_ind (P : Element -> Prop) :
  (forall t a tx tl cs, Forall P cs -> P (Elem t a tx tl cs)) ->
  forall e, P e.
Proof.
  intros H.
  refine (fix IH (e : Element) : P e :=
            match e with
            | Elem t a tx tl cs =>
                H t a tx tl cs
                  ((fix go (cs : list Element) : Forall P cs :=
                      match cs with
                      | [] => @List.Forall_nil _ P
                      | c :: cs' => @List.Forall_cons _ P c cs' (IH c) (go cs')
                      end) cs)
            end).
Qed.

Lemma iter_unfold (e : Element) : iter e = e :: flat_map iter (children e).
Proof. by destruct e. Qed.

(** What [e.iter()] reaches from an element it yields, it yields itself. *)
Lemma iter_trans (e x y : Element) : In x (iter e) -> In y (iter x) -> In y (iter e).
Proof.
  revert x y. induction e as [t a tx tl cs IH] using Element_children_ind.
  intros x y Hx Hy. rewrite iter_unfold in Hx |- *. cbn [children] in *.
  destruct Hx as [<-|Hx].
  - by rewrite iter_unfold in Hy.
  - right. rewrite in_flat_map in Hx. destruct Hx as (c & Hc & Hx).
    apply in_flat_map. exists c. split; [done|].
    rewrite Forall_forall in IH.
    eapply (IH c); [by apply list_elem_of_In|exact Hx|exact Hy].
Qed.

Lemma descendant_trans (e x y : Element) :
  In x (flat_map iter (children e)) -> In y (flat_map iter (children x)) ->
  In y (flat_map iter (children e)).
Proof.
  intros Hx Hy. rewrite in_flat_map in Hx. destruct Hx as (c & Hc & Hx).
  apply in_flat_map. exists c. split; [done|].
  apply (iter_trans c x y Hx). rewrite iter_unfold. by right.
Qed.

Lemma head_filter_Some {A : Type} (p : A -> bool) (l : list A) (x : A) :
  head (List.filter p l) = Some x -> In x l /\ p x = true.
Proof.
  intros H. assert (In x (List.filter p l)) as Hin.
  { destruct (List.filter p l); [done|]. injection H as ->. by left. }
  by apply filter_In in Hin.
Qed.

Lemma head_filter_None {A : Type} (p : A -> bool) (l : list A) :
  head (List.filter p l) = None <-> forall x, In x l -> p x = false.
Proof.
  split.
  - intros H x Hx. destruct (p x) eqn:Hp; [|done].
    assert (In x (List.filter p l)) as Hin by (apply filter_In; auto).
    by destruct (List.filter p l).
  - intros H. destruct (List.filter p l) as [|x l'] eqn:Hl; [done|].
    assert (In x (List.filter p l)) as Hin by (rewrite Hl; by left).
    apply filter_In in Hin as [Hin Hp]. rewrite (H x Hin) in Hp. done.
Qed.

Lemma find_desc_None_inside (t : string) (e x : Element) :
  find_desc t e = None -> In x (flat_map iter (children e)) -> find_desc t x = None.
Proof.
  unfold find_desc, findall_desc. rewrite !head_filter_None.
  intros H Hx y Hy. apply H. by apply (descendant_trans e x y).
Qed.

Lemma extract_article_root_eq (root : Element) :
  extract_article_root root =
    (if bool_decide (tag root = "article") then Some root
     else find_desc "article" root).
Proof.
  unfold extract_article_root. case_bool_decide; [done|].
  destruct (find_desc "article" root) eqn:Hart; [done|].
  destruct (find_desc "pmc-articleset" root) as [pmc_set|] eqn:Hset; [|done].
  apply (find_desc_None_inside "article" root pmc_set Hart).
  unfold find_desc, findall_desc in Hset.
  by apply head_filter_Some in Hset as [? _].
Qed.

Lemma extract_article_root_Some (root article : Element) :
  extract_article_root root = Some article ->
  tag article = "article" /\ In article (iter root).
Proof.
  rewrite extract_article_root_eq. case_bool_decide as Hroot.
  - intros [= <-]. split; [done|]. rewrite iter_unfold. by left.
  - unfold find_desc, findall_desc. intros [Hin Htag]%head_filter_Some.
    unfold has_tag in Htag. apply bool_decide_eq_true in Htag.
    split; [done|]. rewrite iter_unfold. by right.
Qed.

Lemma extract_article_root_None (root : Element) :
  extract_article_root root = None <->
  forall x, In x (iter root) -> tag x ≠ "article".
Proof.
  rewrite extract_article_root_eq. case_bool_decide as Hroot.
  - split; [done|]. intros H. exfalso. apply (H root); [|done].
    rewrite iter_unfold. by left.
  - unfold find_desc, findall_desc. rewrite head_filter_None. split.
    + intros H x Hx. rewrite iter_unfold in Hx. destruct Hx as [<-|Hx]; [done|].
      specialize (H x Hx). unfold has_tag in H.
      by apply bool_decide_eq_false in H.
    + intros H x Hx. unfold has_tag. apply bool_decide_eq_false.
      apply H. rewrite iter_unfold. by right.
Qed.

(** X1. [extract_article_root] returns the root when the root is tagged
    [article], and otherwise the first descendant tagged [article]; the
    third step, the search below a [pmc-articleset] element, never
    finds an article the second step did not find. So the element
    returned is always tagged [article] and lies in the tree, and the
    result is [None] exactly when no element of the tree, root
    included, is tagged [article]. *)
Theorem extract_article_root_first_article (root : Element) :
  extract_article_root root =
    (if bool_decide (tag root = "article") then Some root
     else find_desc "article" root) /\
  (forall article, extract_article_root root = Some article ->
     tag article = "article" /\ In article (iter root)) /\
  (extract_article_root root = None <->
   forall x, In x (iter root) -> tag x ≠ "article").
Proof.
  split; [apply extract_article_root_eq|].
  split; [apply extract_article_root_Some|apply extract_article_root_None].
Qed.

(** X1 at an article inside a [pmc-articleset] and at an error payload. *)
Lemma extract_article_root_first_article_witness :
  (tag full_article = "article" /\ In full_article (iter article_set)) /\
  extract_article_root error_payload = None.
Proof.
  split.
  - apply (proj1 (proj2 (extract_article_root_first_article article_set))).
    reflexivity.
  - apply (proj2 (proj2 (extract_article_root_first_article error_payload))).
    intros x [<-|[]]. done.
Defined.

Lemma page_content_blocks (a b c d e : string) :
  (((("" +:+ a) +:+ b) +:+ c) +:+ d) +:+ e = a +:+ b +:+ c +:+ d +:+ e.
Proof. by rewrite append_nil_l, !append_assoc. Qed.

(** X2. [parse_pmc_xml] returns no document exactly when the payload
    does not parse or the parsed tree holds no element tagged
    [article]. A document it returns is built from an [article] element
    of the tree: its metadata is that element's metadata for the given
    identifier, with the PMC link built from that identifier, and its
    content is the abstract block, the body, the table block, the
    figure block and the reference block, in this order. *)
Theorem parse_pmc_xml_document (parsed : option Element) (pmcid : string) :
  (parse_pmc_xml parsed pmcid = None <->
   parsed = None \/
   exists root, parsed = Some root /\
                forall x, In x (iter root) -> tag x ≠ "article") /\
  (forall doc, parse_pmc_xml parsed pmcid = Some doc ->
     exists root article,
       parsed = Some root /\ In article (iter root) /\ tag article = "article" /\
       metadata doc = extract_metadata article pmcid /\
       metadata doc !! "PMC Link" =
         Some (Some ("https://www.ncbi.nlm.nih.gov/pmc/articles/PMC" +:+ pmcid +:+ "/")) /\
       page_content doc =
         extract_abstract article +:+ extract_body article +:+
         extract_tables article +:+ extract_figures article +:+
         extract_references article).
Proof.
  unfold parse_pmc_xml. destruct parsed as [root|].
  2: { split; [split; [by left|done]|done]. }
  destruct (extract_article_root root) as [article|] eqn:Hroot.
  - split.
    + split; [done|]. intros [[=]|(r & [= <-] & Hno)].
      apply extract_article_root_None in Hno. congruence.
    + intros doc [= <-]. exists root, article.
      apply extract_article_root_Some in Hroot as [Htag Hin].
      repeat split; try done.
      * apply XmlParserSpec.metadata_unconditional.
      * cbn [page_content]. apply page_content_blocks.
  - split; [|done]. split; [|done]. intros _. right. exists root.
    split; [done|]. by apply extract_article_root_None.
Qed.

(** X2 at the error payload and at the article set. *)
Lemma parse_pmc_xml_document_witness :
  parse_pmc_xml (Some error_payload) "77" = None /\
  (exists doc, parse_pmc_xml (Some article_set) "77" = Some doc /\
     metadata doc !! "PMC Link" =
       Some (Some "https://www.ncbi.nlm.nih.gov/pmc/articles/PMC77/")).
Proof.
  split.
  - apply (proj1 (parse_pmc_xml_document (Some error_payload) "77")).
    right. exists error_payload. split; [reflexivity|].
    intros x [<-|[]]. done.
  - destruct (parse_pmc_xml (Some article_set) "77") as [doc|] eqn:Hdoc;
      [|vm_compute in Hdoc; discriminate Hdoc].
    exists doc. split; [reflexivity|].
    destruct (proj2 (parse_pmc_xml_document (Some article_set) "77") doc Hdoc)
      as (root & article & _ & _ & _ & _ & Hlink & _).
    exact Hlink.
Defined.



Example extract_references_rich :
  extract_references rich_article =
  "REFERENCES:" +:+ nl +:+ "1. Alpha 2001" +:+ nl +:+ "2. Beta 2002" +:+ nl.
Proof. vm_compute. reflexivity. Qed.



(** X5. [extract_body] returns the empty text for an article without a
    body element. Otherwise it returns the text of all section children
    of the body, extracted at depth 1 in document order, followed by the
    text of all paragraph children of the body: a top-level paragraph
    that precedes a section in the document follows it in the output. *)
Theorem extract_body_sections_first (article : Element) :
  extract_body article =
    match find_desc "body" article with
    | None => ""
    | Some body =>
        concat_str (map (fun section => extract_sections section 1)
                        (findall_child "sec" body)) +:+
        concat_str (map (fun p => strip (join "" (itertext p)) +:+ nl +:+ nl)
                        (findall_child "p" body))
    end.
Proof.
  unfold extract_body. destruct (find_desc "body" article) as [body|]; [|done].
  cbv zeta.
  rewrite (fold_left_append (fun s => extract_sections s 1)).
  rewrite (fold_left_append paragraph_text). by rewrite append_nil_l.
Qed.

Example extract_body_rich :
  extract_body rich_article =
  " # Methods" +:+ nl +:+ "We did." +:+ nl +:+ nl +:+
  " # Results" +:+ nl +:+ " # # Details" +:+ nl +:+ "Fine." +:+ nl +:+ nl +:+
  "Lead." +:+ nl +:+ nl.
Proof. vm_compute. reflexivity. Qed.

(** An invariant of the accumulator survives a loop. *)
Lemma fold_left_invariant {A B : Type} (Q : B -> Prop) (f : B -> A -> B)
  (xs : list A) (b : B) :
  (forall b x, Q b -> Q (f b x)) -> Q b -> Q (fold_left f xs b).
Proof.
  intros Hf. revert b. induction xs as [|x xs IH]; intros b Hb; simpl; auto.
Qed.

Lemma nonempty_ne (s : string) : nonempty s = true -> s ≠ "".
Proof. by destruct s. Qed.

Lemma truthy_ne (o : option string) : truthy o = true -> str_opt o ≠ "".
Proof. by destruct o as [[|??]|]. Qed.

Lemma append_ne_r (s t : string) : t ≠ "" -> s +:+ t ≠ "".
Proof. destruct s; [done|]. by rewrite append_cons. Qed.

(** X6. In the mapping from section name to text that
    [get_pmc_full_text] fills, no key is the empty string and no text is
    empty; for an article without a body element the mapping is empty. *)
Theorem full_text_entries_nonempty (article_tag : Element) :
  (forall name text,
     get_pmc_full_text article_tag !! name = Some text -> name ≠ "" /\ text ≠ "") /\
  (find_desc "body" article_tag = None -> get_pmc_full_text article_tag = ∅).
Proof.
  split.
  - set (Q := fun m : gmap string string =>
                map_Forall (fun name text => name ≠ "" /\ text ≠ "") m).
    assert (Hsections : forall body, Q (full_text_sections body)).
    { intros body. unfold full_text_sections.
      apply (fold_left_invariant Q); [|apply map_Forall_empty].
      intros m top_sec Hm.
      destruct (extract_section top_sec) as [section_name section_text].
      apply (fold_left_invariant Q).
      - intros m' subsec Hm'.
        destruct (extract_section subsec) as [subsection_name subsection_text].
        destruct (truthy subsection_name && nonempty subsection_text) eqn:Hc; [|done].
        apply andb_true_iff in Hc as [Hn Ht].
        apply map_Forall_insert_2; [|done]. split; [|by apply nonempty_ne].
        apply append_ne_r. by apply append_ne_r, truthy_ne.
      - destruct (truthy section_name && nonempty section_text) eqn:Hc; [|done].
        apply andb_true_iff in Hc as [Hn Ht].
        apply map_Forall_insert_2; [|done].
        split; [by apply truthy_ne|by apply nonempty_ne]. }
    assert (Hall : Q (get_pmc_full_text article_tag)).
    { unfold get_pmc_full_text.
      destruct (find_desc "body" article_tag) as [body|]; [|apply map_Forall_empty].
      cbv zeta. case_bool_decide; [|apply Hsections].
      destruct (nonempty _) eqn:Hne; [|apply Hsections].
      apply map_Forall_insert_2; [|apply Hsections].
      split; [done|by apply nonempty_ne]. }
    intros name text Hl. exact (Hall name text Hl).
  - intros Hbody. unfold get_pmc_full_text. by rewrite Hbody.
Qed.

(** X6 at an article with titled sections and at one without a body. *)
Lemma full_text_entries_nonempty_witness :
  ("Methods" ≠ "" /\ "We did." +:+ nl +:+ nl ≠ "") /\
  get_pmc_full_text bare_article = ∅.
Proof.
  split.
  - apply (proj1 (full_text_entries_nonempty rich_article)).
    vm_compute. reflexivity.
  - apply (proj2 (full_text_entries_nonempty bare_article)). reflexivity.
Defined.

Example full_text_rich :
  get_pmc_full_text rich_article =
  {[ "Methods" := "We did." +:+ nl +:+ nl;
     "Results - Details" := "Fine." +:+ nl +:+ nl ]}.
Proof. vm_compute. reflexivity. Qed.

Lemma dom_assigned_if_found {A B : Type} (o : option A) (f : A -> B)
  (k : string) (m : gmap string B) :
  dom (match o with Some x => <[k := f x]> m | None => m end) =
  match o with Some _ => {[ k ]} | None => ∅ end ∪ dom m.
Proof. destruct o; [by rewrite dom_insert_L|set_solver]. Qed.

(** X7. The keys of the mapping [extract_metadata] returns are the four
    fixed keys, together with ['Journal'], ['Title'] and
    ['Year Published'] for those of the three nodes that are found, and
    no others; so the mapping has between four and seven entries. *)
Theorem extract_metadata_keys (article : Element) (pmcid : string) :
  let m := extract_metadata article pmcid in
  dom m =
    {[ "Article Type"; "DOI"; "PubMed Link"; "PMC Link" ]} ∪
    match find_desc "journal-title" article with
    | Some _ => {[ "Journal" ]} | None => ∅
    end ∪
    match find_desc "article-title" article with
    | Some _ => {[ "Title" ]} | None => ∅
    end ∪
    match find_desc_child "pub-date" "year" article with
    | Some _ => {[ "Year Published" ]} | None => ∅
    end /\
  4 <= size m <= 7.
Proof.
  cbv zeta.
  assert (Hdom : dom (extract_metadata article pmcid) =
    {[ "Article Type"; "DOI"; "PubMed Link"; "PMC Link" ]} ∪
    match find_desc "journal-title" article with
    | Some _ => {[ "Journal" ]} | None => ∅
    end ∪
    match find_desc "article-title" article with
    | Some _ => {[ "Title" ]} | None => ∅
    end ∪
    match find_desc_child "pub-date" "year" article with
    | Some _ => {[ "Year Published" ]} | None => ∅
    end).
  { unfold extract_metadata. cbv zeta.
    rewrite (dom_assigned_if_found (find_desc_child "pub-date" "year" article)).
    rewrite (dom_assigned_if_found (find_desc "article-title" article)
               (fun t => Some (join "" (itertext t)))).
    rewrite (dom_assigned_if_found (find_desc "journal-title" article)).
    rewrite dom_insert_L.
    assert (forall m' : gmap string (option string),
              dom m' = {[ "PubMed Link"; "DOI"; "Article Type" ]} ->
              {[ "PMC Link" ]} ∪ dom m' =@{gset string}
              {[ "Article Type"; "DOI"; "PubMed Link"; "PMC Link" ]}) as Hfour
      by (intros m' ->; set_solver).
    rewrite Hfour; [set_solver|].
    destruct (find_desc_attr "article-id" "pub-id-type" "pmid" article);
      rewrite !dom_insert_L, dom_empty_L; set_solver. }
  split; [exact Hdom|]. rewrite <- size_dom, Hdom.
  destruct (find_desc "journal-title" article),
           (find_desc "article-title" article),
           (find_desc_child "pub-date" "year" article); vm_compute; lia.
Qed.

End XmlParserMore.

(** ** The retrying clients: bounds that hold for every call *)

Module RetryMore.
Import PyStr PyMore Retry RetryObs Fixtures.

Section safe_call.
Context {A : Type} (self : NCBIClient) (func : wrapped A).

(** Either every one of the first [n] invocations raises, or there is a
    first one that returns. *)
Lemma first_return (n : nat) :
  (forall k, k < n -> exists e, invoke func k = Raises e) \/
  (exists k a, k < n /\ invoke func k = Returns a /\
               forall j, j < k -> exists e, invoke func j = Raises e).
Proof.
  induction n as [|n [IH|(k & a & Hk & Ha & Hbefore)]].
  - left. lia.
  - destruct (invoke func n) as [a|e] eqn:Hn.
    + right. exists n, a. split; [lia|]. split; [done|]. intros j Hj. apply IH. lia.
    + left. intros k Hk. destruct (decide (k = n)) as [->|]; [eauto|apply IH; lia].
  - right. exists k, a. split; [lia|done].
Qed.

Lemma safe_call_none_attempts :
  retry_attempts self = 0 -> safe_call self func = (None, []).
Proof. unfold safe_call. by intros ->. Qed.

Lemma safe_call_all_raise :
  0 < retry_attempts self ->
  (forall k, k < retry_attempts self -> exists e, invoke func k = Raises e) ->
  safe_call self func =
    (None,
     flat_map (retry_round self func) (seq 0 (retry_attempts self - 1)) ++
     [Call (retry_attempts self - 1);
      Log (failed_line self (func_name func)
             (exn_text func (retry_attempts self - 1)))]).
Proof.
  intros Hpos Hfail. unfold safe_call.
  assert (Hseq : seq 0 (retry_attempts self) =
                 seq 0 (retry_attempts self - 1) ++ [retry_attempts self - 1]).
  { destruct (retry_attempts self) as [|m]; [lia|].
    replace (S m - 1) with m by lia. by rewrite seq_S. }
  rewrite Hseq.
  rewrite RetrySpec.safe_call_loop_retries; [|intros; apply Hfail; lia|lia].
  simpl. destruct (Hfail (retry_attempts self - 1) ltac:(lia)) as [e He].
  unfold exn_text. rewrite He, Nat.ltb_irrefl. reflexivity.
Qed.

Lemma safe_call_first_return (k : nat) (a : A) :
  k < retry_attempts self ->
  (forall j, j < k -> exists e, invoke func j = Raises e) ->
  invoke func k = Returns a ->
  safe_call self func =
    (Some a, flat_map (retry_round self func) (seq 0 k) ++ [Call k]).
Proof.
  intros Hk Hfail Hok. unfold safe_call.
  replace (retry_attempts self) with (k + S (retry_attempts self - S k)) at 1 by lia.
  rewrite seq_app. simpl seq.
  rewrite RetrySpec.safe_call_loop_retries; [|intros; apply Hfail; lia|lia].
  simpl. rewrite Hok. reflexivity.
Qed.

Lemma calls_rounds (i m : nat) (rest : list event) :
  calls (flat_map (retry_round self func) (seq i m) ++ rest) = m + calls rest.
Proof.
  unfold calls. rewrite List.filter_app, length_app, RetrySpec.calls_of_rounds.
  by rewrite length_map, length_seq.
Qed.

Lemma sum_nat_app (xs ys : list nat) : sum_nat (xs ++ ys) = sum_nat xs + sum_nat ys.
Proof. induction xs as [|x xs IH]; simpl; [done|]. rewrite IH. lia. Qed.

Lemma sleeps_rounds (i m : nat) :
  sleeps (flat_map (retry_round self func) (seq i m)) = repeat (retry_delay self) m.
Proof.
  revert i. induction m as [|m IH]; intros i; [done|].
  cbn [seq flat_map]. unfold sleeps in *. rewrite omap_app, IH. reflexivity.
Qed.

Lemma sleep_rounds (i m : nat) (rest : list event) :
  total_sleep (flat_map (retry_round self func) (seq i m) ++ rest) =
  m * retry_delay self + total_sleep rest.
Proof.
  unfold total_sleep. unfold sleeps at 1. rewrite omap_app.
  fold (sleeps (flat_map (retry_round self func) (seq i m))). fold (sleeps rest).
  rewrite sleeps_rounds, sum_nat_app. f_equal.
  induction m as [|m IH]; simpl; [done|]. rewrite IH. lia.
Qed.

(** The lines printed before a retry are not the failure line. *)
Lemma rounds_never_give_up (i m : nat) :
  ~ gave_up self func (flat_map (retry_round self func) (seq i m)).
Proof.
  intros (e & Hin). apply list_elem_of_In, in_flat_map in Hin as (k & _ & Hin).
  unfold retry_round in Hin. apply list_elem_of_In in Hin.
  repeat (apply elem_of_cons in Hin as [Heq|Hin]); [| | |by apply elem_of_nil in Hin];
    try discriminate.
Qed.
End safe_call.

(** X8. For every wrapped function, whatever its invocations do:
    [safe_call] invokes it at most [retry_attempts] times, and its
    back-off sleeps are [retry_delay] for each invocation but the last
    one it makes. It leaves through [return] with a value only when
    some invocation returns that value and all earlier ones raise; it
    prints the final failure line exactly when there is at least one
    attempt and all [retry_attempts] invocations raise; with zero
    attempts it does nothing at all. *)
Theorem safe_call_bounded {A : Type} (self : NCBIClient) (func : wrapped A) :
  let n := retry_attempts self in
  let result := fst (safe_call self func) in
  let trace := snd (safe_call self func) in
  calls trace <= n /\
  total_sleep trace = (calls trace - 1) * retry_delay self /\
  (forall a, result = Some a ->
     exists k, k < n /\ invoke func k = Returns a /\
               forall j, j < k -> exists e, invoke func j = Raises e) /\
  (gave_up self func trace <->
     0 < n /\ forall k, k < n -> exists e, invoke func k = Raises e) /\
  (n = 0 -> trace = []).
Proof.
  cbv zeta.
  destruct (first_return func (retry_attempts self))
    as [Hfail|(k & a & Hk & Ha & Hbefore)].
  - destruct (decide (retry_attempts self = 0)) as [H0|Hpos].
    + rewrite (safe_call_none_attempts self func H0). cbn [fst snd].
      split; [unfold calls; simpl; lia|]. split; [done|]. split; [done|].
      split; [|done]. split; [|lia].
      intros (e & Hin). by apply elem_of_nil in Hin.
    + rewrite (safe_call_all_raise self func ltac:(lia) Hfail). cbn [fst snd].
      rewrite calls_rounds, sleep_rounds.
      split; [unfold calls; simpl; lia|].
      split; [unfold calls, total_sleep; simpl; f_equal; lia|].
      split; [done|]. split; [|lia].
      split; [intros _; split; [lia|exact Hfail]|].
      intros _. exists (exn_text func (retry_attempts self - 1)).
      apply elem_of_app. right. set_solver.
  - rewrite (safe_call_first_return self func k a Hk Hbefore Ha). cbn [fst snd].
    rewrite calls_rounds, sleep_rounds.
    split; [unfold calls; simpl; lia|].
    split; [unfold calls, total_sleep; simpl; rewrite Nat.add_0_r; f_equal; lia|].
    split; [intros a' [= <-]; eauto|]. split; [|lia].
    split.
    + intros (e & Hin). apply elem_of_app in Hin as [Hin|Hin].
      * exfalso. apply (rounds_never_give_up self func 0 k). by exists e.
      * apply elem_of_cons in Hin as [Heq|Hin]; [discriminate|].
        by apply elem_of_nil in Hin.
    + intros [_ Hall]. destruct (Hall k Hk) as [e He]. congruence.
Qed.

(** X8 at the configured client, for the call that answers on its
    third attempt and for the call that always times out. *)
Lemma safe_call_bounded_witness :
  (exists k, k < 3 /\ invoke twice_429 k = Returns 200 /\
             forall j, j < k -> exists e, invoke twice_429 j = Raises e) /\
  gave_up NCBIClient_init always_timeout (snd (safe_call NCBIClient_init always_timeout)).
Proof.
  split.
  - apply (proj1 (proj2 (proj2 (safe_call_bounded NCBIClient_init twice_429)))).
    reflexivity.
  - apply (proj1 (proj2 (proj2 (proj2
             (safe_call_bounded NCBIClient_init always_timeout))))).
    split; [vm_compute; lia|].
    intros k _. eexists. reflexivity.
Defined.

(** To its caller, a wrapped function that answers with Python's [None]
    looks like one that never answered: the value received is [None]
    after a single call and without a failure line. *)
Example safe_call_answer_none :
  received (fst (safe_call NCBIClient_init answers_none)) = None /\
  snd (safe_call NCBIClient_init answers_none) = [Call 0].
Proof. split; reflexivity. Qed.

(** X9. When all three invocations raise, [safe_api_call] makes exactly
    three calls, follows each of the first two by its retry line and its
    sleep (five times the attempt number for a rate-limit text, two
    seconds otherwise), logs the final failure after the third without
    sleeping again, and returns [None]. *)
Theorem safe_api_call_exhausted {A : Type} (func : wrapped A) :
  (forall k, k < tries -> exists e, invoke func k = Raises e) ->
  safe_api_call func =
    (None,
     api_retry_round func 0 ++ api_retry_round func 1 ++
     [Call 2; Log (failed_api_line (func_name func) (exn_text func 2))]) /\
  calls (snd (safe_api_call func)) = 3.
Proof.
  intros Hfail.
  destruct (Hfail 0 ltac:(unfold tries; lia)) as [e0 H0].
  destruct (Hfail 1 ltac:(unfold tries; lia)) as [e1 H1].
  destruct (Hfail 2 ltac:(unfold tries; lia)) as [e2 H2].
  assert (Hrun : safe_api_call func =
    (None,
     api_retry_round func 0 ++ api_retry_round func 1 ++
     [Call 2; Log (failed_api_line (func_name func) (exn_text func 2))])).
  { unfold safe_api_call, api_retry_round, exn_text. simpl.
    rewrite H0, H1, H2. by destruct (rate_limited e0), (rate_limited e1). }
  split; [exact Hrun|]. rewrite Hrun. cbn [snd].
  unfold api_retry_round. by destruct (rate_limited _), (rate_limited _).
Qed.

(** X9 at a call that always times out. *)
Lemma safe_api_call_exhausted_witness :
  safe_api_call always_timeout =
    (None,
     [Call 0; Log "Retrying efetch (Error: timed out)"; Sleep 2;
      Call 1; Log "Retrying efetch (Error: timed out)"; Sleep 2;
      Call 2; Log "Failed efetch after 3 attempts (Error: timed out)"]).
Proof.
  refine (proj1 (safe_api_call_exhausted always_timeout _)).
  intros k _. eexists. reflexivity.
Defined.

(** No event of the given trace is the final failure line: each is a
    call, a sleep, or a line that begins differently. *)
Ltac no_failure_line H :=
  let e := fresh "e" in
  let Hin := fresh "Hin" in
  let Heq := fresh "Heq" in
  destruct H as (e & Hin);
  repeat (apply elem_of_cons in Hin as [Heq|Hin]; [discriminate Heq|]);
  by apply elem_of_nil in Hin.

(** X10. For every wrapped function, [safe_api_call] makes at most
    three calls, and its back-off sleeps, those of the exception
    handler, add up to at most fifteen seconds; the pacing wait that
    precedes each invocation is part of the call and is not counted.
    It leaves through [return] with a value only when an invocation
    returned that value, and it logs the final failure line exactly
    when all three invocations raised. *)
Theorem safe_api_call_bounded {A : Type} (func : wrapped A) :
  let result := fst (safe_api_call func) in
  let trace := snd (safe_api_call func) in
  calls trace <= 3 /\
  total_sleep trace <= 15 /\
  (forall a, result = Some a -> exists k, k < 3 /\ invoke func k = Returns a) /\
  (api_gave_up func trace <-> forall k, k < 3 -> exists e, invoke func k = Raises e).
Proof.
  cbv zeta. unfold safe_api_call. simpl.
  destruct (invoke func 0) as [a0|e0] eqn:H0.
  { cbn. split; [lia|]. split; [lia|].
    split; [intros a [= <-]; exists 0; split; [lia|done]|].
    split; [intros H; no_failure_line H|].
    intros Hall. destruct (Hall 0 ltac:(lia)) as [e He]. congruence. }
  destruct (invoke func 1) as [a1|e1] eqn:H1.
  { destruct (rate_limited e0); cbn; (split; [lia|]); (split; [lia|]);
      (split; [intros a [= <-]; exists 1; split; [lia|done]|]);
      (split; [intros H; no_failure_line H|]);
      intros Hall; destruct (Hall 1 ltac:(lia)) as [e He]; congruence. }
  destruct (invoke func 2) as [a2|e2] eqn:H2.
  { destruct (rate_limited e0), (rate_limited e1); cbn;
      (split; [lia|]); (split; [lia|]);
      (split; [intros a [= <-]; exists 2; split; [lia|done]|]);
      (split; [intros H; no_failure_line H|]);
      intros Hall; destruct (Hall 2 ltac:(lia)) as [e He]; congruence. }
  assert (forall k, k < 3 -> exists e, invoke func k = Raises e) as Hall.
  { intros [|[|[|k]]] Hk; eauto. lia. }
  destruct (rate_limited e0), (rate_limited e1); cbn;
    (split; [lia|]); (split; [lia|]); (split; [done|]);
    (split; [intros _; exact Hall|]);
    intros _; exists e2; do 7 apply list_elem_of_further; apply list_elem_of_here.
Qed.

(** X10 at the call that answers on its third attempt and at the call
    that always times out. *)
Lemma safe_api_call_bounded_witness :
  (exists k, k < 3 /\ invoke twice_429 k = Returns 200) /\
  api_gave_up always_timeout (snd (safe_api_call always_timeout)).
Proof.
  split.
  - apply (proj1 (proj2 (proj2 (safe_api_call_bounded twice_429)))).
    reflexivity.
  - apply (proj2 (proj2 (proj2 (safe_api_call_bounded always_timeout)))).
    intros k _. eexists. reflexivity.
Defined.

End RetryMore.

(** ** The batch fetcher: identifiers, sizes, batches, merge order *)

Module DownloaderMore.
Import PyStr PyMore ET XmlParser Downloader StrFacts Fixtures.
Import DownloaderSpec.

#[local] Set Warnings "-clear-no-such-hyp".

Lemma remove_PMC_other (a : ascii) (s : string) :
  a ≠ "P"%char -> remove_PMC (String a s) = String a (remove_PMC s).
Proof. intros Hne. destruct a as [[] [] [] [] [] [] [] []]; done. Qed.

Lemma remove_PMC_P_other (a : ascii) (s : string) :
  a ≠ "M"%char ->
  remove_PMC (String "P" (String a s)) = String "P" (remove_PMC (String a s)).
Proof. intros Hne. destruct a as [[] [] [] [] [] [] [] []]; done. Qed.

Lemma remove_PMC_PM_other (a : ascii) (s : string) :
  a ≠ "C"%char ->
  remove_PMC (String "P" (String "M" (String a s))) =
  String "P" (remove_PMC (String "M" (String a s))).
Proof. intros Hne. destruct a as [[] [] [] [] [] [] [] []]; done. Qed.

(** Where the text does not begin with [PMC], [replace] keeps the first
    character and goes on behind it. *)
Lemma remove_PMC_step (a : ascii) (s : string) :
  startswith "PMC" (String a s) = false ->
  remove_PMC (String a s) = String a (remove_PMC s).
Proof.
  intros Hs. destruct (decide (a = "P"%char)) as [->|Ha];
    [|by apply remove_PMC_other].
  destruct s as [|a2 s2]; [done|].
  destruct (decide (a2 = "M"%char)) as [->|Ha2]; [|by apply remove_PMC_P_other].
  destruct s2 as [|a3 s3]; [done|].
  destruct (decide (a3 = "C"%char)) as [->|Ha3]; [done|].
  by apply remove_PMC_PM_other.
Qed.

Lemma contains_false_inv (p : string) (a : ascii) (s : string) :
  contains p (String a s) = false ->
  startswith p (String a s) = false /\ contains p s = false.
Proof. simpl. by intros [??]%orb_false_iff. Qed.

Lemma remove_PMC_absent (s : string) : contains "PMC" s = false -> remove_PMC s = s.
Proof.
  induction s as [|a s IH]; [done|].
  intros [Hs Hc]%contains_false_inv.
  rewrite remove_PMC_step by done. by rewrite IH.
Qed.

(** X11. [download_article] gives the same result for an identifier
    with and without the [PMC] prefix, provided [PMC] does not occur
    in the rest of the identifier. *)
Theorem download_article_prefix (client : Remote) (number : string) :
  contains "PMC" number = false ->
  download_article client ("PMC" +:+ number) = download_article client number.
Proof.
  intros Hc. unfold download_article.
  change (startswith "PMC" ("PMC" +:+ number)) with true.
  change (remove_PMC ("PMC" +:+ number)) with (remove_PMC number).
  rewrite (remove_PMC_absent number Hc).
  destruct number as [|a s]; [done|].
  by apply contains_false_inv in Hc as [-> _].
Qed.

Lemma download_article_prefix_witness :
  download_article one_of_two "PMC10" = download_article one_of_two "10".
Proof. exact (download_article_prefix one_of_two "10" eq_refl). Defined.

(** X12. Every document [fetch_pmcids_from_pmids] stores carries, under
    ['PMCID'], a candidate identifier that begins with [PMC], and under
    ['PMC Link'] the link built from that identifier with every [PMC]
    removed; the entries for article type, DOI and PubMed link are
    present as well. *)
Theorem stored_document_identifiers (client : Remote) (pmid_batch : list string)
  (pmid : string) (document : Document) :
  retrieved_documents (fetch_pmcids_from_pmids client pmid_batch) !! pmid
    = Some document ->
  exists pmcid,
    startswith "PMC" pmcid = true /\
    metadata document !! "PMCID" = Some (Some pmcid) /\
    metadata document !! "PMC Link" =
      Some (Some ("https://www.ncbi.nlm.nih.gov/pmc/articles/PMC" +:+
                  remove_PMC pmcid +:+ "/")) /\
    is_Some (metadata document !! "Article Type") /\
    is_Some (metadata document !! "DOI") /\
    is_Some (metadata document !! "PubMed Link").
Proof.
  unfold fetch_pmcids_from_pmids.
  destruct (fetch_and_parse client (join "," pmid_batch)) as [articles|];
    [|cbn; by rewrite lookup_empty].
  intros Hd.
  apply run_docs_value in Hd as [Hd|(a & first & rest & doc & _ & _ & Hc & Hdl & ->)].
  { cbn in Hd. by rewrite lookup_empty in Hd. }
  assert (Hprefix : startswith "PMC" first = true).
  { unfold pmcids_of in Hc. destruct (art_ids a) as [ids|]; [|done].
    assert (In first (List.filter (startswith "PMC") ids)) as Hin
      by (rewrite Hc; by left).
    by apply filter_In in Hin as [_ ?]. }
  exists first. split; [done|].
  unfold download_article in Hdl. rewrite Hprefix in Hdl.
  destruct (fetch_pmc client (remove_PMC first)) as [xml|]; [|done].
  unfold parse_pmc_xml in Hdl. destruct xml as [root|]; [|done].
  destruct (extract_article_root root) as [article|]; [|done].
  injection Hdl as <-. cbn [set_PMCID metadata].
  destruct (XmlParserSpec.metadata_unconditional article (remove_PMC first))
    as (Ht & Hdoi & Hp & Hlink).
  rewrite lookup_insert_eq, !lookup_insert_ne by done. by rewrite Hlink.
Qed.

Lemma stored_document_identifiers_witness :
  exists pmcid,
    startswith "PMC" pmcid = true /\
    metadata (set_PMCID "PMC10"
                {| metadata := extract_metadata full_article "10";
                   page_content := extract_body full_article |}) !! "PMCID"
      = Some (Some pmcid).
Proof.
  destruct (stored_document_identifiers end_to_end ["1"; "2"] "1"
              (set_PMCID "PMC10"
                 {| metadata := extract_metadata full_article "10";
                    page_content := extract_body full_article |}))
    as (pmcid & Hp & Hid & _).
  - vm_compute. reflexivity.
  - exists pmcid. split; [exact Hp|exact Hid].
Defined.

Section sizes.
Variable client : Remote.

Lemma size_insert_le {V : Type} (m : gmap string V) (k : string) (v : V) :
  size (<[k := v]> m) <= S (size m).
Proof.
  destruct (m !! k) eqn:Hk.
  - rewrite map_size_insert_Some by eauto. lia.
  - rewrite map_size_insert_None by done. lia.
Qed.

(** One record adds at most one outcome. *)
Lemma step_size (st : BatchResult) (a : Article) :
  length (failed_pmids (process_article client st a)) +
  size (retrieved_documents (process_article client st a)) <=
  S (length (failed_pmids st) + size (retrieved_documents st)).
Proof.
  process_cases client a; rewrite ?length_app; simpl; try lia.
  pose proof (size_insert_le (retrieved_documents st) pmid
                (set_PMCID first doc)). lia.
Qed.

Lemma run_size (articles : list Article) (st : BatchResult) :
  length (failed_pmids (fold_left (process_article client) articles st)) +
  size (retrieved_documents (fold_left (process_article client) articles st)) <=
  length articles + (length (failed_pmids st) + size (retrieved_documents st)).
Proof.
  revert st. induction articles as [|a articles IH]; intros st; cbn [fold_left length].
  - lia.
  - pose proof (IH (process_article client st a)).
    pose proof (step_size st a). lia.
Qed.
End sizes.

(** X13. A batch never yields more outcomes than the service returned
    records: after [fetch_pmcids_from_pmids], the number of failures
    plus the number of documents is at most the number of returned
    records; when the combined call fails, the failures are the batch
    itself and there is no document. *)
Theorem outcomes_bounded_by_records (client : Remote) (pmid_batch : list string) :
  let res := fetch_pmcids_from_pmids client pmid_batch in
  match fetch_and_parse client (join "," pmid_batch) with
  | Some articles =>
      length (failed_pmids res) + size (retrieved_documents res) <= length articles
  | None =>
      failed_pmids res = pmid_batch /\ size (retrieved_documents res) = 0
  end.
Proof.
  cbv zeta. unfold fetch_pmcids_from_pmids.
  destruct (fetch_and_parse client (join "," pmid_batch)) as [articles|].
  - pose proof (run_size client articles empty_batch) as H.
    cbn [empty_batch failed_pmids retrieved_documents length] in H.
    rewrite map_size_empty in H. lia.
  - split; [done|]. apply map_size_empty.
Qed.

(** X14. For a positive batch size [make_batches] cuts the list into
    [ceil(len / batch_size)] batches; batch number [i] is the slice of
    [batch_size] identifiers that starts at position [i * batch_size]
    (shorter at the end of the list), and no batch is empty. *)
Theorem make_batches_slices (id_list : list string) (batch_size : Z) :
  (0 < batch_size)%Z ->
  exists batches,
    make_batches id_list batch_size = Some batches /\
    length batches =
      Z.to_nat ((Z.of_nat (length id_list) + batch_size - 1) / batch_size) /\
    forall i batch, batches !! i = Some batch ->
      batch = take (Z.to_nat batch_size) (drop (i * Z.to_nat batch_size) id_list) /\
      0 < length batch <= Z.to_nat batch_size.
Proof.
  intros Hpos. unfold make_batches, range_step.
  destruct (decide (batch_size = 0)%Z); [lia|].
  destruct (decide (batch_size < 0)%Z); [lia|].
  eexists. split; [reflexivity|].
  set (cnt := Z.to_nat ((Z.of_nat (length id_list) + batch_size - 1) / batch_size)).
  split; [by rewrite !length_map, length_seq|].
  intros i batch Hi. rewrite map_map in Hi.
  apply list_lookup_fmap_Some in Hi as (q & Hbatch & Hq).
  apply lookup_seq in Hq as [-> Hlt]. simpl in Hbatch.
  assert (Hslice : batch =
            take (Z.to_nat batch_size) (drop (i * Z.to_nat batch_size) id_list)).
  { rewrite Hbatch. unfold slice. f_equal; [nia|f_equal; nia]. }
  split; [exact Hslice|]. rewrite Hslice, length_take, length_drop.
  pose proof (Z.mul_div_le (Z.of_nat (length id_list) + batch_size - 1)
                batch_size Hpos).
  assert (0 <= (Z.of_nat (length id_list) + batch_size - 1) / batch_size)%Z
    by (apply Z.div_pos; lia).
  subst cnt. nia.
Qed.

Lemma make_batches_slices_witness :
  exists batches,
    make_batches ["1"; "2"; "3"; "4"; "5"] 2 = Some batches /\
    length batches = 3.
Proof.
  destruct (make_batches_slices ["1"; "2"; "3"; "4"; "5"] 2 ltac:(lia))
    as (batches & Hm & Hlen & _).
  exists batches. split; [exact Hm|exact Hlen].
Defined.

Example make_batches_five :
  make_batches ["1"; "2"; "3"; "4"; "5"] 2 = Some [["1"; "2"]; ["3"; "4"]; ["5"]].
Proof. reflexivity. Qed.

Lemma omap_lookup_nil {A : Type} (order : list nat) :
  omap (fun k => ([] : list A) !! k) order = [].
Proof.
  induction order as [|k order IH]; [done|].
  cbn [omap list_omap]. rewrite lookup_nil. exact IH.
Qed.

(** X15. [download_batch_parallel] on arguments at the edge of their
    range: a batch size of zero or a thread count that is not positive
    makes it raise before any batch is handled; a negative batch size
    makes it return three empty collections, whatever the identifier
    list holds; so does an empty identifier list. In all four cases the
    progress callback has not run. *)
Theorem download_batch_parallel_edges {Env : Type}
  (worker : list string -> option BatchResult)
  (callback : option (nat -> nat -> gmap string Document -> list string ->
                      gmap string (list string) -> Env -> option Env))
  (id_list : list string) (batch_size num_threads : Z) (order : list nat)
  (env : Env) :
  let run :=
    download_batch_parallel worker callback id_list batch_size num_threads
                            order None env in
  (batch_size = 0%Z ->
   run = (RaisedException "range() arg 3 must not be zero", env)) /\
  (batch_size ≠ 0%Z -> (num_threads <= 0)%Z ->
   run = (RaisedException "max_workers must be greater than 0", env)) /\
  ((batch_size < 0)%Z -> (0 < num_threads)%Z -> run = (Returned empty_batch, env)) /\
  (id_list = [] -> (0 < batch_size)%Z -> (0 < num_threads)%Z ->
   run = (Returned empty_batch, env)).
Proof.
  cbv zeta. unfold download_batch_parallel, make_batches, range_step.
  repeat split.
  - intros ->. done.
  - intros Hbs Hnt. destruct (decide (batch_size = 0)%Z); [done|].
    destruct (decide (batch_size < 0)%Z); by destruct (decide (num_threads <= 0)%Z).
  - intros Hbs Hnt. destruct (decide (batch_size = 0)%Z); [lia|].
    destruct (decide (batch_size < 0)%Z); [|lia].
    destruct (decide (num_threads <= 0)%Z); [lia|].
    cbn [map]. by rewrite omap_lookup_nil.
  - intros -> Hbs Hnt. destruct (decide (batch_size = 0)%Z); [lia|].
    destruct (decide (batch_size < 0)%Z); [lia|].
    destruct (decide (num_threads <= 0)%Z); [lia|].
    cbn [length Z.of_nat]. rewrite Z.add_0_l.
    rewrite (Z.div_small (batch_size - 1) batch_size) by lia.
    change (seq 0 (Z.to_nat 0)) with (@nil nat). cbn [map].
    by rewrite omap_lookup_nil.
Qed.

Lemma download_batch_parallel_edges_witness :
  let run bs nt ids :=
    download_batch_parallel
      (fun b => Some (fetch_pmcids_from_pmids end_to_end b)) None
      ids bs nt [0; 1] None tt in
  run 0%Z 2%Z ["1"; "2"] = (RaisedException "range() arg 3 must not be zero", tt) /\
  run 1%Z 0%Z ["1"; "2"] = (RaisedException "max_workers must be greater than 0", tt) /\
  run (-1)%Z 2%Z ["1"; "2"] = (Returned empty_batch, tt) /\
  run 1%Z 2%Z [] = (Returned empty_batch, tt).
Proof.
  cbv zeta. split; [|split; [|split]].
  - apply (proj1 (download_batch_parallel_edges
             (fun b => Some (fetch_pmcids_from_pmids end_to_end b)) None
             ["1"; "2"] 0 2 [0; 1] tt)). reflexivity.
  - apply (proj1 (proj2 (download_batch_parallel_edges
             (fun b => Some (fetch_pmcids_from_pmids end_to_end b)) None
             ["1"; "2"] 1 0 [0; 1] tt))); lia.
  - apply (proj1 (proj2 (proj2 (download_batch_parallel_edges
             (fun b => Some (fetch_pmcids_from_pmids end_to_end b)) None
             ["1"; "2"] (-1) 2 [0; 1] tt)))); lia.
  - apply (proj2 (proj2 (proj2 (download_batch_parallel_edges
             (fun b => Some (fetch_pmcids_from_pmids end_to_end b)) None
             [] 1 2 [0; 1] tt)))); [reflexivity|lia|lia].
Defined.

Section merge_order.
Context {Env : Type}.
Variable worker : list string -> option BatchResult.
Variable callback :
  option (nat -> nat -> gmap string Document -> list string ->
          gmap string (list string) -> Env -> option Env).

(** What one completed batch does to the running totals. *)
Lemma merge_batch_totals (total i : nat) (batch : list string)
  (totals : BatchResult) (env : Env) :
  fst (merge_batch worker callback total (totals, env) i batch) =
  match worker batch with
  | Some res =>
      {| failed_pmids := failed_pmids totals ++ failed_pmids res;
         multiple_pmcids_map := multiple_pmcids_map res ∪ multiple_pmcids_map totals;
         retrieved_documents := retrieved_documents res ∪ retrieved_documents totals |}
  | None => totals
  end.
Proof.
  unfold merge_batch. destruct (worker batch) as [res|]; [|done].
  destruct callback as [cb|]; [|done]. by destruct (cb _ _ _ _ _ _).
Qed.

Lemma drain_app (total i : nat) (pre post : list (list string))
  (st : BatchResult * Env) :
  drain worker callback total i (pre ++ post) st =
  drain worker callback total (i + length pre) post
        (drain worker callback total i pre st).
Proof.
  revert i st. induction pre as [|b pre IH]; intros i st; cbn [drain app length].
  - by rewrite Nat.add_0_r.
  - rewrite IH. f_equal. lia.
Qed.

Lemma drain_failed (total i : nat) (completed : list (list string))
  (totals : BatchResult) (env : Env) :
  failed_pmids (fst (drain worker callback total i completed (totals, env))) =
  failed_pmids totals ++ flat_map failed_pmids (omap worker completed).
Proof.
  revert i totals env.
  induction completed as [|b rest IH]; intros i totals env; cbn [drain].
  - by rewrite app_nil_r.
  - destruct (merge_batch worker callback total (totals, env) i b) as [t' env']
      eqn:Hstep.
    rewrite IH. pose proof (merge_batch_totals total i b totals env) as Ht.
    rewrite Hstep in Ht. cbn [fst] in Ht. subst t'. cbn [omap list_omap].
    destruct (worker b) as [res|]; cbn [failed_pmids flat_map]; [|done].
    by rewrite <- app_assoc.
Qed.

Lemma drain_documents_kept (total i : nat) (completed : list (list string))
  (totals : BatchResult) (env : Env) (k : string) :
  (forall b res, b ∈ completed -> worker b = Some res ->
                 retrieved_documents res !! k = None) ->
  retrieved_documents (fst (drain worker callback total i completed (totals, env)))
    !! k = retrieved_documents totals !! k.
Proof.
  revert i totals env.
  induction completed as [|b rest IH]; intros i totals env Hnone; cbn [drain]; [done|].
  destruct (merge_batch worker callback total (totals, env) i b) as [t' env']
    eqn:Hstep.
  rewrite IH by (intros b' res' Hb'; apply Hnone; by right).
  pose proof (merge_batch_totals total i b totals env) as Ht.
  rewrite Hstep in Ht. cbn [fst] in Ht. subst t'.
  destruct (worker b) as [res|] eqn:Hw; [|done]. cbn [retrieved_documents].
  rewrite lookup_union_r; [done|]. apply (Hnone b res); [by left|done].
Qed.
End merge_order.

(** X16. [download_batch_parallel] (non-zero batch size, positive
    thread count, no interrupt) returns the failures of the batches one
    after the other in the order in which the batches complete; and for
    an identifier that several batches resolve, the document of the
    batch that completes last among them is the one returned. *)
Theorem merge_in_completion_order {Env : Type}
  (worker : list string -> option BatchResult)
  (callback : option (nat -> nat -> gmap string Document -> list string ->
                      gmap string (list string) -> Env -> option Env))
  (id_list : list string) (batch_size num_threads : Z) (order : list nat)
  (env : Env) (batches : list (list string)) :
  make_batches id_list batch_size = Some batches ->
  (0 < num_threads)%Z ->
  let completed := omap (fun k => batches !! k) order in
  exists totals env',
    download_batch_parallel worker callback id_list batch_size num_threads
                            order None env = (Returned totals, env') /\
    failed_pmids totals = flat_map failed_pmids (omap worker completed) /\
    forall pre batch post res pmid document,
      completed = pre ++ batch :: post ->
      worker batch = Some res ->
      retrieved_documents res !! pmid = Some document ->
      (forall b r, b ∈ post -> worker b = Some r ->
                   retrieved_documents r !! pmid = None) ->
      retrieved_documents totals !! pmid = Some document.
Proof.
  intros Hm Hnt. cbv zeta. unfold download_batch_parallel. rewrite Hm.
  destruct (decide (num_threads <= 0)%Z); [lia|].
  set (completed := omap (fun k => batches !! k) order).
  destruct (drain worker callback (length batches) 0 completed (empty_batch, env))
    as [totals env'] eqn:Hdrain.
  exists totals, env'. split; [done|]. split.
  - pose proof (drain_failed worker callback (length batches) 0 completed
                  empty_batch env) as H.
    by rewrite Hdrain in H.
  - intros pre batch post res pmid document Hsplit Hw Hdoc Hlast.
    assert (totals = fst (drain worker callback (length batches) 0 completed
                            (empty_batch, env))) as -> by (by rewrite Hdrain).
    rewrite Hsplit, drain_app. cbn [drain].
    destruct (drain worker callback (length batches) 0 pre (empty_batch, env))
      as [t1 env1].
    destruct (merge_batch worker callback (length batches) (t1, env1)
                (0 + length pre) batch) as [t2 env2] eqn:Hstep.
    rewrite drain_documents_kept by done.
    pose proof (merge_batch_totals worker callback (length batches)
                  (0 + length pre) batch t1 env1) as Ht.
    rewrite Hstep, Hw in Ht. cbn [fst] in Ht. subst t2. cbn [retrieved_documents].
    by apply lookup_union_Some_l.
Qed.

(** X16 at two batches of one identifier that complete in reverse order. *)
Lemma merge_in_completion_order_witness :
  exists totals env',
    download_batch_parallel
      (fun b => Some (fetch_pmcids_from_pmids end_to_end b)) None
      ["1"; "2"] 1 2 [1; 0] None tt = (Returned totals, env') /\
    failed_pmids totals = ["2"] /\
    retrieved_documents totals !! "1" =
      Some (set_PMCID "PMC10"
              {| metadata := extract_metadata full_article "10";
                 page_content := extract_body full_article |}).
Proof.
  destruct (merge_in_completion_order
              (fun b => Some (fetch_pmcids_from_pmids end_to_end b)) None
              ["1"; "2"] 1 2 [1; 0] tt [["1"]; ["2"]] eq_refl ltac:(lia))
    as (totals & env' & Hrun & Hfailed & Hlast).
  exists totals, env'. split; [exact Hrun|]. split.
  - rewrite Hfailed. vm_compute. reflexivity.
  - apply (Hlast [["2"]] ["1"] [] (fetch_pmcids_from_pmids end_to_end ["1"])).
    + reflexivity.
    + reflexivity.
    + vm_compute. reflexivity.
    + intros b r Hb. by apply elem_of_nil in Hb.
Defined.

End DownloaderMore.

(** ** Decimal numbers and file names *)

Module PyMoreFacts.
Import PyStr PyMore StrFacts.

Lemma all_chars_nil (p : ascii -> bool) : all_chars p "".
Proof. intros a []. Qed.

Lemma all_chars_cons (p : ascii -> bool) (a : ascii) (s : string) :
  all_chars p (String a s) <-> p a = true /\ all_chars p s.
Proof.
  unfold all_chars. simpl. split.
  - intros H. split; [apply H; by left|]. intros b Hb. apply H. by right.
  - intros [Ha Hs] b [<-|Hb]; auto.
Qed.

Lemma all_chars_append (p : ascii -> bool) (s t : string) :
  all_chars p s -> all_chars p t -> all_chars p (s +:+ t).
Proof.
  induction s as [|a s IH]; [done|].
  rewrite append_cons, !all_chars_cons. intros [??] ?. auto.
Qed.

Lemma all_chars_impl (p q : ascii -> bool) (s : string) :
  (forall a, p a = true -> q a = true) -> all_chars p s -> all_chars q s.
Proof. intros Hpq H a Ha. auto. Qed.

Lemma count_char_absent (c : ascii) (s : string) :
  all_chars (fun a => negb (bool_decide (a = c))) s -> count_char c s = 0.
Proof.
  induction s as [|a s IH]; [done|].
  rewrite all_chars_cons. intros [Ha Hs]. simpl.
  apply negb_true_iff, bool_decide_eq_false in Ha.
  destruct (decide (a = c)); [done|]. by rewrite IH.
Qed.

(** A byte of the ASCII range that is no white space: it is a code
    point of its own and survives [strip] wherever it stands. *)
Lemma digit_facts (a : ascii) :
  is_digit a = true ->
  solid a = true /\ a ≠ "_"%char /\ a ≠ "."%char /\ a ≠ "-"%char /\ a ≠ "+"%char.
Proof.
  intros H. repeat split; try (intros ->; vm_compute in H; discriminate).
  unfold is_digit in H. apply andb_true_iff in H as [H1 H2].
  apply Nat.leb_le in H1, H2. unfold solid, isspace1.
  apply andb_true_iff. split; [|apply Nat.ltb_lt; lia].
  apply negb_true_iff, orb_false_iff.
  split; apply andb_false_iff; right; apply Nat.leb_gt; lia.
Qed.

Lemma solid_no_space (a b c : ascii) :
  solid a = true -> isspace1 a = false /\ isspace2 a b = false /\ isspace3 a b c = false.
Proof.
  unfold solid. intros [H1 H2]%andb_true_iff.
  apply negb_true_iff in H1. apply Nat.ltb_lt in H2.
  split; [exact H1|]. unfold isspace2, isspace3. cbv zeta.
  assert ((nat_of_ascii a =? 194)%nat = false) as -> by (apply Nat.eqb_neq; lia).
  assert ((nat_of_ascii a =? 225)%nat = false) as -> by (apply Nat.eqb_neq; lia).
  assert ((nat_of_ascii a =? 226)%nat = false) as -> by (apply Nat.eqb_neq; lia).
  assert ((nat_of_ascii a =? 227)%nat = false) as -> by (apply Nat.eqb_neq; lia).
  done.
Qed.

Lemma lstrip_first (a : ascii) (s : string) :
  solid a = true -> lstrip (String a s) = String a s.
Proof.
  intros H. cbn [lstrip].
  destruct (solid_no_space a "000" "000" H) as [-> _].
  destruct s as [|b s]; [done|].
  destruct (solid_no_space a b "000" H) as (_ & -> & _).
  destruct s as [|c s]; [done|].
  by destruct (solid_no_space a b c H) as (_ & _ & ->).
Qed.

Lemma blank_first (a : ascii) (s : string) :
  solid a = true -> blank (String a s) = false.
Proof.
  intros H. cbn [blank].
  destruct (solid_no_space a "000" "000" H) as [-> _].
  destruct s as [|b s]; [done|].
  destruct (solid_no_space a b "000" H) as (_ & -> & _).
  destruct s as [|c s]; [done|].
  by destruct (solid_no_space a b c H) as (_ & _ & ->).
Qed.

Lemma rstrip_all (s : string) : all_chars solid s -> rstrip s = s.
Proof.
  induction s as [|a s IH]; [done|].
  rewrite all_chars_cons. intros [Ha Hs].
  cbn [rstrip]. rewrite (blank_first a s Ha). by rewrite (IH Hs).
Qed.

Lemma strip_solid (s : string) : all_chars solid s -> strip s = s.
Proof.
  intros H. unfold strip. destruct s as [|a s]; [done|].
  pose proof H as [Ha _]%all_chars_cons.
  rewrite lstrip_first by done. by apply rstrip_all.
Qed.

Lemma parse_digits_value (s : string) (acc : Z) :
  all_chars is_digit s ->
  parse_digits acc s =
    Some (acc * 10 ^ Z.of_nat (String.length s) + digits_value s)%Z.
Proof.
  revert acc. induction s as [|a s IH]; intros acc.
  - intros _. simpl. f_equal. lia.
  - rewrite all_chars_cons. intros [Ha Hs]. cbn [parse_digits]. rewrite Ha.
    rewrite (IH _ Hs). f_equal. cbn [String.length digits_value].
    rewrite Nat2Z.inj_succ, Z.pow_succ_r by lia. lia.
Qed.

Lemma parse_unsigned_value (a : ascii) (s : string) :
  all_chars is_digit (String a s) ->
  parse_unsigned (String a s) = Some (digits_value (String a s)).
Proof.
  rewrite all_chars_cons. intros [Ha Hs]. cbn [parse_unsigned]. rewrite Ha.
  by rewrite (parse_digits_value s _ Hs).
Qed.

Lemma pretty_N_char_digit (m : N) :
  (m < 10)%N ->
  is_digit (pretty_N_char m) = true /\ digit_value (pretty_N_char m) = Z.of_N m.
Proof.
  intros Hm.
  assert (m = 0 \/ m = 1 \/ m = 2 \/ m = 3 \/ m = 4 \/ m = 5 \/ m = 6 \/ m = 7 \/
          m = 8 \/ m = 9)%N as H by lia.
  repeat (destruct H as [->|H]; [by split|]). subst. by split.
Qed.

(** What [pretty] builds in front of a string of digits is a string of
    digits with the expected value. *)
Lemma pretty_N_go_digits (x : N) (s : string) :
  all_chars is_digit s ->
  all_chars is_digit (pretty_N_go x s) /\
  digits_value (pretty_N_go x s) =
    (Z.of_N x * 10 ^ Z.of_nat (String.length s) + digits_value s)%Z.
Proof.
  revert s. induction (N.lt_wf_0 x) as [x _ IH]; intros s Hs.
  assert (x = 0 \/ 0 < x)%N as [->|Hpos] by lia.
  - rewrite pretty_N_go_0. split; [done|]. lia.
  - rewrite pretty_N_go_step by done.
    destruct (pretty_N_char_digit (x `mod` 10)%N) as [Hd Hv];
      [by apply N.mod_lt|].
    destruct (IH (x `div` 10)%N ltac:(by apply N.div_lt)
                 (String (pretty_N_char (x `mod` 10)) s)) as [Hall Hval].
    { apply all_chars_cons. by split. }
    split; [exact Hall|]. rewrite Hval. cbn [String.length digits_value].
    rewrite Hv, Nat2Z.inj_succ, Z.pow_succ_r by lia.
    rewrite (N.div_mod x 10) at 3 by done.
    rewrite N2Z.inj_add, N2Z.inj_mul. change (Z.of_N 10) with 10%Z. lia.
Qed.

Lemma pretty_N_digits (x : N) :
  exists a s, pretty x = String a s /\ all_chars is_digit (String a s) /\
              digits_value (String a s) = Z.of_N x.
Proof.
  unfold pretty, pretty_N. destruct (decide (x = 0)%N) as [->|Hx].
  - exists "0"%char, "". split; [done|]. split; [|done].
    apply all_chars_cons. split; [done|apply all_chars_nil].
  - destruct (pretty_N_go_digits x "" (all_chars_nil _)) as [Hall Hval].
    cbn [String.length digits_value] in Hval.
    destruct (pretty_N_go x "") as [|a s] eqn:Hgo.
    + cbn in Hval. lia.
    + exists a, s. split; [done|]. split; [done|]. rewrite Hval. lia.
Qed.

(** [int(str(k)) == k] *)
Lemma py_int_pretty (k : Z) : py_int (pretty k) = Some k.
Proof.
  assert (Hsolid : forall s, all_chars is_digit s -> all_chars solid s).
  { intros s. apply all_chars_impl. intros a Ha.
    by destruct (digit_facts a Ha) as [-> _]. }
  unfold py_int. destruct k as [|p|p]; unfold pretty, pretty_Z.
  - reflexivity.
  - destruct (pretty_N_digits (N.pos p)) as (a & s & Heq & Hall & Hval).
    assert (parse_unsigned (String a s) = Some (Z.pos p)) as Hparse
      by (rewrite parse_unsigned_value by done; by rewrite Hval).
    change (pretty p) with (pretty (N.pos p)). rewrite Heq.
    rewrite strip_solid by auto.
    pose proof Hall as [Ha _]%all_chars_cons.
    destruct (digit_facts a Ha) as (_ & _ & _ & Hminus & Hplus).
    destruct a as [[] [] [] [] [] [] [] []]; try exact Hparse; done.
  - destruct (pretty_N_digits (N.pos p)) as (a & s & Heq & Hall & Hval).
    change (pretty p) with (pretty (N.pos p)). rewrite Heq.
    rewrite strip_solid.
    + change ("-" +:+ String a s) with (String "-" (String a s)). cbv iota beta.
      rewrite parse_unsigned_value by done. rewrite Hval. reflexivity.
    + change ("-" +:+ String a s) with (String "-" (String a s)).
      apply all_chars_cons. split; [done|auto].
Qed.

(** The characters of [str(k)] are digits or the minus sign. *)
Lemma pretty_Z_chars (k : Z) :
  all_chars (fun a => is_digit a || bool_decide (a = "-"%char)) (pretty k).
Proof.
  assert (Hd : forall s, all_chars is_digit s ->
                all_chars (fun a => is_digit a || bool_decide (a = "-"%char)) s).
  { intros s. apply all_chars_impl. intros a ->. done. }
  destruct k as [|p|p]; unfold pretty, pretty_Z.
  - apply all_chars_cons. split; [done|apply all_chars_nil].
  - destruct (pretty_N_digits (N.pos p)) as (a & s & Heq & Hall & _).
    change (pretty p) with (pretty (N.pos p)). rewrite Heq. auto.
  - destruct (pretty_N_digits (N.pos p)) as (a & s & Heq & Hall & _).
    change (pretty p) with (pretty (N.pos p)). rewrite Heq.
    change ("-" +:+ String a s) with (String "-" (String a s)).
    apply all_chars_cons. split; [done|auto].
Qed.

Lemma pretty_Z_no (c : ascii) (k : Z) :
  is_digit c = false -> c ≠ "-"%char -> count_char c (pretty k) = 0.
Proof.
  intros Hc Hm. apply count_char_absent.
  eapply all_chars_impl; [|apply pretty_Z_chars].
  intros a Ha. apply negb_true_iff, bool_decide_eq_false. intros ->.
  rewrite Hc in Ha. simpl in Ha. apply bool_decide_eq_true in Ha. done.
Qed.

(** [split] and [stem] on names built by appending. *)
Lemma last_segment_whole (sep : ascii) (t : string) :
  count_char sep t = 0 -> last_segment sep t = t.
Proof. intros H. destruct t; [done|]. cbn [last_segment]. by rewrite H. Qed.

Lemma last_segment_append (sep : ascii) (p t : string) :
  count_char sep t = 0 -> last_segment sep (p +:+ String sep t) = t.
Proof.
  intros Ht. induction p as [|a p IH].
  - rewrite append_nil_l. cbn [last_segment count_char].
    destruct (decide (sep = sep)); [|done]. simpl.
    by apply last_segment_whole.
  - rewrite append_cons. cbn [last_segment].
    assert (count_char sep (String a (p +:+ String sep t)) ≠ 0) as Hne.
    { cbn [count_char]. rewrite count_char_append. cbn [count_char].
      destruct (decide (sep = sep)); [lia|done]. }
    apply Nat.eqb_neq in Hne. by rewrite Hne.
Qed.

Lemma split_last_dot_none (q : string) :
  count_char "." q = 0 -> split_last_dot q = None.
Proof.
  induction q as [|a q IH]; [done|]. cbn [count_char split_last_dot].
  destruct (decide (a = "."%char)); [done|]. simpl. intros H. by rewrite IH.
Qed.

Lemma split_last_dot_append (p q : string) :
  count_char "." q = 0 -> split_last_dot (p +:+ String "." q) = Some (p, q).
Proof.
  intros Hq. induction p as [|a p IH].
  - rewrite append_nil_l. cbn [split_last_dot].
    by rewrite (split_last_dot_none q Hq).
  - rewrite append_cons. cbn [split_last_dot]. by rewrite IH.
Qed.

Lemma endswith_append (p s : string) : endswith s (p +:+ s) = true.
Proof.
  induction p as [|a p IH].
  - rewrite append_nil_l. destruct s; cbn [endswith]; by rewrite bool_decide_eq_true_2.
  - rewrite append_cons. cbn [endswith]. rewrite IH. apply orb_true_r.
Qed.

End PyMoreFacts.

(** ** Checkpoints: reading back, listing, and the whole download run *)

Module CheckpointMore.
Import PyStr PyMore XmlParser Downloader Checkpoint CheckpointLoad Fixtures.
Import StrFacts PyMoreFacts DownloaderSpec DownloaderMore CheckpointSpec.

(** *** The lossless stand-in for pickle *)

Lemma bytes_pos_bytes (p : positive) : bytes_pos (pos_bytes p) = Some p.
Proof. induction p as [p IH|p IH|]; simpl; by rewrite ?IH. Qed.

Lemma code_unpickle_pickle (obj : PyObj) : code_unpickle (code_pickle obj) = Some obj.
Proof.
  unfold code_unpickle, code_pickle. rewrite bytes_pos_bytes. simpl.
  apply decode_encode.
Qed.

(** *** save_final_results *)

Lemma save_final_results_written (pickle_dumps : PyObj -> list Byte.byte)
  documents failed multiple (d : Disk) :
  files (save_final_results pickle_dumps documents failed multiple d) =
  <["multiple_pmcids_final.pkl" := pickle_dumps (ObjMultiple multiple)]>
    (<["failed_pmids_final.pkl" := pickle_dumps (ObjList failed)]>
       (<["documents_final.pkl" := pickle_dumps (ObjDocuments documents)]>
          (files d))).
Proof. reflexivity. Qed.

Lemma save_final_results_frame (pickle_dumps : PyObj -> list Byte.byte)
  documents failed multiple (d : Disk) f :
  f ∉ final_filenames ->
  files (save_final_results pickle_dumps documents failed multiple d) !! f =
  files d !! f.
Proof.
  intros Hf. rewrite save_final_results_written. unfold final_filenames in Hf.
  rewrite !lookup_insert_ne; [done|set_solver..].
Qed.

Lemma checkpoint_not_final (f : string) (k : Z) :
  f ∈ checkpoint_filenames k -> f ∉ final_filenames.
Proof. intros Hk Hf. by apply (final_not_checkpoint f k). Qed.

(** X17. [save_final_results] writes the pickles of its three
    arguments to the three fixed file names, replaces what those files
    held, leaves every other file as it was, and prints two lines. *)
Theorem save_final_results_files (pickle_dumps : PyObj -> list Byte.byte)
  (documents : gmap string Document) (failed : list string)
  (multiple : gmap string (list string)) (d : Disk) :
  let d' := save_final_results pickle_dumps documents failed multiple d in
  files d' !! "documents_final.pkl" = Some (pickle_dumps (ObjDocuments documents)) /\
  files d' !! "failed_pmids_final.pkl" = Some (pickle_dumps (ObjList failed)) /\
  files d' !! "multiple_pmcids_final.pkl" = Some (pickle_dumps (ObjMultiple multiple)) /\
  (forall f, f ∉ final_filenames -> files d' !! f = files d !! f) /\
  stdout d' =
    stdout d ++ [nl +:+ "Saving final results..."; "Final results saved successfully."].
Proof.
  cbv zeta. rewrite save_final_results_written. repeat split.
  - rewrite lookup_insert_ne by done. rewrite lookup_insert_ne by done.
    by rewrite lookup_insert_eq.
  - rewrite lookup_insert_ne by done. by rewrite lookup_insert_eq.
  - by rewrite lookup_insert_eq.
  - intros f Hf. rewrite <- (save_final_results_frame pickle_dumps documents
                               failed multiple d f Hf).
    by rewrite save_final_results_written.
  - unfold save_final_results. cbn. by rewrite <- app_assoc.
Qed.

(** *** load_checkpoint *)

Section loading.
Variable pickle_dumps : PyObj -> list Byte.byte.
Variable pickle_loads : list Byte.byte -> option PyObj.

Lemma load_checkpoint_stored (k : Z) (d : Disk) documents failed multiple :
  (forall obj, pickle_loads (pickle_dumps obj) = Some obj) ->
  files d !! checkpoint_filename "documents" k =
    Some (pickle_dumps (ObjDocuments documents)) ->
  files d !! checkpoint_filename "failed_pmids" k =
    Some (pickle_dumps (ObjList failed)) ->
  files d !! checkpoint_filename "multiple_pmcids" k =
    Some (pickle_dumps (ObjMultiple multiple)) ->
  load_checkpoint pickle_loads k d =
    Some (ObjDocuments documents, ObjList failed, ObjMultiple multiple).
Proof.
  intros Hround H1 H2 H3. unfold load_checkpoint, load_if_exists.
  by rewrite H1, H2, H3, !Hround.
Qed.

Lemma load_checkpoint_same_files (k : Z) (d1 d2 : Disk) :
  (forall f, f ∈ checkpoint_filenames k -> files d1 !! f = files d2 !! f) ->
  load_checkpoint pickle_loads k d1 = load_checkpoint pickle_loads k d2.
Proof.
  intros H. unfold load_checkpoint, load_if_exists.
  rewrite !H; [done|unfold checkpoint_filenames; cbn [map]; set_solver..].
Qed.
End loading.

(** X18. With a [pickle.loads] that inverts [pickle.dumps],
    [load_checkpoint(k)] gives back the three collections that
    [save_checkpoint(k, ...)] was called with, and still does after
    checkpoints with other indices and the final results have been
    saved. *)
Theorem load_after_save (pickle_dumps : PyObj -> list Byte.byte)
  (pickle_loads : list Byte.byte -> option PyObj) (k n : Z)
  (documents : gmap string Document) (failed : list string)
  (multiple : gmap string (list string)) (d : Disk) :
  (forall obj, pickle_loads (pickle_dumps obj) = Some obj) ->
  let saved := save_checkpoint pickle_dumps k n documents failed multiple d in
  let loaded := Some (ObjDocuments documents, ObjList failed, ObjMultiple multiple) in
  load_checkpoint pickle_loads k saved = loaded /\
  (forall k' n' documents' failed' multiple',
     k' ≠ k ->
     load_checkpoint pickle_loads k
       (save_checkpoint pickle_dumps k' n' documents' failed' multiple' saved)
     = loaded) /\
  (forall documents' failed' multiple',
     load_checkpoint pickle_loads k
       (save_final_results pickle_dumps documents' failed' multiple' saved)
     = loaded).
Proof.
  intros Hround. cbv zeta.
  assert (load_checkpoint pickle_loads k
            (save_checkpoint pickle_dumps k n documents failed multiple d) =
          Some (ObjDocuments documents, ObjList failed, ObjMultiple multiple))
    as Hload.
  { destruct (save_checkpoint_written pickle_dumps k n documents failed multiple d)
      as (H1 & H2 & H3).
    by apply (load_checkpoint_stored pickle_dumps). }
  split; [exact Hload|]. split.
  - intros k' n' documents' failed' multiple' Hne. rewrite <- Hload.
    apply load_checkpoint_same_files. intros f Hf.
    apply save_checkpoint_frame. by apply (other_index_not_written k k').
  - intros documents' failed' multiple'. rewrite <- Hload.
    apply load_checkpoint_same_files. intros f Hf.
    apply save_final_results_frame. by apply (checkpoint_not_final f k).
Qed.

(** X18 with the lossless stand-in for pickle: checkpoint 0 is read
    back after checkpoint 1 has been saved. *)
Lemma load_after_save_witness :
  let doc := {| metadata := ∅; page_content := "text" |} in
  let d0 := save_checkpoint code_pickle 0 2 {[ "1" := doc ]} ["3"] ∅ empty_disk in
  let d1 := save_checkpoint code_pickle 1 2 {[ "1" := doc; "2" := doc ]} ["3"] ∅ d0 in
  load_checkpoint code_unpickle 0 d1 =
    Some (ObjDocuments {[ "1" := doc ]}, ObjList ["3"], ObjMultiple ∅).
Proof.
  cbv zeta.
  apply (proj1 (proj2 (load_after_save code_pickle code_unpickle 0 2
                         {[ "1" := {| metadata := ∅; page_content := "text" |} ]}
                         ["3"] ∅ empty_disk code_unpickle_pickle))).
  lia.
Defined.

(** X19. When none of the three files of index [k] exists,
    [load_checkpoint(k)] returns an empty dict, an empty list and an
    empty dict, whatever else the directory holds and without
    unpickling anything. *)
Theorem load_checkpoint_missing (pickle_loads : list Byte.byte -> option PyObj)
  (k : Z) (d : Disk) :
  (forall f, f ∈ checkpoint_filenames k -> files d !! f = None) ->
  load_checkpoint pickle_loads k d = Some (ObjDocuments ∅, ObjList [], ObjMultiple ∅).
Proof.
  intros H. unfold load_checkpoint, load_if_exists.
  rewrite !H; [done|unfold checkpoint_filenames; cbn [map]; set_solver..].
Qed.

(** X19 on a directory that holds only the files of checkpoint 0. *)
Lemma load_checkpoint_missing_witness :
  load_checkpoint broken_unpickle 7
    (save_checkpoint toy_pickle 0 2 ∅ ["3"] ∅ empty_disk)
  = Some (ObjDocuments ∅, ObjList [], ObjMultiple ∅).
Proof.
  apply (load_checkpoint_missing broken_unpickle 7).
  intros f Hf. rewrite save_checkpoint_frame; [done|].
  by apply (other_index_not_written 7 0).
Defined.

(** X20. [load_checkpoint(k)] raises exactly when one of the three
    files of index [k] exists and cannot be unpickled. *)
Theorem load_checkpoint_raises (pickle_loads : list Byte.byte -> option PyObj)
  (k : Z) (d : Disk) :
  load_checkpoint pickle_loads k d = None <->
  exists f data, f ∈ checkpoint_filenames k /\ files d !! f = Some data /\
                 pickle_loads data = None.
Proof.
  unfold load_checkpoint, load_if_exists, checkpoint_filenames. cbn [map].
  split.
  - intros H.
    destruct (files d !! checkpoint_filename "documents" k) as [b1|] eqn:E1;
      [destruct (pickle_loads b1) eqn:L1;
         [|exists (checkpoint_filename "documents" k), b1; set_solver]|];
    (destruct (files d !! checkpoint_filename "failed_pmids" k) as [b2|] eqn:E2;
      [destruct (pickle_loads b2) eqn:L2;
         [|exists (checkpoint_filename "failed_pmids" k), b2; set_solver]|]);
    (destruct (files d !! checkpoint_filename "multiple_pmcids" k) as [b3|] eqn:E3;
      [destruct (pickle_loads b3) eqn:L3;
         [|exists (checkpoint_filename "multiple_pmcids" k), b3; set_solver]|]);
    discriminate.
  - intros (f & data & Hf & Hl & Hn).
    repeat (apply elem_of_cons in Hf as [->|Hf]); [| | |by apply elem_of_nil in Hf].
    + by rewrite Hl, Hn.
    + rewrite Hl, Hn. by repeat case_match.
    + rewrite Hl, Hn. by repeat case_match.
Qed.

(** *** list_checkpoints *)

Lemma filter_Permutation {A : Type} (p : A -> bool) (l1 l2 : list A) :
  l1 ≡ₚ l2 -> List.filter p l1 ≡ₚ List.filter p l2.
Proof.
  induction 1 as [|x l1 l2 _ IH|x y l|l1 l2 l3 _ IH1 _ IH2]; simpl.
  - done.
  - destruct (p x); [by constructor|done].
  - destruct (p x), (p y); try done. apply perm_swap.
  - by etrans.
Qed.

Lemma names_insert (m : gmap string (list Byte.byte)) (f : string)
  (x : list Byte.byte) :
  map fst (map_to_list (<[f := x]> m)) ≡ₚ
  match m !! f with
  | Some _ => map fst (map_to_list m)
  | None => f :: map fst (map_to_list m)
  end.
Proof.
  destruct (m !! f) as [old|] eqn:E.
  - rewrite <- (insert_delete_eq m f x).
    rewrite (Permutation_map fst (map_to_list_insert (delete f m) f x
                                    (lookup_delete_eq m f))).
    rewrite <- (Permutation_map fst (map_to_list_delete m f old E)). done.
  - by rewrite (Permutation_map fst (map_to_list_insert m f x E)).
Qed.

Lemma list_checkpoints_insert_other (d d' : Disk) (f : string) (x : list Byte.byte) :
  files d' = <[f := x]> (files d) ->
  glob_match "documents_checkpoint_" ".pkl" f = false ->
  list_checkpoints d' = list_checkpoints d.
Proof.
  intros Hfiles Hglob. unfold list_checkpoints, glob_documents_checkpoints.
  apply (Sorted_unique Z.le); [apply Sorted_merge_sort, _..|].
  rewrite !merge_sort_Permutation. apply omap_Permutation.
  rewrite Hfiles.
  rewrite (filter_Permutation _ _ _ (names_insert (files d) f x)).
  destruct (files d !! f); [done|]. simpl. by rewrite Hglob.
Qed.

Lemma documents_file_index (k : Z) :
  glob_match "documents_checkpoint_" ".pkl" (checkpoint_filename "documents" k) = true /\
  py_int (last_segment "_" (stem (checkpoint_filename "documents" k))) = Some k.
Proof.
  split.
  - unfold glob_match, checkpoint_filename.
    change ("documents" +:+ "_checkpoint_" +:+ pretty k +:+ ".pkl")
      with ("documents_checkpoint_" +:+ (pretty k +:+ ".pkl")).
    cbv [String.append String.length startswith str_drop]; fold String.append.
    rewrite endswith_append. reflexivity.
  - assert (stem (checkpoint_filename "documents" k) =
            "documents_checkpoint" +:+ String "_" (pretty k)) as ->.
    { unfold stem, checkpoint_filename.
      change ("documents" +:+ "_checkpoint_" +:+ pretty k +:+ ".pkl")
        with ("documents_checkpoint_" +:+ (pretty k +:+ String "." "pkl")).
      rewrite <- append_assoc.
      rewrite split_last_dot_append by reflexivity.
      reflexivity. }
    rewrite last_segment_append by (by apply pretty_Z_no).
    apply py_int_pretty.
Qed.

Lemma other_file_no_index (name : string) (k : Z) :
  name ∈ ["failed_pmids"; "multiple_pmcids"] ->
  glob_match "documents_checkpoint_" ".pkl" (checkpoint_filename name k) = false.
Proof.
  intros H. repeat (apply elem_of_cons in H as [->|H]); [| |by apply elem_of_nil in H];
    reflexivity.
Qed.

Lemma list_checkpoints_insert_index (d d' : Disk) (k : Z) (x : list Byte.byte) :
  files d' = <[checkpoint_filename "documents" k := x]> (files d) ->
  list_checkpoints d' ≡ₚ
  match files d !! checkpoint_filename "documents" k with
  | Some _ => list_checkpoints d
  | None => k :: list_checkpoints d
  end.
Proof.
  intros Hfiles. destruct (documents_file_index k) as [Hglob Hint].
  unfold list_checkpoints, glob_documents_checkpoints.
  rewrite !merge_sort_Permutation. rewrite Hfiles.
  rewrite (omap_Permutation _ _ _
             (filter_Permutation _ _ _
                (names_insert (files d) (checkpoint_filename "documents" k) x))).
  destruct (files d !! checkpoint_filename "documents" k).
  - by rewrite merge_sort_Permutation.
  - simpl. rewrite Hglob. cbn [omap list_omap]. rewrite Hint.
    by rewrite merge_sort_Permutation.
Qed.

(** X21. [list_checkpoints] returns the indices in ascending order.
    After [save_checkpoint(k, ...)] it lists [k]: the indices are the
    earlier ones, with [k] added once when the directory had no
    [documents_checkpoint_k.pkl] before. *)
Theorem list_checkpoints_after_save (pickle_dumps : PyObj -> list Byte.byte)
  (k n : Z) (documents : gmap string Document) (failed : list string)
  (multiple : gmap string (list string)) (d : Disk) :
  let d' := save_checkpoint pickle_dumps k n documents failed multiple d in
  Sorted Z.le (list_checkpoints d') /\
  k ∈ list_checkpoints d' /\
  list_checkpoints d' ≡ₚ
    match files d !! checkpoint_filename "documents" k with
    | Some _ => list_checkpoints d
    | None => k :: list_checkpoints d
    end.
Proof.
  cbv zeta.
  set (d1 := write_file (checkpoint_filename "documents" k)
                        (pickle_dumps (ObjDocuments documents)) d).
  set (d2 := write_file (checkpoint_filename "failed_pmids" k)
                        (pickle_dumps (ObjList failed)) d1).
  assert (list_checkpoints
            (save_checkpoint pickle_dumps k n documents failed multiple d) =
          list_checkpoints d1) as Heq.
  { rewrite (list_checkpoints_insert_other d2
               (save_checkpoint pickle_dumps k n documents failed multiple d)
               (checkpoint_filename "multiple_pmcids" k)
               (pickle_dumps (ObjMultiple multiple)) eq_refl)
      by (apply other_file_no_index; set_solver).
    apply (list_checkpoints_insert_other d1 d2
             (checkpoint_filename "failed_pmids" k)
             (pickle_dumps (ObjList failed)) eq_refl).
    apply other_file_no_index. set_solver. }
  pose proof (list_checkpoints_insert_index d d1 k
                (pickle_dumps (ObjDocuments documents)) eq_refl) as Hperm.
  rewrite Heq. split; [apply Sorted_merge_sort, _|]. split; [|exact Hperm].
  rewrite Hperm. destruct (files d !! checkpoint_filename "documents" k) eqn:E.
  - unfold list_checkpoints. rewrite merge_sort_Permutation.
    apply list_elem_of_omap. exists (checkpoint_filename "documents" k).
    destruct (documents_file_index k) as [Hglob Hint]. split; [|exact Hint].
    unfold glob_documents_checkpoints. apply list_elem_of_In, filter_In.
    split; [|exact Hglob]. apply list_elem_of_In, list_elem_of_fmap.
    eexists (_, _). split; [reflexivity|]. by apply elem_of_map_to_list.
  - by left.
Qed.

(** X22. [save_final_results] does not change what [list_checkpoints]
    returns: the three final files are no checkpoints. *)
Theorem list_checkpoints_ignores_final (pickle_dumps : PyObj -> list Byte.byte)
  (documents : gmap string Document) (failed : list string)
  (multiple : gmap string (list string)) (d : Disk) :
  list_checkpoints (save_final_results pickle_dumps documents failed multiple d) =
  list_checkpoints d.
Proof.
  set (d1 := write_file "documents_final.pkl"
                        (pickle_dumps (ObjDocuments documents)) d).
  set (d2 := write_file "failed_pmids_final.pkl"
                        (pickle_dumps (ObjList failed)) d1).
  rewrite (list_checkpoints_insert_other d2
             (save_final_results pickle_dumps documents failed multiple d)
             "multiple_pmcids_final.pkl"
             (pickle_dumps (ObjMultiple multiple)) eq_refl) by reflexivity.
  rewrite (list_checkpoints_insert_other d1 d2 "failed_pmids_final.pkl"
             (pickle_dumps (ObjList failed)) eq_refl) by reflexivity.
  by rewrite (list_checkpoints_insert_other d d1 "documents_final.pkl"
                (pickle_dumps (ObjDocuments documents)) eq_refl) by reflexivity.
Qed.

(** *** The download run of [main] *)

Section run.
Variable pickle_dumps : PyObj -> list Byte.byte.

(** [main] either stops with exit code 1 and the directory as the
    download left it, or saves the returned collections and exits
    with 0. *)
Lemma main_cases (client : Remote) (args : Args) (id_list : list string)
  (order : list nat) (interrupt : option nat) (clock_line : string) (d : Disk) :
  id_list ≠ [] ->
  let result := main pickle_dumps client args id_list order interrupt clock_line d in
  exists d0, files d0 = files d /\
    match download_batch_parallel
            (fun batch => Some (fetch_pmcids_from_pmids client batch))
            (Some (progress_callback pickle_dumps args))
            id_list (batch_size args) (threads args) order interrupt d0 with
    | (Returned totals, d') =>
        fst result = 0%Z /\
        files (snd result) =
          files (save_final_results pickle_dumps (retrieved_documents totals)
                   (failed_pmids totals) (multiple_pmcids_map totals) d')
    | (_, d') => fst result = 1%Z /\ files (snd result) = files d'
    end.
Proof.
  intros Hne. cbv zeta. unfold main. destruct id_list as [|p rest]; [done|].
  match goal with
  | |- context [download_batch_parallel _ _ _ _ _ _ _ ?start] => exists start
  end.
  split; [reflexivity|].
  destruct (download_batch_parallel _ _ _ _ _ _ _ _) as [[totals|e|] d'];
    split; reflexivity.
Qed.

Lemma drain_keeps_file (args : Args) (worker : list string -> option BatchResult)
  (total i : nat) (completed : list (list string)) (totals : BatchResult)
  (d : Disk) (f : string) :
  (forall j n documents failed multiple d0 d1,
     progress_callback pickle_dumps args j n documents failed multiple d0 = Some d1 ->
     files d1 !! f = files d0 !! f) ->
  files (snd (drain worker (Some (progress_callback pickle_dumps args))
                total i completed (totals, d))) !! f = files d !! f.
Proof.
  intros Hcb. revert i totals d.
  induction completed as [|batch rest IH]; intros i totals d; cbn [drain]; [done|].
  unfold merge_batch. destruct (worker batch) as [res|]; [|apply IH].
  destruct (progress_callback _ _ _ _ _ _ _ _) as [d1|] eqn:E; [|apply IH].
  rewrite IH. by apply Hcb in E.
Qed.

Lemma main_keeps_file (client : Remote) (args : Args) (id_list : list string)
  (order : list nat) (interrupt : option nat) (clock_line : string) (d : Disk)
  (f : string) :
  f ∉ final_filenames ->
  (forall j n documents failed multiple d0 d1,
     progress_callback pickle_dumps args j n documents failed multiple d0 = Some d1 ->
     files d1 !! f = files d0 !! f) ->
  files (snd (main pickle_dumps client args id_list order interrupt clock_line d))
    !! f = files d !! f.
Proof.
  intros Hf Hcb. destruct id_list as [|p rest]; [done|].
  destruct (main_cases client args (p :: rest) order interrupt clock_line d)
    as (d0 & Hd0 & Hcase); [done|].
  unfold download_batch_parallel in Hcase.
  destruct (make_batches (p :: rest) (batch_size args)) as [batches|];
    [|destruct Hcase as [_ ->]; by rewrite Hd0].
  destruct (decide (threads args <= 0)%Z);
    [destruct Hcase as [_ ->]; by rewrite Hd0|].
  rewrite <- Hd0.
  destruct interrupt as [stop|].
  - pose proof (drain_keeps_file args
                  (fun batch => Some (fetch_pmcids_from_pmids client batch))
                  (length batches) 0
                  (take stop (omap (fun k => batches !! k) order))
                  empty_batch d0 f Hcb) as Hkeep.
    destruct (drain _ _ _ _ _ _) as [totals d']. destruct Hcase as [_ ->].
    exact Hkeep.
  - pose proof (drain_keeps_file args
                  (fun batch => Some (fetch_pmcids_from_pmids client batch))
                  (length batches) 0
                  (omap (fun k => batches !! k) order)
                  empty_batch d0 f Hcb) as Hkeep.
    destruct (drain _ _ _ _ _ _) as [totals d']. destruct Hcase as [_ ->].
    rewrite save_final_results_frame by done. exact Hkeep.
Qed.

Lemma progress_callback_last (args : Args) (i total : nat) documents failed
  multiple (d : Disk) :
  checkpoint_interval args ≠ 0%Z -> (i + 1)%nat = total ->
  progress_callback pickle_dumps args i total documents failed multiple d =
  Some (save_checkpoint pickle_dumps (Z.of_nat i) (Z.of_nat total)
          documents failed multiple d).
Proof.
  intros Hint Hlast. unfold progress_callback. by repeat case_bool_decide.
Qed.
End run.

(** X23. With a positive batch size and thread count and no interrupt,
    [main] exits with 0 and the three final files hold the pickles of
    the collections [download_batch_parallel] returned; everything
    else in the directory is as the download left it. *)
Theorem main_completes (pickle_dumps : PyObj -> list Byte.byte)
  (client : Remote) (args : Args) (id_list : list string) (order : list nat)
  (clock_line : string) (d : Disk) :
  id_list ≠ [] -> (0 < batch_size args)%Z -> (0 < threads args)%Z ->
  let result := main pickle_dumps client args id_list order None clock_line d in
  exists d0 totals d',
    files d0 = files d /\
    download_batch_parallel
      (fun batch => Some (fetch_pmcids_from_pmids client batch))
      (Some (progress_callback pickle_dumps args))
      id_list (batch_size args) (threads args) order None d0 = (Returned totals, d') /\
    fst result = 0%Z /\
    files (snd result) !! "documents_final.pkl" =
      Some (pickle_dumps (ObjDocuments (retrieved_documents totals))) /\
    files (snd result) !! "failed_pmids_final.pkl" =
      Some (pickle_dumps (ObjList (failed_pmids totals))) /\
    files (snd result) !! "multiple_pmcids_final.pkl" =
      Some (pickle_dumps (ObjMultiple (multiple_pmcids_map totals))) /\
    (forall f, f ∉ final_filenames -> files (snd result) !! f = files d' !! f).
Proof.
  intros Hne Hbs Hth. cbv zeta.
  destruct (main_cases pickle_dumps client args id_list order None clock_line d Hne)
    as (d0 & Hd0 & Hcase).
  destruct (make_batches_concat id_list (batch_size args) Hbs) as (batches & Hm & _).
  assert (exists totals d',
            download_batch_parallel
              (fun batch => Some (fetch_pmcids_from_pmids client batch))
              (Some (progress_callback pickle_dumps args))
              id_list (batch_size args) (threads args) order None d0
            = (Returned totals, d')) as (totals & d' & Hrun).
  { unfold download_batch_parallel. rewrite Hm.
    destruct (decide (threads args <= 0)%Z); [lia|].
    destruct (drain _ _ _ _ _ _) as [totals d']. by exists totals, d'. }
  rewrite Hrun in Hcase. destruct Hcase as [Hexit Hfiles].
  exists d0, totals, d'. split; [done|]. split; [done|]. split; [done|].
  rewrite Hfiles, save_final_results_written.
  split; [|split; [|split]].
  - rewrite lookup_insert_ne by done. rewrite lookup_insert_ne by done.
    by rewrite lookup_insert_eq.
  - rewrite lookup_insert_ne by done. by rewrite lookup_insert_eq.
  - by rewrite lookup_insert_eq.
  - intros f Hf. rewrite <- save_final_results_written.
    by apply save_final_results_frame.
Qed.

(** X23 on a run over two identifiers of which the second has no
    full text. *)
Lemma main_completes_witness :
  let result :=
    main toy_pickle end_to_end small_run ["1"; "2"] [0; 1] None "" empty_disk in
  fst result = 0%Z /\
  exists totals,
    files (snd result) !! "failed_pmids_final.pkl" =
      Some (toy_pickle (ObjList (failed_pmids totals))).
Proof.
  cbv zeta.
  destruct (main_completes toy_pickle end_to_end small_run ["1"; "2"] [0; 1] ""
              empty_disk ltac:(discriminate) ltac:(reflexivity) ltac:(reflexivity))
    as (d0 & totals & d' & _ & _ & Hexit & _ & Hfailed & _).
  split; [exact Hexit|]. exists totals. exact Hfailed.
Defined.

(** X24. A batch size of zero or a thread count of zero or less makes
    the download raise before any batch is fetched: [main] exits with
    1 and writes no file, interrupted or not. *)
Theorem main_rejects_arguments (pickle_dumps : PyObj -> list Byte.byte)
  (client : Remote) (args : Args) (id_list : list string) (order : list nat)
  (interrupt : option nat) (clock_line : string) (d : Disk) :
  id_list ≠ [] -> (batch_size args = 0 \/ threads args <= 0)%Z ->
  let result := main pickle_dumps client args id_list order interrupt clock_line d in
  fst result = 1%Z /\ files (snd result) = files d.
Proof.
  intros Hne Hbad. cbv zeta.
  destruct (main_cases pickle_dumps client args id_list order interrupt
              clock_line d Hne) as (d0 & Hd0 & Hcase).
  unfold download_batch_parallel, make_batches, range_step in Hcase.
  destruct (decide (batch_size args = 0)%Z) as [Hz|Hnz].
  - destruct Hcase as [-> ->]. by rewrite Hd0.
  - destruct Hbad as [?|Hth]; [done|].
    destruct (decide (batch_size args < 0)%Z);
      (destruct (decide (threads args <= 0)%Z); [|lia]);
      destruct Hcase as [-> ->]; by rewrite Hd0.
Qed.

(** X24 at [--batch-size 0]. *)
Lemma main_rejects_arguments_witness :
  let result :=
    main toy_pickle end_to_end zero_batch ["1"; "2"] [0; 1] None "" empty_disk in
  fst result = 1%Z /\ files (snd result) = ∅.
Proof.
  apply (main_rejects_arguments toy_pickle end_to_end zero_batch ["1"; "2"] [0; 1]
           None "" empty_disk); [discriminate|left; reflexivity].
Defined.

(** X25. A negative batch size makes the list of batches empty: with a
    positive thread count and no interrupt, [main] fetches nothing,
    exits with 0 and saves three empty collections as the final
    results, whatever identifiers the search returned. *)
Theorem main_negative_batch_size (pickle_dumps : PyObj -> list Byte.byte)
  (client : Remote) (args : Args) (id_list : list string) (order : list nat)
  (clock_line : string) (d : Disk) :
  id_list ≠ [] -> (batch_size args < 0)%Z -> (0 < threads args)%Z ->
  let result := main pickle_dumps client args id_list order None clock_line d in
  fst result = 0%Z /\
  files (snd result) !! "documents_final.pkl" = Some (pickle_dumps (ObjDocuments ∅)) /\
  files (snd result) !! "failed_pmids_final.pkl" = Some (pickle_dumps (ObjList [])) /\
  files (snd result) !! "multiple_pmcids_final.pkl" = Some (pickle_dumps (ObjMultiple ∅)) /\
  (forall f, f ∉ final_filenames -> files (snd result) !! f = files d !! f).
Proof.
  intros Hne Hbs Hth. cbv zeta.
  destruct (main_cases pickle_dumps client args id_list order None clock_line d Hne)
    as (d0 & Hd0 & Hcase).
  unfold download_batch_parallel, make_batches, range_step in Hcase.
  destruct (decide (batch_size args = 0)%Z); [lia|].
  destruct (decide (batch_size args < 0)%Z); [|lia].
  destruct (decide (threads args <= 0)%Z); [lia|].
  cbn [map] in Hcase. rewrite omap_lookup_nil in Hcase. cbn [drain] in Hcase.
  destruct Hcase as [Hexit Hfiles]. split; [exact Hexit|].
  rewrite Hfiles, save_final_results_written.
  split; [|split; [|split]].
  - rewrite lookup_insert_ne by done. rewrite lookup_insert_ne by done.
    by rewrite lookup_insert_eq.
  - rewrite lookup_insert_ne by done. by rewrite lookup_insert_eq.
  - by rewrite lookup_insert_eq.
  - intros f Hf. rewrite <- save_final_results_written.
    rewrite save_final_results_frame by done. by rewrite Hd0.
Qed.

(** X25 at [--batch-size -1]. *)
Lemma main_negative_batch_size_witness :
  let result :=
    main toy_pickle end_to_end negative_batch ["1"; "2"] [0; 1] None "" empty_disk in
  fst result = 0%Z /\
  files (snd result) !! "documents_final.pkl" = Some [Byte.x00] /\
  files (snd result) !! "failed_pmids_final.pkl" = Some [Byte.x01].
Proof.
  cbv zeta.
  destruct (main_negative_batch_size toy_pickle end_to_end negative_batch
              ["1"; "2"] [0; 1] "" empty_disk
              ltac:(discriminate) ltac:(reflexivity) ltac:(reflexivity))
    as (Hexit & Hdocs & Hfailed & _).
  split; [exact Hexit|]. split; [exact Hdocs|exact Hfailed].
Defined.

(** X26. With [--checkpoint-interval 0] the callback's modulo raises
    for every batch but the first to complete, and the download loop
    swallows that: the only checkpoint [main] can write is the one of
    index 0, and an uninterrupted run with a positive batch size and
    thread count still exits with 0. *)
Theorem main_zero_interval (pickle_dumps : PyObj -> list Byte.byte)
  (client : Remote) (args : Args) (id_list : list string) (order : list nat)
  (interrupt : option nat) (clock_line : string) (d : Disk) (f : string) :
  checkpoint_interval args = 0%Z ->
  f ∉ checkpoint_filenames 0 -> f ∉ final_filenames ->
  files (snd (main pickle_dumps client args id_list order interrupt clock_line d))
    !! f = files d !! f /\
  (id_list ≠ [] -> (0 < batch_size args)%Z -> (0 < threads args)%Z ->
   fst (main pickle_dumps client args id_list order None clock_line d) = 0%Z).
Proof.
  intros Hint Hf0 Hfinal. split.
  - apply main_keeps_file; [done|].
    intros j n documents failed multiple d0 d1. unfold progress_callback.
    case_bool_decide as Hj.
    + intros [= <-]. subst j. by apply save_checkpoint_frame.
    + by rewrite bool_decide_eq_true_2.
  - intros Hne Hbs Hth.
    destruct (main_cases pickle_dumps client args id_list order None clock_line d
                Hne) as (d0 & _ & Hcase).
    destruct (make_batches_concat id_list (batch_size args) Hbs)
      as (batches & Hm & _).
    unfold download_batch_parallel in Hcase. rewrite Hm in Hcase.
    destruct (decide (threads args <= 0)%Z); [lia|].
    destruct (drain _ _ _ _ _ _) as [totals d']. by destruct Hcase.
Qed.

(** X26 on two batches: no checkpoint of index 1 appears. *)
Lemma main_zero_interval_witness :
  let result :=
    main toy_pickle end_to_end no_interval ["1"; "2"] [0; 1] None "" empty_disk in
  files (snd result) !! "documents_checkpoint_1.pkl" = None /\ fst result = 0%Z.
Proof.
  cbv zeta.
  destruct (main_zero_interval toy_pickle end_to_end no_interval ["1"; "2"] [0; 1]
              None "" empty_disk "documents_checkpoint_1.pkl" eq_refl) as [Hkeep Hexit].
  - apply (other_index_not_written 1 0); [lia|]. by left.
  - apply (checkpoint_not_final _ 1). by left.
  - split; [exact Hkeep|]. apply Hexit; [discriminate|reflexivity|reflexivity].
Defined.

(** X27. [main] writes nothing but checkpoint files and the three
    final files: any other file of the output directory is the same
    after the run, however the run ends. *)
Theorem main_writes_only_results (pickle_dumps : PyObj -> list Byte.byte)
  (client : Remote) (args : Args) (id_list : list string) (order : list nat)
  (interrupt : option nat) (clock_line : string) (d : Disk) (f : string) :
  (forall k, f ∉ checkpoint_filenames k) -> f ∉ final_filenames ->
  files (snd (main pickle_dumps client args id_list order interrupt clock_line d))
    !! f = files d !! f.
Proof.
  intros Hk Hfinal. apply main_keeps_file; [done|].
  intros j n documents failed multiple d0 d1. unfold progress_callback.
  repeat case_bool_decide; intros [= <-]; try done;
    by apply save_checkpoint_frame.
Qed.

(** X27 for a file [notes.txt] in the output directory. *)
Lemma main_writes_only_results_witness :
  let d := {| files := {[ "notes.txt" := [Byte.x07] ]}; stdout := [] |} in
  files (snd (main toy_pickle end_to_end small_run ["1"; "2"] [0; 1] None "" d))
    !! "notes.txt" = Some [Byte.x07].
Proof.
  cbv zeta.
  rewrite (main_writes_only_results toy_pickle end_to_end small_run ["1"; "2"]
             [0; 1] None "" _ "notes.txt").
  - reflexivity.
  - intros k Hk. unfold checkpoint_filenames, checkpoint_filename in Hk.
    cbn [map] in Hk.
    repeat (apply elem_of_cons in Hk as [Hk|Hk]); [| | |by apply elem_of_nil in Hk];
      revert Hk; cbv [String.append]; fold String.append; discriminate.
  - unfold final_filenames. intros Hf.
    repeat (apply elem_of_cons in Hf as [Hf|Hf]); [| | |by apply elem_of_nil in Hf];
      discriminate.
Defined.

(** X28. When every batch completes (positive batch size and thread
    count, non-zero checkpoint interval, no interrupt), the checkpoint
    of the last index, the number of batches minus one, is written
    with the final collections: its three files hold the same bytes
    as the three final files. *)
Theorem last_checkpoint_is_final (pickle_dumps : PyObj -> list Byte.byte)
  (client : Remote) (args : Args) (id_list : list string) (order : list nat)
  (clock_line : string) (d : Disk) (batches : list (list string)) :
  id_list ≠ [] -> (0 < batch_size args)%Z -> (0 < threads args)%Z ->
  checkpoint_interval args ≠ 0%Z ->
  make_batches id_list (batch_size args) = Some batches ->
  order ≡ₚ seq 0 (length batches) ->
  let result := main pickle_dumps client args id_list order None clock_line d in
  let last := (Z.of_nat (length batches) - 1)%Z in
  is_Some (files (snd result) !! "documents_final.pkl") /\
  files (snd result) !! checkpoint_filename "documents" last =
    files (snd result) !! "documents_final.pkl" /\
  files (snd result) !! checkpoint_filename "failed_pmids" last =
    files (snd result) !! "failed_pmids_final.pkl" /\
  files (snd result) !! checkpoint_filename "multiple_pmcids" last =
    files (snd result) !! "multiple_pmcids_final.pkl".
Proof.
  intros Hne Hbs Hth Hint Hm Hord. cbv zeta.
  destruct (main_cases pickle_dumps client args id_list order None clock_line d Hne)
    as (d0 & _ & Hcase).
  unfold download_batch_parallel in Hcase. rewrite Hm in Hcase.
  destruct (decide (threads args <= 0)%Z); [lia|].
  pose proof (completed_all batches order Hord) as Hall.
  assert (batches ≠ []) as Hsome.
  { destruct (make_batches_concat id_list (batch_size args) Hbs)
      as (batches' & Hm' & Hc). rewrite Hm in Hm'. injection Hm' as <-.
    intros ->. by apply Hne. }
  destruct (exists_last (l := omap (fun k => batches !! k) order))
    as (pre & batch & Hcompleted).
  { intros Hnil. rewrite Hnil in Hall. by apply Permutation_nil in Hall. }
  assert (length pre + 1 = length batches) as Hlen.
  { rewrite <- (Permutation_length Hall), Hcompleted, length_app. simpl. lia. }
  rewrite Hcompleted, drain_app in Hcase. cbn [drain] in Hcase.
  change (0 + length pre) with (length pre) in Hcase.
  destruct (drain _ _ _ _ pre _) as [totals0 d1].
  unfold merge_batch in Hcase.
  rewrite (progress_callback_last pickle_dumps args _ _ _ _ _ _ Hint Hlen) in Hcase.
  destruct Hcase as [_ Hfiles].
  replace (Z.of_nat (length batches) - 1)%Z with (Z.of_nat (length pre)) by lia.
  rewrite Hfiles.
  rewrite !(save_final_results_frame pickle_dumps _ _ _ _
              (checkpoint_filename _ (Z.of_nat (length pre))))
    by (apply (checkpoint_not_final _ (Z.of_nat (length pre)));
        unfold checkpoint_filenames; cbn [map]; set_solver).
  rewrite save_final_results_written.
  match goal with
  | |- context [save_checkpoint pickle_dumps ?k ?n ?docs ?failed ?mult ?dd] =>
      destruct (save_checkpoint_written pickle_dumps k n docs failed mult dd)
        as (H1 & H2 & H3)
  end.
  rewrite H1, H2, H3. cbn [retrieved_documents failed_pmids multiple_pmcids_map].
  split; [|split; [|split]].
  - rewrite lookup_insert_ne by done. rewrite lookup_insert_ne by done.
    rewrite lookup_insert_eq. by eexists.
  - rewrite lookup_insert_ne by done. rewrite lookup_insert_ne by done.
    by rewrite lookup_insert_eq.
  - rewrite lookup_insert_ne by done. by rewrite lookup_insert_eq.
  - by rewrite lookup_insert_eq.
Qed.

(** X28 on two batches that complete in reverse order. *)
Lemma last_checkpoint_is_final_witness :
  let result :=
    main toy_pickle end_to_end small_run ["1"; "2"] [1; 0] None "" empty_disk in
  files (snd result) !! "failed_pmids_checkpoint_1.pkl" =
    files (snd result) !! "failed_pmids_final.pkl".
Proof.
  cbv zeta.
  apply (proj1 (proj2 (proj2 (last_checkpoint_is_final toy_pickle end_to_end
           small_run ["1"; "2"] [1; 0] "" empty_disk [["1"]; ["2"]]
           ltac:(discriminate) ltac:(reflexivity) ltac:(reflexivity)
           ltac:(discriminate) eq_refl (perm_swap 0 1 []))))).
Defined.

End CheckpointMore.

(** ** paper_collector.py: identifiers and file names *)

Module CollectorSpec.
Import PyStr PyMore Collector StrFacts.

Lemma startswith_drop (p s : string) :
  startswith p s = true -> s = p +:+ str_drop (String.length p) s.
Proof.
  revert s. induction p as [|a p IH]; intros s; [done|].
  destruct s as [|b s]; [done|]. cbn [startswith].
  destruct (decide (a = b)) as [->|]; [|done]. intros H.
  rewrite append_cons. cbn [String.length str_drop]. f_equal. by apply IH.
Qed.

Lemma replace_char_gone (a b : ascii) (s : string) :
  a ≠ b -> count_char a (replace_char a b s) = 0.
Proof.
  intros Hab. induction s as [|c s IH]; [done|]. cbn [replace_char count_char].
  rewrite IH. destruct (decide (c = a)) as [->|Hc].
  - destruct (decide (b = a)); [congruence|done].
  - destruct (decide (c = a)); [done|done].
Qed.

Lemma replace_char_absent (a b c : ascii) (s : string) :
  b ≠ c -> count_char c s = 0 -> count_char c (replace_char a b s) = 0.
Proof.
  intros Hbc. induction s as [|x s IH]; [done|]. cbn [replace_char count_char].
  destruct (decide (x = c)) as [->|Hx]; [done|]. intros H. rewrite IH by done.
  destruct (decide (x = a)).
  - destruct (decide (b = c)); [done|done].
  - destruct (decide (x = c)); [done|done].
Qed.

Lemma replace_char_length (a b : ascii) (s : string) :
  String.length (replace_char a b s) = String.length s.
Proof. induction s as [|c s IH]; [done|]. simpl. by rewrite IH. Qed.

Lemma replace_char_append (a b : ascii) (s t : string) :
  replace_char a b (s +:+ t) = replace_char a b s +:+ replace_char a b t.
Proof.
  induction s as [|c s IH]; [done|]. rewrite append_cons. cbn [replace_char].
  by rewrite append_cons, IH.
Qed.

Lemma json_name_relative (s : string) :
  count_char "/" s = 0 -> startswith "/" (s +:+ ".json") = false.
Proof.
  destruct s as [|a s]; [done|]. cbn [count_char]. rewrite append_cons.
  cbn [startswith]. destruct (decide (a = "/"%char)) as [->|Hne]; [done|].
  intros _. destruct (decide ("/"%char = a)); [congruence|done].
Qed.

Lemma safe_filename_clean (doi : string) :
  count_char "/" (safe_filename doi) = 0 /\ count_char "\" (safe_filename doi) = 0.
Proof.
  unfold safe_filename. split.
  - apply replace_char_absent; [done|]. by apply replace_char_gone.
  - by apply replace_char_gone.
Qed.

(** X29. [normalize_doi] removes one leading [https://doi.org/],
    [http://doi.org/] or [doi.org/] and nothing else: the DOI is the
    result with one of these prefixes, or none, put back in front. *)
Theorem normalize_doi_strips_prefix (doi s : string) :
  normalize_doi ("https://doi.org/" +:+ s) = s /\
  normalize_doi ("http://doi.org/" +:+ s) = s /\
  normalize_doi ("doi.org/" +:+ s) = s /\
  exists p, p ∈ [""; "https://doi.org/"; "http://doi.org/"; "doi.org/"] /\
            doi = p +:+ normalize_doi doi.
Proof.
  split; [reflexivity|]. split; [reflexivity|]. split; [reflexivity|].
  unfold normalize_doi.
  destruct (startswith "https://doi.org/" doi) eqn:H1.
  { exists "https://doi.org/". split; [set_solver|]. by apply startswith_drop in H1. }
  destruct (startswith "http://doi.org/" doi) eqn:H2.
  { exists "http://doi.org/". split; [set_solver|]. by apply startswith_drop in H2. }
  destruct (startswith "doi.org/" doi) eqn:H3.
  { exists "doi.org/". split; [set_solver|]. by apply startswith_drop in H3. }
  exists "". split; [set_solver|done].
Qed.

(** X30. The file [save_paper_data] writes for a DOI lies directly in
    [PAPERS_DIR]: its name has the length of the DOI plus [.json] and
    holds neither a slash nor a backslash. The name does not tell a
    slash from an underscore, so two DOIs that differ only in that
    share one file. *)
Theorem paper_file_path_inside_dir (doi s t : string) :
  paper_file_path doi = PAPERS_DIR +:+ "/" +:+ safe_filename doi +:+ ".json" /\
  count_char "/" (safe_filename doi) = 0 /\
  count_char "\" (safe_filename doi) = 0 /\
  String.length (safe_filename doi) = String.length doi /\
  paper_file_path (s +:+ "/" +:+ t) = paper_file_path (s +:+ "_" +:+ t).
Proof.
  destruct (safe_filename_clean doi) as [Hslash Hback].
  split; [|split; [done|split; [done|split]]].
  - unfold paper_file_path, os_path_join. by rewrite json_name_relative.
  - unfold safe_filename. by rewrite !replace_char_length.
  - unfold paper_file_path. do 2 f_equal. unfold safe_filename.
    by rewrite !replace_char_append.
Qed.

End CollectorSpec.
